(** * Butter Visualizer: the peer fan-out transport and its signaling

    A shallow embedding of the dashboard's [WebRTCController]
    (renderer/services/webrtcController.js), of [MicrophoneManager]
    (renderer/services/microphoneManager.js) and of the candidate handlers of
    the two receivers (popup/services/webrtcReceiver.js and the
    [SocketReceiver] of popup/popup.jsx).

    JavaScript objects live in an explicit store: the controller's
    [connections] map holds references into a heap of peer connections, the
    closures registered by [createConnection] capture such a reference, and
    timers created with [setInterval] / [setTimeout] sit in a timer table
    until the event loop fires them.  One handler runs to completion per
    event-loop turn; an [await] of a browser operation is taken to settle
    inside the turn that started it, and an [async] method that throws is a
    method whose promise rejects.  What the environment decides (the SDP the
    browser generates, whether a send goes through, what the media stack
    answers) is an argument of the handler it reaches.  Timer delays are
    exact rationals, of which the JavaScript numbers are the roundings.

    The second part embeds the components around the transport: the other
    methods of the microphone manager, the preset controller of the
    dashboard (renderer/services/visualizationController.js), the client
    ids of the browser receiver, the Socket.IO relay of the main process
    (main/expressServer.js), the settings (main/settingsManager.js) and the
    audio side of the renderer (popup/services/butterchurnRenderer.js).
    Code of the main process does not run in the monad of the dashboard:
    its handlers are functions on the state of their module. *)

From Stdlib Require Import ZArith QArith String Ascii List Lia.
From Stdlib Require Import Init.Byte DecimalString Qround.
From Stdlib Require HexadecimalString.
From stdpp Require Import base gmap strings list.

Set Warnings "-register-all".

Open Scope Z_scope.
Open Scope string_scope.
Open Scope list_scope.
Open Scope stdpp_scope.

(** ** Completions and the monad of one event-loop turn *)

Inductive Exn : Type :=
| InvalidStateError
| OperationError
| TypeError
| NotAllowedError.

Inductive Completion (A : Type) : Type :=
| Normal (a : A)
| Abrupt (e : Exn).

Arguments Normal {A} a.
Arguments Abrupt {A} e.

Definition JS (St A : Type) : Type := St -> Completion A * St.

Definition ret {St A} (a : A) : JS St A := fun s => (Normal a, s).

Definition throw {St A} (e : Exn) : JS St A := fun s => (Abrupt e, s).

Definition bind {St A B} (m : JS St A) (k : A -> JS St B) : JS St B :=
  fun s =>
    match m s with
    | (Normal a, s') => k a s'
    | (Abrupt e, s') => (Abrupt e, s')
    end.

Definition tryCatch {St A} (body : JS St A) (handler : Exn -> JS St A) : JS St A :=
  fun s =>
    match body s with
    | (Normal a, s') => (Normal a, s')
    | (Abrupt e, s') => handler e s'
    end.

Definition get {St} : JS St St := fun s => (Normal s, s).

Definition modify {St} (f : St -> St) : JS St unit := fun s => (Normal tt, f s).

Notation "x <- c1 ;; c2" := (bind c1 (fun x => c2))
  (at level 62, c1 at next level, right associativity).
Notation "c1 ;;; c2" := (bind c1 (fun _ => c2))
  (at level 62, right associativity).

Definition completed {A} (c : Completion A) : bool :=
  match c with Normal _ => true | Abrupt _ => false end.

(** ** Values exchanged with the browser *)

(** A session identifier: window ids of Electron popups are numbers, client
    ids of browser clients are strings.  As keys of a JavaScript [Map] the
    number 1 and the string "1" are different keys. *)
Inductive WindowId : Type :=
| NumId (n : Z)
| StrId (s : string).

#[global] Instance WindowId_eq_dec : EqDecision WindowId.
Proof. solve_decision. Defined.

Definition WindowId_to_sum (w : WindowId) : Z + string :=
  match w with NumId n => inl n | StrId s => inr s end.

Definition WindowId_of_sum (x : Z + string) : WindowId :=
  match x with inl n => NumId n | inr s => StrId s end.

#[global] Instance WindowId_countable : Countable WindowId.
Proof.
  apply (inj_countable' WindowId_to_sum WindowId_of_sum).
  intros []; reflexivity.
Defined.

Inductive SdpType : Type := SdpOffer | SdpAnswer.

Record SessionDescription : Type := {
  sdpType : SdpType;
  sdp : string;
}.

(** The plain object [{candidate, sdpMid, sdpMLineIndex}] that travels over
    the signaling path; [None] stands for a null or undefined property. *)
Record IceCandidateInit : Type := {
  candidate : option string;
  sdpMid : option string;
  sdpMLineIndex : option N;
}.

(** What a handler receives as its [candidate] argument: the object, or
    null / undefined. *)
Definition Candidate : Type := option IceCandidateInit.

Inductive Payload : Type :=
| Binary (bytes : list byte)
| Text (text : string).

Inductive LogLevel : Type := LogInfo | LogWarn | LogError.

Record LogEntry : Type := {
  level : LogLevel;
  message : string;
}.

(** JavaScript truthiness of a string-valued property. *)
Definition falsy (o : option string) : bool :=
  match o with
  | None => true
  | Some EmptyString => true
  | Some _ => false
  end.

(** ** Browser objects

    The peer connection, its data channels and the Web Audio nodes belong to
    the browser.  The records keep the properties the repository reads or
    writes; the operations below follow the WebRTC and Web Audio interfaces
    as far as the handlers depend on them. *)

Inductive ReadyState : Type := RsConnecting | RsOpen | RsClosing | RsClosed.

Inductive ConnectionState : Type :=
| CsNew | CsConnecting | CsConnected | CsDisconnected | CsFailed | CsClosed.

Inductive SignalingState : Type :=
| SsStable | SsHaveLocalOffer | SsHaveRemoteOffer | SsClosed.

#[global] Instance ReadyState_eq_dec : EqDecision ReadyState.
Proof. solve_decision. Defined.
#[global] Instance ConnectionState_eq_dec : EqDecision ConnectionState.
Proof. solve_decision. Defined.
#[global] Instance SignalingState_eq_dec : EqDecision SignalingState.
Proof. solve_decision. Defined.

Record DataChannel : Type := {
  label : string;
  ordered : bool;
  maxRetransmits : option N;
  readyState : ReadyState;
  sent : list Payload;            (* what [send] handed to the transport, oldest first *)
}.

Record RTCPeerConnection : Type := {
  iceServers : list string;
  connectionState : ConnectionState;
  signalingState : SignalingState;
  localDescription : option SessionDescription;
  remoteDescription : option SessionDescription;
  remoteCandidates : list IceCandidateInit;   (* accepted by [addIceCandidate] *)
}.

Definition TimerId : Type := nat.
Definition PcRef : Type := nat.

(** The object [createConnection] builds: the peer connection, the two
    channels its closures capture, and the two properties the handlers hang
    on the connection ([pc.controlChannel], [pc.audioChannelInterval]). *)
Record Connection : Type := {
  pc : RTCPeerConnection;
  audioChannel : DataChannel;
  controlChannel : DataChannel;
  pc_controlChannel : bool;       (* [pc.controlChannel] has been assigned *)
  audioChannelInterval : option TimerId;
}.

Record MediaStream : Type := {
  streamId : string;
  trackIds : list string;
}.

Record AudioContext : Type := {
  sampleRate : positive;
  suspended : bool;
}.

Record AnalyserNode : Type := {
  fftSize : N;
  smoothingTimeConstant : Q;
  timeDomainData : list byte;     (* the window the analyser currently holds *)
}.

Record GainNode : Type := {
  gain : Q;
}.

Record MicrophoneManager : Type := {
  stream : option MediaStream;
  audioContext : option AudioContext;
  analyser : option AnalyserNode;
  gainNode : option GainNode;
  isEnabled : bool;
  selectedDeviceId : string;
}.

(** Calls on [window.electronAPI], the signaling adapters of the dashboard. *)
Inductive IpcCall : Type :=
| sendOffer (windowId : WindowId) (offer : SessionDescription)
| sendOfferToBrowserClient (windowId : WindowId) (offer : SessionDescription)
| sendIceCandidate (windowId : WindowId) (c : IceCandidateInit) (direction : string)
| sendIceToBrowserClient (windowId : WindowId) (c : IceCandidateInit)
| notifyWindowClosed (windowId : WindowId).

Inductive TimerTask : Type :=
| SendAnalysisData (conn : PcRef)
| RetryIceCandidate (windowId : WindowId) (c : Candidate)
| AnalyserTest.

Record Timer : Type := {
  task : TimerTask;
  delay : Q;                      (* milliseconds, as handed to the browser *)
  repeating : bool;               (* setInterval rather than setTimeout *)
}.

(** The renderer process of the dashboard. *)
Record Dashboard : Type := {
  microphoneManager : MicrophoneManager;
  connections : gmap WindowId PcRef;      (* [this.connections] *)
  heap : gmap PcRef Connection;
  nextPc : PcRef;
  timers : gmap TimerId Timer;
  nextTimer : TimerId;
  electronAPI : list IpcCall;             (* calls made, oldest first *)
  console : list LogEntry;
  stoppedTracks : list string;
}.

Definition set_microphoneManager (f : MicrophoneManager -> MicrophoneManager) (d : Dashboard) : Dashboard :=
  {| microphoneManager := f (microphoneManager d); connections := connections d;
     heap := heap d; nextPc := nextPc d; timers := timers d; nextTimer := nextTimer d;
     electronAPI := electronAPI d; console := console d; stoppedTracks := stoppedTracks d |}.

Definition set_connections (f : gmap WindowId PcRef -> gmap WindowId PcRef) (d : Dashboard) : Dashboard :=
  {| microphoneManager := microphoneManager d; connections := f (connections d);
     heap := heap d; nextPc := nextPc d; timers := timers d; nextTimer := nextTimer d;
     electronAPI := electronAPI d; console := console d; stoppedTracks := stoppedTracks d |}.

Definition set_heap (f : gmap PcRef Connection -> gmap PcRef Connection) (d : Dashboard) : Dashboard :=
  {| microphoneManager := microphoneManager d; connections := connections d;
     heap := f (heap d); nextPc := nextPc d; timers := timers d; nextTimer := nextTimer d;
     electronAPI := electronAPI d; console := console d; stoppedTracks := stoppedTracks d |}.

Definition set_nextPc (f : PcRef -> PcRef) (d : Dashboard) : Dashboard :=
  {| microphoneManager := microphoneManager d; connections := connections d;
     heap := heap d; nextPc := f (nextPc d); timers := timers d; nextTimer := nextTimer d;
     electronAPI := electronAPI d; console := console d; stoppedTracks := stoppedTracks d |}.

Definition set_timers (f : gmap TimerId Timer -> gmap TimerId Timer) (d : Dashboard) : Dashboard :=
  {| microphoneManager := microphoneManager d; connections := connections d;
     heap := heap d; nextPc := nextPc d; timers := f (timers d); nextTimer := nextTimer d;
     electronAPI := electronAPI d; console := console d; stoppedTracks := stoppedTracks d |}.

Definition set_nextTimer (f : TimerId -> TimerId) (d : Dashboard) : Dashboard :=
  {| microphoneManager := microphoneManager d; connections := connections d;
     heap := heap d; nextPc := nextPc d; timers := timers d; nextTimer := f (nextTimer d);
     electronAPI := electronAPI d; console := console d; stoppedTracks := stoppedTracks d |}.

Definition set_electronAPI (f : list IpcCall -> list IpcCall) (d : Dashboard) : Dashboard :=
  {| microphoneManager := microphoneManager d; connections := connections d;
     heap := heap d; nextPc := nextPc d; timers := timers d; nextTimer := nextTimer d;
     electronAPI := f (electronAPI d); console := console d; stoppedTracks := stoppedTracks d |}.

Definition set_console (f : list LogEntry -> list LogEntry) (d : Dashboard) : Dashboard :=
  {| microphoneManager := microphoneManager d; connections := connections d;
     heap := heap d; nextPc := nextPc d; timers := timers d; nextTimer := nextTimer d;
     electronAPI := electronAPI d; console := f (console d); stoppedTracks := stoppedTracks d |}.

Definition set_stoppedTracks (f : list string -> list string) (d : Dashboard) : Dashboard :=
  {| microphoneManager := microphoneManager d; connections := connections d;
     heap := heap d; nextPc := nextPc d; timers := timers d; nextTimer := nextTimer d;
     electronAPI := electronAPI d; console := console d; stoppedTracks := f (stoppedTracks d) |}.

(** Field updates of the browser objects. *)
Definition with_readyState (r : ReadyState) (c : DataChannel) : DataChannel :=
  {| label := label c; ordered := ordered c; maxRetransmits := maxRetransmits c;
     readyState := r; sent := sent c |}.

Definition with_sent (p : Payload) (c : DataChannel) : DataChannel :=
  {| label := label c; ordered := ordered c; maxRetransmits := maxRetransmits c;
     readyState := readyState c; sent := sent c ++ [p] |}.

Definition with_pc (f : RTCPeerConnection -> RTCPeerConnection) (c : Connection) : Connection :=
  {| pc := f (pc c); audioChannel := audioChannel c; controlChannel := controlChannel c;
     pc_controlChannel := pc_controlChannel c; audioChannelInterval := audioChannelInterval c |}.

Definition with_audioChannel (f : DataChannel -> DataChannel) (c : Connection) : Connection :=
  {| pc := pc c; audioChannel := f (audioChannel c); controlChannel := controlChannel c;
     pc_controlChannel := pc_controlChannel c; audioChannelInterval := audioChannelInterval c |}.

Definition with_controlChannel (f : DataChannel -> DataChannel) (c : Connection) : Connection :=
  {| pc := pc c; audioChannel := audioChannel c; controlChannel := f (controlChannel c);
     pc_controlChannel := pc_controlChannel c; audioChannelInterval := audioChannelInterval c |}.

Definition with_pc_controlChannel (b : bool) (c : Connection) : Connection :=
  {| pc := pc c; audioChannel := audioChannel c; controlChannel := controlChannel c;
     pc_controlChannel := b; audioChannelInterval := audioChannelInterval c |}.

Definition with_audioChannelInterval (i : option TimerId) (c : Connection) : Connection :=
  {| pc := pc c; audioChannel := audioChannel c; controlChannel := controlChannel c;
     pc_controlChannel := pc_controlChannel c; audioChannelInterval := i |}.

(** *** Operations of the browser objects *)

(** shared/constants.js: [WEBRTC_CONFIG = { iceServers: [] }] and
    [AUDIO_CONFIG.sampleRate = 48000]. *)
Definition WEBRTC_CONFIG : list string := [].
Definition AUDIO_CONFIG_sampleRate : positive := 48000%positive.

Definition new_RTCPeerConnection (config : list string) : RTCPeerConnection :=
  {| iceServers := config; connectionState := CsNew; signalingState := SsStable;
     localDescription := None; remoteDescription := None; remoteCandidates := [] |}.

Definition createDataChannel (name : string) (ord : bool) (retransmits : option N) : DataChannel :=
  {| label := name; ordered := ord; maxRetransmits := retransmits;
     readyState := RsConnecting; sent := [] |}.

(** [setLocalDescription] and [setRemoteDescription] check the signaling
    state: an answer is accepted only against a pending offer of the other
    kind, everything else rejects with InvalidStateError. *)
Definition pc_setLocalDescription (d : SessionDescription) (p : RTCPeerConnection)
  : Completion RTCPeerConnection :=
  let next (s : SignalingState) :=
    Normal {| iceServers := iceServers p; connectionState := connectionState p;
              signalingState := s; localDescription := Some d;
              remoteDescription := remoteDescription p;
              remoteCandidates := remoteCandidates p |} in
  match signalingState p, sdpType d with
  | SsStable, SdpOffer => next SsHaveLocalOffer
  | SsHaveLocalOffer, SdpOffer => next SsHaveLocalOffer
  | SsHaveRemoteOffer, SdpAnswer => next SsStable
  | _, _ => Abrupt InvalidStateError
  end.

Definition pc_setRemoteDescription (d : SessionDescription) (p : RTCPeerConnection)
  : Completion RTCPeerConnection :=
  let next (s : SignalingState) :=
    Normal {| iceServers := iceServers p; connectionState := connectionState p;
              signalingState := s; localDescription := localDescription p;
              remoteDescription := Some d;
              remoteCandidates := remoteCandidates p |} in
  match signalingState p, sdpType d with
  | SsHaveLocalOffer, SdpAnswer => next SsStable
  | SsStable, SdpOffer => next SsHaveRemoteOffer
  | SsHaveRemoteOffer, SdpOffer => next SsHaveRemoteOffer
  | _, _ => Abrupt InvalidStateError
  end.

(** [pc.addIceCandidate(new RTCIceCandidate(c))]: the constructor throws a
    TypeError when both [sdpMid] and [sdpMLineIndex] are null, the method
    rejects on a closed connection or one without a remote description. *)
Definition pc_addIceCandidate (c : IceCandidateInit) (p : RTCPeerConnection)
  : Completion RTCPeerConnection :=
  match sdpMid c, sdpMLineIndex c with
  | None, None => Abrupt TypeError
  | _, _ =>
      match signalingState p, remoteDescription p with
      | SsClosed, _ => Abrupt InvalidStateError
      | _, None => Abrupt InvalidStateError
      | _, Some _ =>
          Normal {| iceServers := iceServers p; connectionState := connectionState p;
                    signalingState := signalingState p;
                    localDescription := localDescription p;
                    remoteDescription := remoteDescription p;
                    remoteCandidates := remoteCandidates p ++ [c] |}
      end
  end.

Definition with_connectionState (s : ConnectionState) (p : RTCPeerConnection) : RTCPeerConnection :=
  {| iceServers := iceServers p; connectionState := s; signalingState := signalingState p;
     localDescription := localDescription p; remoteDescription := remoteDescription p;
     remoteCandidates := remoteCandidates p |}.

Definition pc_close (p : RTCPeerConnection) : RTCPeerConnection :=
  {| iceServers := iceServers p; connectionState := CsClosed; signalingState := SsClosed;
     localDescription := localDescription p; remoteDescription := remoteDescription p;
     remoteCandidates := remoteCandidates p |}.

(** [pc.close()] also closes every data channel of the connection, without
    firing a connectionstatechange event. *)
Definition close (c : Connection) : Connection :=
  with_pc pc_close
    (with_audioChannel (with_readyState RsClosed)
       (with_controlChannel (with_readyState RsClosed) c)).

(** [channel.send(data)]: InvalidStateError unless the channel is open;
    [fault] is the transport's verdict on this one send (a full buffer makes
    it throw). *)
Definition dc_send (fault : option Exn) (p : Payload) (c : DataChannel) : Completion DataChannel :=
  match readyState c with
  | RsOpen =>
      match fault with
      | Some e => Abrupt e
      | None => Normal (with_sent p c)
      end
  | _ => Abrupt InvalidStateError
  end.

(** [new Uint8Array(n)], [.fill(v)] and [analyser.getByteTimeDomainData]:
    the analyser overwrites the array from the front and leaves what it has
    no sample for. *)
Definition Uint8Array (n : N) : list byte := repeat x00 (N.to_nat n).

Definition fill (a : list byte) (v : byte) : list byte := repeat v (length a).

Definition getByteTimeDomainData (a : AnalyserNode) (array : list byte) : list byte :=
  take (length array) (timeDomainData a) ++ drop (length (timeDomainData a)) array.

(** [String.prototype.startsWith] and [String.prototype.includes]. *)
Fixpoint startsWith (s sub : string) : bool :=
  match sub, s with
  | EmptyString, _ => true
  | String a sub', String b s' => Ascii.eqb a b && startsWith s' sub'
  | String _ _, EmptyString => false
  end.

Fixpoint includes (s sub : string) : bool :=
  startsWith s sub ||
  match s with
  | EmptyString => false
  | String _ s' => includes s' sub
  end.

(** ** Primitive effects of the dashboard process *)

Definition log (l : LogLevel) (m : string) : JS Dashboard unit :=
  modify (set_console (fun c => c ++ [{| level := l; message := m |}])).

Definition call (c : IpcCall) : JS Dashboard unit :=
  modify (set_electronAPI (fun l => l ++ [c])).

Definition setTimer (t : Timer) : JS Dashboard TimerId :=
  fun d => (Normal (nextTimer d), set_nextTimer S (set_timers <[nextTimer d := t]> d)).

Definition setInterval (t : TimerTask) (ms : Q) : JS Dashboard TimerId :=
  setTimer {| task := t; delay := ms; repeating := true |}.

Definition setTimeout (t : TimerTask) (ms : Q) : JS Dashboard TimerId :=
  setTimer {| task := t; delay := ms; repeating := false |}.

Definition allocate (c : Connection) : JS Dashboard PcRef :=
  fun d => (Normal (nextPc d), set_nextPc S (set_heap <[nextPc d := c]> d)).

Definition update (r : PcRef) (f : Connection -> Connection) : JS Dashboard unit :=
  modify (set_heap (alter f r)).

(** Run a browser operation on the peer connection behind [r]; a reference
    held by a closure or by the registry is never dangling, and the model
    does nothing on one. *)
Definition on_pc (r : PcRef) (op : RTCPeerConnection -> Completion RTCPeerConnection)
  : JS Dashboard unit :=
  fun d =>
    match heap d !! r with
    | None => (Normal tt, d)
    | Some c =>
        match op (pc c) with
        | Normal p => (Normal tt, set_heap <[r := with_pc (fun _ => p) c]> d)
        | Abrupt e => (Abrupt e, d)
        end
    end.

Definition audioChannel_send (r : PcRef) (fault : option Exn) (p : Payload) : JS Dashboard unit :=
  fun d =>
    match heap d !! r with
    | None => (Normal tt, d)
    | Some c =>
        match dc_send fault p (audioChannel c) with
        | Normal ch => (Normal tt, set_heap <[r := with_audioChannel (fun _ => ch) c]> d)
        | Abrupt e => (Abrupt e, d)
        end
    end.

Definition controlChannel_send (r : PcRef) (fault : option Exn) (p : Payload) : JS Dashboard unit :=
  fun d =>
    match heap d !! r with
    | None => (Normal tt, d)
    | Some c =>
        match dc_send fault p (controlChannel c) with
        | Normal ch => (Normal tt, set_heap <[r := with_controlChannel (fun _ => ch) c]> d)
        | Abrupt e => (Abrupt e, d)
        end
    end.

(** ** JSON text of a command object *)

Inductive JsonValue : Type :=
| JNull
| JBool (b : bool)
| JNumber (z : Z)
| JString (s : string)
| JArray (items : list JsonValue)
| JObject (fields : list (string * JsonValue)).

Definition dquote : ascii := ascii_of_nat 34.
Definition backslash : ascii := ascii_of_nat 92.

Definition hexDigit (n : nat) : ascii :=
  if (n <? 10)%nat then ascii_of_nat (48 + n) else ascii_of_nat (87 + n).

Definition escapeChar (c : ascii) : string :=
  let n := nat_of_ascii c in
  let esc (a : ascii) := String backslash (String a EmptyString) in
  if (n =? 34)%nat then esc dquote
  else if (n =? 92)%nat then esc backslash
  else if (n =? 8)%nat then esc "b"%char
  else if (n =? 12)%nat then esc "f"%char
  else if (n =? 10)%nat then esc "n"%char
  else if (n =? 13)%nat then esc "r"%char
  else if (n =? 9)%nat then esc "t"%char
  else if (n <? 32)%nat then
    String backslash
      (String "u" (String "0" (String "0"
         (String (hexDigit (n / 16)) (String (hexDigit (n mod 16)) EmptyString)))))
  else String c EmptyString.

Fixpoint escapeString (s : string) : string :=
  match s with
  | EmptyString => EmptyString
  | String c s' => (escapeChar c ++ escapeString s')%string
  end.

Definition quoteString (s : string) : string :=
  String dquote (escapeString s ++ String dquote EmptyString)%string.

Fixpoint join (sep : string) (l : list string) : string :=
  match l with
  | [] => EmptyString
  | [x] => x
  | x :: rest => (x ++ sep ++ join sep rest)%string
  end.

Fixpoint JSON_stringify (v : JsonValue) : string :=
  match v with
  | JNull => "null"
  | JBool true => "true"
  | JBool false => "false"
  | JNumber z => NilZero.string_of_int (Z.to_int z)
  | JString s => quoteString s
  | JArray items => ("[" ++ join "," (map JSON_stringify items) ++ "]")%string
  | JObject fields =>
      ("{" ++ join ","
         (map (fun kv => let '(k, x) := kv in
                         (quoteString k ++ ":" ++ JSON_stringify x)%string) fields)
       ++ "}")%string
  end.

(** ** renderer/services/microphoneManager.js *)

Definition constructor_MicrophoneManager : MicrophoneManager :=
  {| stream := None; audioContext := None; analyser := None; gainNode := None;
     isEnabled := false; selectedDeviceId := "default" |}.

Definition with_stream (s : option MediaStream) (m : MicrophoneManager) : MicrophoneManager :=
  {| stream := s; audioContext := audioContext m; analyser := analyser m;
     gainNode := gainNode m; isEnabled := isEnabled m;
     selectedDeviceId := selectedDeviceId m |}.

Definition with_audioContext (a : option AudioContext) (m : MicrophoneManager) : MicrophoneManager :=
  {| stream := stream m; audioContext := a; analyser := analyser m;
     gainNode := gainNode m; isEnabled := isEnabled m;
     selectedDeviceId := selectedDeviceId m |}.

Definition with_analyser (a : option AnalyserNode) (m : MicrophoneManager) : MicrophoneManager :=
  {| stream := stream m; audioContext := audioContext m; analyser := a;
     gainNode := gainNode m; isEnabled := isEnabled m;
     selectedDeviceId := selectedDeviceId m |}.

Definition with_gainNode (g : option GainNode) (m : MicrophoneManager) : MicrophoneManager :=
  {| stream := stream m; audioContext := audioContext m; analyser := analyser m;
     gainNode := g; isEnabled := isEnabled m;
     selectedDeviceId := selectedDeviceId m |}.

Definition with_isEnabled (b : bool) (m : MicrophoneManager) : MicrophoneManager :=
  {| stream := stream m; audioContext := audioContext m; analyser := analyser m;
     gainNode := gainNode m; isEnabled := b;
     selectedDeviceId := selectedDeviceId m |}.

Definition with_selectedDeviceId (s : string) (m : MicrophoneManager) : MicrophoneManager :=
  {| stream := stream m; audioContext := audioContext m; analyser := analyser m;
     gainNode := gainNode m; isEnabled := isEnabled m;
     selectedDeviceId := s |}.

(** What the media stack answers to one [start]: the outcome of
    [getUserMedia], whether a newly built [AudioContext] comes up
    suspended, and the exception, if any, with which [new AudioContext]
    throws, [audioContext.resume()] rejects and
    [audioContext.createMediaStreamSource] throws.  Each of the three is
    consulted only when [start] reaches the call. *)
Record MediaEnv : Type := {
  getUserMedia : Completion MediaStream;
  startsSuspended : bool;
  new_AudioContext : option Exn;
  resume : option Exn;
  createMediaStreamSource : option Exn;
}.

Definition await {St A} (c : Completion A) : JS St A := fun s => (c, s).

(** A browser call made for its effect: it throws (or its promise rejects
    with) the exception, if there is one. *)
Definition settle {St} (fault : option Exn) : JS St unit :=
  match fault with
  | Some e => throw e
  | None => ret tt
  end.

Definition start (deviceId : string) (env : MediaEnv) : JS Dashboard MediaStream :=
  tryCatch
    (modify (set_microphoneManager (with_selectedDeviceId deviceId)) ;;;
     s <- await (getUserMedia env) ;;
     modify (set_microphoneManager (with_stream (Some s))) ;;;
     log LogInfo "Microphone stream created:" ;;;
     d <- get ;;
     (match audioContext (microphoneManager d) with
      | Some _ => ret tt
      | None =>
          settle (new_AudioContext env) ;;;
          modify (set_microphoneManager
                    (with_audioContext
                       (Some {| sampleRate := AUDIO_CONFIG_sampleRate;
                                suspended := startsSuspended env |})))
      end) ;;;
     d <- get ;;
     (match audioContext (microphoneManager d) with
      | Some ctx =>
          if suspended ctx then
            settle (resume env) ;;;
            modify (set_microphoneManager
                      (with_audioContext
                         (Some {| sampleRate := sampleRate ctx; suspended := false |}))) ;;;
            log LogInfo "AudioContext resumed from suspended state"
          else ret tt
      | None => ret tt
      end) ;;;
     log LogInfo "AudioContext state:" ;;;
     modify (set_microphoneManager
               (with_analyser
                  (Some {| fftSize := 2048; smoothingTimeConstant := 3 # 10;
                           timeDomainData := repeat x80 2048 |}))) ;;;
     modify (set_microphoneManager (with_gainNode (Some {| gain := 5 |}))) ;;;
     settle (createMediaStreamSource env) ;;;
     log LogInfo "Connected audio graph: source -> gain -> analyser (no output)" ;;;
     _ <- setTimeout AnalyserTest 500 ;;
     modify (set_microphoneManager (with_isEnabled true)) ;;;
     log LogInfo "Microphone enabled successfully" ;;;
     ret s)
    (fun e => log LogError "Failed to start microphone:" ;;; throw e).

Definition stop : JS Dashboard unit :=
  d <- get ;;
  (match stream (microphoneManager d) with
   | Some s =>
       modify (set_stoppedTracks (fun l => l ++ trackIds s)) ;;;
       modify (set_microphoneManager (with_stream None))
   | None => ret tt
   end) ;;;
  modify (set_microphoneManager (with_isEnabled false)).

(** The audio graph delivers a new window to the analyser, if there is one. *)
Definition audioProcess (window : list byte) : JS Dashboard unit :=
  modify (set_microphoneManager (fun m =>
    match analyser m with
    | Some a =>
        with_analyser (Some {| fftSize := fftSize a;
                               smoothingTimeConstant := smoothingTimeConstant a;
                               timeDomainData := window |}) m
    | None => m
    end)).

(** ** renderer/services/webrtcController.js *)

(** [constructor(microphoneManager)]: the class declares one parameter;
    JavaScript drops whatever else a caller passes. *)
Definition constructor_WebRTCController
    (mm : MicrophoneManager) (surplus : list (WindowId -> JS Dashboard unit)) : Dashboard :=
  {| microphoneManager := mm; connections := ∅; heap := ∅; nextPc := 0%nat;
     timers := ∅; nextTimer := 0%nat; electronAPI := []; console := [];
     stoppedTracks := [] |}.

(** renderer/App.jsx: the callback handed to the controller, and the
    controller the application runs with. *)
Definition handleConnectionClosed (windowId : WindowId) : JS Dashboard unit :=
  log LogInfo "WebRTC connection closed for window, notifying main process" ;;;
  call (notifyWindowClosed windowId).

Definition webrtcController : Dashboard :=
  constructor_WebRTCController constructor_MicrophoneManager [handleConnectionClosed].

(** [typeof windowId === 'string' && windowId.includes('-')] *)
Definition isBrowserClient (windowId : WindowId) : bool :=
  match windowId with
  | StrId s => includes s "-"
  | NumId _ => false
  end.

Definition startAudioSending : JS Dashboard Q :=
  d <- get ;;
  match analyser (microphoneManager d), audioContext (microphoneManager d) with
  | Some a, Some ctx =>
      ret ((inject_Z (Z.of_N (fftSize a)) / inject_Z (Z.pos (sampleRate ctx))) * 1000)%Q
  | _, _ =>
      log LogInfo "No microphone yet, will send silence" ;;;
      ret (1000 / 60)%Q
  end.

Definition sendAnalysisData (r : PcRef) (fault : option Exn) : JS Dashboard unit :=
  d <- get ;;
  match heap d !! r with
  | None => ret tt
  | Some c =>
      match readyState (audioChannel c) with
      | RsOpen =>
          match analyser (microphoneManager d) with
          | Some a =>
              let timeData := getByteTimeDomainData a (Uint8Array (fftSize a)) in
              tryCatch (audioChannel_send r fault (Binary timeData))
                       (fun e => log LogWarn "Audio DataChannel send failed:")
          | None =>
              let silenceData := fill (Uint8Array 2048) x80 in
              tryCatch (audioChannel_send r fault (Binary silenceData))
                       (fun e => log LogWarn "Audio DataChannel send failed:")
          end
      | _ => ret tt
      end
  end.

(** [audioChannel.onopen] of the connection behind [r]. *)
Definition audioChannel_onopen (r : PcRef) (windowId : WindowId) : JS Dashboard unit :=
  log LogInfo "Audio DataChannel opened for window:" ;;;
  intervalMs <- startAudioSending ;;
  intervalId <- setInterval (SendAnalysisData r) intervalMs ;;
  update r (with_audioChannelInterval (Some intervalId)).

(** [controlChannel.onopen] *)
Definition controlChannel_onopen (r : PcRef) : JS Dashboard unit :=
  update r (with_pc_controlChannel true).

(** [pc.onicecandidate]; [event] is [event.candidate]. *)
Definition onicecandidate (windowId : WindowId) (event : option IceCandidateInit)
  : JS Dashboard unit :=
  match event with
  | Some c =>
      let candidateData :=
        {| candidate := candidate c; sdpMid := sdpMid c; sdpMLineIndex := sdpMLineIndex c |} in
      if isBrowserClient windowId
      then call (sendIceToBrowserClient windowId candidateData)
      else call (sendIceCandidate windowId candidateData "to-popup")
  | None => ret tt
  end.

(** [pc.onconnectionstatechange] of the connection behind [r]. *)
Definition onconnectionstatechange (r : PcRef) (windowId : WindowId) : JS Dashboard unit :=
  d <- get ;;
  match heap d !! r with
  | None => ret tt
  | Some c =>
      match connectionState (pc c) with
      | CsFailed | CsClosed => modify (set_connections (delete windowId))
      | _ => ret tt
      end
  end.

(** [createOffer] is the browser's answer to [pc.createOffer()]: the SDP of
    the offer, or a rejection. *)
Definition createConnection (windowId : WindowId) (createOffer : Completion string)
  : JS Dashboard PcRef :=
  tryCatch
    (r <- allocate
            {| pc := new_RTCPeerConnection WEBRTC_CONFIG;
               audioChannel := createDataChannel "audioData" false (Some 0%N);
               controlChannel := createDataChannel "control" true None;
               pc_controlChannel := false;
               audioChannelInterval := None |} ;;
     text <- await createOffer ;;
     let offer := {| sdpType := SdpOffer; sdp := text |} in
     on_pc r (pc_setLocalDescription offer) ;;;
     modify (set_connections <[windowId := r]>) ;;;
     (if isBrowserClient windowId
      then call (sendOfferToBrowserClient windowId offer)
      else call (sendOffer windowId offer)) ;;;
     ret r)
    (fun error => log LogError "Failed to create connection:" ;;; throw error).

Definition handleAnswer (windowId : WindowId) (answer : SessionDescription)
  : JS Dashboard unit :=
  d <- get ;;
  match connections d !! windowId with
  | Some r =>
      tryCatch (on_pc r (pc_setRemoteDescription answer))
               (fun error => log LogError "Failed to set remote description:")
  | None => ret tt
  end.

(** [!candidate || (!candidate.candidate && !candidate.sdpMid)] *)
Definition emptyCandidate (c : Candidate) : bool :=
  match c with
  | None => true
  | Some i => falsy (candidate i) && falsy (sdpMid i)
  end.

Definition handleIceCandidate (windowId : WindowId) (c : Candidate) : JS Dashboard unit :=
  d <- get ;;
  match connections d !! windowId with
  | None => ret tt
  | Some r =>
      if emptyCandidate c then ret tt
      else
        match pc <$> heap d !! r, c with
        | Some p, Some i =>
            match remoteDescription p with
            | None =>
                _ <- setTimeout (RetryIceCandidate windowId c) 100 ;;
                ret tt
            | Some _ =>
                tryCatch (on_pc r (pc_addIceCandidate i))
                         (fun error => log LogError "Failed to add ICE candidate:")
            end
        | _, _ => ret tt
        end
  end.

Definition closeConnection (windowId : WindowId) : JS Dashboard unit :=
  d <- get ;;
  match connections d !! windowId with
  | Some r =>
      update r close ;;;
      modify (set_connections (delete windowId))
  | None => ret tt
  end.

Definition closeAllConnections : JS Dashboard unit :=
  d <- get ;;
  modify (set_heap (fun h =>
    foldr (fun r h' => alter close r h') h (map snd (map_to_list (connections d))))) ;;;
  modify (set_connections (fun _ => ∅)).

Definition updateMicrophoneStream : JS Dashboard unit :=
  log LogInfo "Microphone stream updated - connections will start sending audio data".

Definition getConnectionStatus (windowId : WindowId) : JS Dashboard ConnectionState :=
  d <- get ;;
  match connections d !! windowId with
  | Some r =>
      match heap d !! r with
      | Some c => ret (connectionState (pc c))
      | None => ret CsDisconnected
      end
  | None => ret CsDisconnected
  end.

Definition sendControlMessage (windowId : WindowId) (message : JsonValue) (fault : option Exn)
  : JS Dashboard bool :=
  d <- get ;;
  match connections d !! windowId with
  | None => ret false
  | Some r =>
      match heap d !! r with
      | None => ret false
      | Some c =>
          if negb (pc_controlChannel c)
             || negb (bool_decide (readyState (controlChannel c) = RsOpen))
          then ret false
          else
            tryCatch
              (controlChannel_send r fault (Text (JSON_stringify message)) ;;;
               ret true)
              (fun error => log LogError "Failed to send control message:" ;;; ret false)
      end
  end.

(** ** The event loop of the dashboard *)

(** A timer comes due.  A timeout leaves the table before its callback
    runs; an interval stays until [clearInterval], whatever its callback
    does. *)
Definition runTask (t : TimerTask) (fault : option Exn) : JS Dashboard unit :=
  match t with
  | SendAnalysisData r => sendAnalysisData r fault
  | RetryIceCandidate windowId c => handleIceCandidate windowId c
  | AnalyserTest => log LogInfo "Analyser test:"
  end.

Definition fireTimer (id : TimerId) (fault : option Exn) : JS Dashboard unit :=
  d <- get ;;
  match timers d !! id with
  | None => ret tt
  | Some t =>
      (if repeating t then ret tt else modify (set_timers (delete id))) ;;;
      runTask (task t) fault
  end.

(** The browser reports that a channel of the connection behind [r] opened,
    or that the connection changed state, and runs the handler. *)
Definition audioChannelOpens (r : PcRef) (windowId : WindowId) : JS Dashboard unit :=
  update r (with_audioChannel (with_readyState RsOpen)) ;;;
  audioChannel_onopen r windowId.

Definition controlChannelOpens (r : PcRef) : JS Dashboard unit :=
  update r (with_controlChannel (with_readyState RsOpen)) ;;;
  controlChannel_onopen r.

Definition connectionStateChanges (r : PcRef) (windowId : WindowId) (s : ConnectionState)
  : JS Dashboard unit :=
  update r (with_pc (with_connectionState s)) ;;;
  onconnectionstatechange r windowId.

(** ** popup/services/webrtcReceiver.js *)

Module WebRTCReceiver.

Record t : Type := {
  peerConnection : option RTCPeerConnection;
  pendingICECandidates : list IceCandidateInit;
  answers : list SessionDescription;      (* [electronAPI.sendAnswer] calls *)
  console : list LogEntry;
}.

Definition constructor : t :=
  {| peerConnection := None; pendingICECandidates := []; answers := []; console := [] |}.

Definition set_peerConnection (p : option RTCPeerConnection) (x : t) : t :=
  {| peerConnection := p; pendingICECandidates := pendingICECandidates x;
     answers := answers x; console := console x |}.

Definition set_pending (f : list IceCandidateInit -> list IceCandidateInit) (x : t) : t :=
  {| peerConnection := peerConnection x; pendingICECandidates := f (pendingICECandidates x);
     answers := answers x; console := console x |}.

Definition set_answers (f : list SessionDescription -> list SessionDescription) (x : t) : t :=
  {| peerConnection := peerConnection x; pendingICECandidates := pendingICECandidates x;
     answers := f (answers x); console := console x |}.

Definition set_console (f : list LogEntry -> list LogEntry) (x : t) : t :=
  {| peerConnection := peerConnection x; pendingICECandidates := pendingICECandidates x;
     answers := answers x; console := f (console x) |}.

Definition log (l : LogLevel) (m : string) : JS t unit :=
  modify (set_console (fun c => c ++ [{| level := l; message := m |}])).

(** A method call on [this.peerConnection]; on null it is a TypeError. *)
Definition on_pc (op : RTCPeerConnection -> Completion RTCPeerConnection) : JS t unit :=
  fun x =>
    match peerConnection x with
    | None => (Abrupt TypeError, x)
    | Some p =>
        match op p with
        | Normal p' => (Normal tt, set_peerConnection (Some p') x)
        | Abrupt e => (Abrupt e, x)
        end
    end.

Fixpoint flush (l : list IceCandidateInit) : JS t unit :=
  match l with
  | [] => ret tt
  | c :: rest =>
      tryCatch (on_pc (pc_addIceCandidate c) ;;; log LogInfo "Added queued ICE candidate")
               (fun error => log LogError "Failed to add queued ICE candidate:") ;;;
      flush rest
  end.

(** [initialize] builds the peer connection. *)
Definition initialize : JS t unit :=
  modify (set_peerConnection (Some (new_RTCPeerConnection WEBRTC_CONFIG))).

Definition handleOffer (offer : SessionDescription) (createAnswer : Completion string)
  : JS t unit :=
  tryCatch
    (log LogInfo "Setting remote description..." ;;;
     on_pc (pc_setRemoteDescription offer) ;;;
     log LogInfo "Remote description set on receiver" ;;;
     x <- get ;;
     (match pendingICECandidates x with
      | [] => ret tt
      | _ =>
          log LogInfo "Flushing pending ICE candidates" ;;;
          flush (pendingICECandidates x) ;;;
          modify (set_pending (fun _ => []))
      end) ;;;
     log LogInfo "Creating answer..." ;;;
     text <- await createAnswer ;;
     let answer := {| sdpType := SdpAnswer; sdp := text |} in
     on_pc (pc_setLocalDescription answer) ;;;
     log LogInfo "Answer created and local description set" ;;;
     modify (set_answers (fun l => l ++ [answer])))
    (fun error => log LogError "Failed to handle offer:").

Definition handleIceCandidate (c : Candidate) : JS t unit :=
  x <- get ;;
  match peerConnection x with
  | None => log LogWarn "Peer connection not initialized, ignoring ICE candidate"
  | Some p =>
      if emptyCandidate c then log LogInfo "Ignoring empty/null ICE candidate"
      else
        match c with
        | Some i =>
            match remoteDescription p with
            | None =>
                log LogInfo "Queueing ICE candidate (remote description not set yet)" ;;;
                modify (set_pending (fun l => l ++ [i]))
            | Some _ =>
                tryCatch
                  (on_pc (pc_addIceCandidate i) ;;;
                   log LogInfo "Added ICE candidate to receiver")
                  (fun error => log LogError "Failed to add ICE candidate:")
            end
        | None => ret tt
        end
  end.

End WebRTCReceiver.

(** ** popup/popup.jsx: [SocketReceiver] *)

Module SocketReceiver.

Record t : Type := {
  peerConnection : option RTCPeerConnection;
  console : list LogEntry;
}.

Definition constructor : t := {| peerConnection := None; console := [] |}.

Definition set_peerConnection (p : option RTCPeerConnection) (x : t) : t :=
  {| peerConnection := p; console := console x |}.

Definition set_console (f : list LogEntry -> list LogEntry) (x : t) : t :=
  {| peerConnection := peerConnection x; console := f (console x) |}.

Definition log (l : LogLevel) (m : string) : JS t unit :=
  modify (set_console (fun c => c ++ [{| level := l; message := m |}])).

(** [initialize] builds the peer connection (and the signaling socket,
    which the candidate handler does not use). *)
Definition initialize : JS t unit :=
  log LogInfo "SocketReceiver initializing (Socket.IO signaling + WebRTC DataChannel)..." ;;;
  modify (set_peerConnection (Some (new_RTCPeerConnection WEBRTC_CONFIG))) ;;;
  log LogInfo "PeerConnection created (browser client)".

Definition on_pc (op : RTCPeerConnection -> Completion RTCPeerConnection) : JS t unit :=
  fun x =>
    match peerConnection x with
    | None => (Abrupt TypeError, x)
    | Some p =>
        match op p with
        | Normal p' => (Normal tt, set_peerConnection (Some p') x)
        | Abrupt e => (Abrupt e, x)
        end
    end.

Definition handleIceCandidate (c : Candidate) : JS t unit :=
  x <- get ;;
  match peerConnection x with
  | None => log LogWarn "No peer connection, ignoring ICE candidate"
  | Some p =>
      if emptyCandidate c then log LogInfo "Ignoring empty/null ICE candidate"
      else
        match c with
        | Some i =>
            tryCatch
              (on_pc (pc_addIceCandidate i) ;;;
               log LogInfo "Added ICE candidate from dashboard")
              (fun error => log LogError "Failed to add ICE candidate:")
        | None => ret tt
        end
  end.

End SocketReceiver.

(** * Events, runs and the vocabulary of the properties *)

(** What can happen to the dashboard in one turn of its event loop: a call
    of a controller or microphone method, a callback of the browser, or a
    timer that comes due.  The arguments the environment decides (the SDP of
    an offer, the verdict on a send, the answer of the media stack) travel
    with the event. *)
Inductive Event : Type :=
| CreateConnection (windowId : WindowId) (createOffer : Completion string)
| AudioChannelOpens (r : PcRef) (windowId : WindowId)
| ControlChannelOpens (r : PcRef)
| IceCandidateFound (windowId : WindowId) (event : option IceCandidateInit)
| ConnectionStateChanges (r : PcRef) (windowId : WindowId) (s : ConnectionState)
| HandleAnswer (windowId : WindowId) (answer : SessionDescription)
| HandleIceCandidate (windowId : WindowId) (c : Candidate)
| CloseConnection (windowId : WindowId)
| CloseAllConnections
| UpdateMicrophoneStream
| SendControlMessage (windowId : WindowId) (message : JsonValue) (fault : option Exn)
| FireTimer (id : TimerId) (fault : option Exn)
| Start (deviceId : string) (env : MediaEnv)
| Stop
| AudioProcess (window : list byte).

(** The caller drops the value a method returns. *)
Definition discard {St A} (m : JS St A) : JS St unit := _ <- m ;; ret tt.

Definition handle (e : Event) : JS Dashboard unit :=
  match e with
  | CreateConnection w o => discard (createConnection w o)
  | AudioChannelOpens r w => audioChannelOpens r w
  | ControlChannelOpens r => controlChannelOpens r
  | IceCandidateFound w ev => onicecandidate w ev
  | ConnectionStateChanges r w s => connectionStateChanges r w s
  | HandleAnswer w a => handleAnswer w a
  | HandleIceCandidate w c => handleIceCandidate w c
  | CloseConnection w => closeConnection w
  | CloseAllConnections => closeAllConnections
  | UpdateMicrophoneStream => updateMicrophoneStream
  | SendControlMessage w m f => discard (sendControlMessage w m f)
  | FireTimer id f => fireTimer id f
  | Start dev env => discard (start dev env)
  | Stop => stop
  | AudioProcess w => audioProcess w
  end.

(** The store after one turn; an exception that escapes the handler ends
    the turn and leaves the store as the handler left it. *)
Definition step (d : Dashboard) (e : Event) : Dashboard := snd (handle e d).

Definition run (es : list Event) (d : Dashboard) : Dashboard := fold_left step es d.

(** References are allocated from counters: every registry entry points
    into the heap, and heap and timer table stay below their counters. *)
Record wf (d : Dashboard) : Prop := {
  wf_registry : forall w r, connections d !! w = Some r -> r ∈ dom (heap d);
  wf_heap : forall r, r ∈ dom (heap d) -> (r < nextPc d)%nat;
  wf_timers : forall id, id ∈ dom (timers d) -> (id < nextTimer d)%nat;
}.

(** A computation keeps an invariant of the store, whatever it returns. *)
Definition preserves {A} (I : Dashboard -> Prop) (m : JS Dashboard A) : Prop :=
  forall d, I d -> I (snd (m d)).

(** The store is well formed and timer [id] is armed with [t]. *)
Definition armed (id : TimerId) (t : Timer) (d : Dashboard) : Prop :=
  wf d /\ timers d !! id = Some t.

(** [notifyWindowClosed] has not been called. *)
Definition unnotified (d : Dashboard) : Prop :=
  forall w, ~ In (notifyWindowClosed w) (electronAPI d).

(** The link of session [w] awaits an answer to its offer. *)
Definition negotiating (d : Dashboard) (w : WindowId) : Prop :=
  exists r c, connections d !! w = Some r /\ heap d !! r = Some c /\
              signalingState (pc c) = SsHaveLocalOffer.

(** An end-of-candidates marker as the handlers recognise it: null or
    undefined, or an object with neither a candidate line nor an sdpMid. *)
Definition endOfCandidates (c : Candidate) : Prop :=
  c = None \/
  exists i, c = Some i /\
            (candidate i = None \/ candidate i = Some EmptyString) /\
            (sdpMid i = None \/ sdpMid i = Some EmptyString).

(** A retry of [handleIceCandidate] is pending for session [w] and
    candidate [c]. *)
Definition retry (w : WindowId) (c : Candidate) : Timer :=
  {| task := RetryIceCandidate w c; delay := 100%Q; repeating := false |}.

(** The interval of the frame scheduler of the connection behind [r]. *)
Definition interval (r : PcRef) (ms : Q) : Timer :=
  {| task := SendAnalysisData r; delay := ms; repeating := true |}.


(** The one command the application sends. *)
Definition presetChange (preset : string) : JsonValue :=
  JObject [("type", JString "preset-change"); ("preset", JString preset)].

(** The session of [w] has an open control channel stored on its peer
    connection. *)
Definition controlReady (d : Dashboard) (w : WindowId) (r : PcRef) (k : Connection) : Prop :=
  connections d !! w = Some r /\ heap d !! r = Some k /\
  pc_controlChannel k = true /\ readyState (controlChannel k) = RsOpen.

(** The id is a string that has the separator in it. *)
Definition hasSeparator (w : WindowId) : Prop :=
  exists a b, w = StrId (a ++ String "-" b)%string.

(** * The components around the transport *)

(** ** renderer/services/microphoneManager.js: the other methods *)

Definition getStream : JS Dashboard (option MediaStream) :=
  d <- get ;; ret (stream (microphoneManager d)).

(** [this.gainNode.gain.value = value], if there is a gain node. *)
Definition setGain (value : Q) : JS Dashboard unit :=
  d <- get ;;
  match gainNode (microphoneManager d) with
  | Some _ =>
      modify (set_microphoneManager (with_gainNode (Some {| gain := value |}))) ;;;
      log LogInfo "Gain set to:"
  | None => ret tt
  end.

Definition toggle (env : MediaEnv) : JS Dashboard bool :=
  d <- get ;;
  if isEnabled (microphoneManager d)
  then stop ;;; ret false
  else _ <- start (selectedDeviceId (microphoneManager d)) env ;; ret true.

Definition changeDevice (deviceId : string) (env : MediaEnv) : JS Dashboard unit :=
  d <- get ;;
  let wasEnabled := isEnabled (microphoneManager d) in
  (if wasEnabled then stop else ret tt) ;;;
  modify (set_microphoneManager (with_selectedDeviceId deviceId)) ;;;
  (if wasEnabled then _ <- start deviceId env ;; ret tt else ret tt).

Record MicrophoneStatus : Type := {
  enabled : bool;
  deviceId : string;
  hasStream : bool;
}.

Definition getStatus : JS Dashboard MicrophoneStatus :=
  d <- get ;;
  ret {| enabled := isEnabled (microphoneManager d);
         deviceId := selectedDeviceId (microphoneManager d);
         hasStream := bool_decide (is_Some (stream (microphoneManager d))) |}.

(** [analyser.getByteFrequencyData] fills the array from [spectrum], the
    bins the analyser holds when it is asked. *)
Definition getByteFrequencyData (spectrum : list byte) (array : list byte) : list byte :=
  take (length array) spectrum ++ drop (length spectrum) array.

Definition frequencyBinCount (a : AnalyserNode) : N := (fftSize a / 2)%N.

(** [dataArray.reduce((a, b) => a + b, 0)] *)
Definition sumBytes (l : list byte) : Z :=
  fold_left (fun a b => a + Z.of_N (Byte.to_N b)) l 0.

(** The array has 1024 bins on every analyser that [start] installs.  On
    an empty array JavaScript's [0 / 0] is NaN, where [Q] has 0. *)
Definition getAudioLevel (spectrum : list byte) : JS Dashboard Q :=
  d <- get ;;
  match analyser (microphoneManager d) with
  | None => ret 0%Q
  | Some a =>
      let dataArray := getByteFrequencyData spectrum (Uint8Array (frequencyBinCount a)) in
      let sum := sumBytes dataArray in
      let average := (inject_Z sum / inject_Z (Z.of_nat (length dataArray)))%Q in
      ret (average / 255)%Q
  end.

(** What the dashboard's components do to the microphone, besides the
    events of the controller. *)
Inductive Action : Type :=
| OfDashboard (e : Event)
| Toggle (env : MediaEnv)
| ChangeDevice (deviceId : string) (env : MediaEnv)
| SetGain (value : Q).

Definition act (d : Dashboard) (a : Action) : Dashboard :=
  match a with
  | OfDashboard e => step d e
  | Toggle env => snd (toggle env d)
  | ChangeDevice dev env => snd (changeDevice dev env d)
  | SetGain v => snd (setGain v d)
  end.

Definition perform (l : list Action) (d : Dashboard) : Dashboard := fold_left act l d.

(** ** renderer/services/visualizationController.js

    Strings are sequences of 8-bit code units here; the character tests of
    the regular expression are those of the code units below 256. *)

Module VisualizationController.

Record Preset : Type := {
  name : string;
  displayName : string;
  author : string;
  category : string;
  thumbnailPath : string;
}.

Record t : Type := {
  webrtcController : bool;                 (* the controller was handed in, not null *)
  presets : list Preset;
  presetNames : list string;
  currentPresets : gmap WindowId string;   (* windowId -> presetName *)
  disabledPresets : list string;
  initialized : bool;
}.

Definition constructor (webrtcController : bool) : t :=
  {| webrtcController := webrtcController; presets := []; presetNames := [];
     currentPresets := ∅; disabledPresets := []; initialized := false |}.

Definition set_currentPresets (f : gmap WindowId string -> gmap WindowId string) (x : t) : t :=
  {| webrtcController := webrtcController x; presets := presets x;
     presetNames := presetNames x; currentPresets := f (currentPresets x);
     disabledPresets := disabledPresets x; initialized := initialized x |}.

Definition set_disabledPresets (l : list string) (x : t) : t :=
  {| webrtcController := webrtcController x; presets := presets x;
     presetNames := presetNames x; currentPresets := currentPresets x;
     disabledPresets := l; initialized := initialized x |}.

(** [\s] on code units below 256: tab, line feed, vertical tab, form feed,
    carriage return, space, no-break space. *)
Definition whiteSpace (c : ascii) : bool :=
  let n := nat_of_ascii c in
  ((9 <=? n) && (n <=? 13) || (n =? 32) || (n =? 160))%nat.

(** The complement of the class [[^a-zA-Z0-9-_\s]]. *)
Definition allowed (c : ascii) : bool :=
  let n := nat_of_ascii c in
  ((97 <=? n) && (n <=? 122) || (65 <=? n) && (n <=? 90) || (48 <=? n) && (n <=? 57)
   || (n =? 45) || (n =? 95))%nat
  || whiteSpace c.

(** [s.replace(/[^a-zA-Z0-9-_\s]/g, '_')] *)
Fixpoint replace (s : string) : string :=
  match s with
  | EmptyString => EmptyString
  | String c s' => String (if allowed c then c else "_"%char) (replace s')
  end.

Definition sanitizeFilename (name : string) : string := (replace name ++ ".png")%string.

(** [array.includes(s)] on an array of strings. *)
Definition includes (l : list string) (s : string) : bool := existsb (String.eqb s) l.

(** [array.findIndex(f)]: the first index, or -1. *)
Fixpoint findIndex_from {A} (i : Z) (f : A -> bool) (l : list A) : Z :=
  match l with
  | [] => -1
  | a :: l' => if f a then i else findIndex_from (i + 1) f l'
  end.

Definition findIndex {A} (f : A -> bool) (l : list A) : Z := findIndex_from 0 f l.

(** [array[i]] for an integer [i]: undefined outside the array. *)
Definition item {A} (l : list A) (i : Z) : option A :=
  if (i <? 0)%Z then None else l !! Z.to_nat i.

Definition getPresetsByCategory (c : string) (x : t) : list Preset :=
  if String.eqb c "all" then presets x
  else List.filter (fun preset => String.eqb (category preset) c) (presets x).

(** [this.presets.filter((preset) => !this.disabledPresets.includes(preset.name))] *)
Definition enabledPresets (x : t) : list Preset :=
  List.filter (fun preset => negb (includes (disabledPresets x) (name preset))) (presets x).

Definition getCurrentPreset (windowId : WindowId) (x : t) : option string :=
  currentPresets x !! windowId.

(** [random] is the value of [Math.random()]. *)
Definition getRandomPreset (random : Q) (x : t) : option Preset :=
  let enabledPresets := enabledPresets x in
  if (length enabledPresets =? 0)%nat
  then item (presets x) (Qfloor (random * inject_Z (Z.of_nat (length (presets x)))))
  else
    let randomIndex := Qfloor (random * inject_Z (Z.of_nat (length enabledPresets))) in
    item enabledPresets randomIndex.

(** [p.name === currentPreset], where [currentPreset] may be undefined. *)
Definition isCurrent (currentPreset : option string) (p : Preset) : bool :=
  match currentPreset with
  | Some n => String.eqb (name p) n
  | None => false
  end.

(** JavaScript's [%] takes the sign of the dividend, as [Z.rem] does. *)
Definition getNextPreset (windowId : WindowId) (x : t) : option Preset :=
  let currentPreset := getCurrentPreset windowId x in
  let enabledPresets := enabledPresets x in
  if (length enabledPresets =? 0)%nat then item (presets x) 0
  else
    let currentIndex := findIndex (isCurrent currentPreset) enabledPresets in
    let nextIndex := Z.rem (currentIndex + 1) (Z.of_nat (length enabledPresets)) in
    item enabledPresets nextIndex.

Definition getPreviousPreset (windowId : WindowId) (x : t) : option Preset :=
  let currentPreset := getCurrentPreset windowId x in
  let enabledPresets := enabledPresets x in
  if (length enabledPresets =? 0)%nat then item (presets x) 0
  else
    let currentIndex := findIndex (isCurrent currentPreset) enabledPresets in
    let prevIndex :=
      Z.rem (currentIndex - 1 + Z.of_nat (length enabledPresets))
            (Z.of_nat (length enabledPresets)) in
    item enabledPresets prevIndex.

Definition isPresetDisabled (presetName : string) (x : t) : bool :=
  includes (disabledPresets x) presetName.

Definition trackWindowPreset (windowId : WindowId) (presetName : string) (x : t) : t :=
  set_currentPresets <[windowId := presetName]> x.

Definition removeWindow (windowId : WindowId) (x : t) : t :=
  set_currentPresets (delete windowId) x.

Definition getAllPresets (x : t) : list Preset := presets x.

(** [getCategories]: a Map in insertion order, category -> presets. *)
Fixpoint push (c : string) (p : Preset) (m : list (string * list Preset))
  : list (string * list Preset) :=
  match m with
  | [] => [(c, [p])]
  | (c', l) :: m' => if String.eqb c' c then (c', l ++ [p]) :: m' else (c', l) :: push c p m'
  end.

Definition getCategories (x : t) : list (string * list Preset) :=
  fold_left (fun categories preset => push (category preset) preset categories) (presets x) [].

(** The calls on [window.electronAPI] that the controller makes. *)
Inductive Invoke : Type :=
| setPreset (windowId : WindowId) (presetName : string)
| setAllPresets (presetName : string)
| settingsTogglePreset (presetName : string).

(** The renderer process as far as the controller reaches: itself, the
    WebRTC controller it shares with the rest of the application, and the
    calls it has made. *)
Record Store : Type := {
  this : t;
  controller : Dashboard;
  electronAPI : list Invoke;
}.

Definition set_this (f : t -> t) (s : Store) : Store :=
  {| this := f (this s); controller := controller s; electronAPI := electronAPI s |}.

Definition set_controller (d : Dashboard) (s : Store) : Store :=
  {| this := this s; controller := d; electronAPI := electronAPI s |}.

Definition invoke (c : Invoke) : JS Store unit :=
  modify (fun s => {| this := this s; controller := controller s;
                      electronAPI := electronAPI s ++ [c] |}).

(** A method of the shared controller, or a line on the console of the
    renderer. *)
Definition on_controller {A} (m : JS Dashboard A) : JS Store A :=
  fun s => let (r, d) := m (controller s) in (r, set_controller d s).

(** [ipc] is the outcome of the call on [electronAPI], [fault] the
    transport's verdict on the control message. *)
Definition setWindowPreset (windowId : WindowId) (presetName : string)
    (ipc : Completion unit) (fault : option Exn) : JS Store unit :=
  tryCatch
    (modify (set_this (set_currentPresets <[windowId := presetName]>)) ;;;
     invoke (setPreset windowId presetName) ;;;
     await ipc ;;;
     s <- get ;;
     if webrtcController (this s)
     then discard (on_controller (sendControlMessage windowId (presetChange presetName) fault))
     else ret tt)
    (fun error => on_controller (log LogError "Failed to set preset:")).

Definition setAllWindowsPreset (presetName : string) (ipc : Completion unit) : JS Store unit :=
  tryCatch
    (invoke (setAllPresets presetName) ;;;
     await ipc ;;;
     modify (set_this (set_currentPresets (fmap (fun _ => presetName)))))
    (fun error => on_controller (log LogError "Failed to set all presets:")).

(** [result] is what the main process answers: the new list. *)
Definition togglePresetEnabled (presetName : string) (result : Completion (list string))
  : JS Store bool :=
  invoke (settingsTogglePreset presetName) ;;;
  disabled <- await result ;;
  modify (set_this (set_disabledPresets disabled)) ;;;
  ret (negb (includes disabled presetName)).

End VisualizationController.

(** ** popup/popup.jsx: [SocketReceiver.generateUUID] *)

(** [v.toString(16)] *)
Definition toString16 (v : Z) : string :=
  HexadecimalString.NilZero.string_of_int (Z.to_hex_int v).

(** The callback of the replacement; [random] is the value of
    [Math.random()], a number from 0 up to but not including 1. *)
Definition replacement (c : ascii) (random : Q) : string :=
  let r := Qfloor (random * 16) in
  let v := if Ascii.eqb c "x" then r else Z.lor (Z.land r 3) 8 in
  toString16 v.

(** [template.replace(/[xy]/g, ...)]: the callback runs once for each
    match, from left to right; [random i] is the [i]-th draw. *)
Fixpoint replace_xy (template : string) (i : nat) (random : nat -> Q) : string :=
  match template with
  | EmptyString => EmptyString
  | String c rest =>
      if Ascii.eqb c "x" || Ascii.eqb c "y"
      then (replacement c (random i) ++ replace_xy rest (S i) random)%string
      else String c (replace_xy rest i random)
  end.

(** [native] is [crypto.randomUUID()] where the browser has it. *)
Definition generateUUID (native : option string) (random : nat -> Q) : string :=
  match native with
  | Some uuid => uuid
  | None => replace_xy "xxxxxxxx-xxxx-4xxx-yxxx-xxxxxxxxxxxx" 0 random
  end.

(** ** main/expressServer.js: the Socket.IO side *)

Module ExpressServer.

(** A connected socket, by identity. *)
Definition Socket : Type := nat.

(** What the server sends to one socket or to all of them. *)
Inductive Message : Type :=
| status_update (status : JsonValue)
| webrtc_offer (offer : SessionDescription)
| webrtc_ice_candidate (candidate : IceCandidateInit)
| window_created (windowId : WindowId)
| window_closed (windowId : WindowId)
| preset_changed (windowId : WindowId) (preset : string).

(** The argument of [this.emit(event, data)]. *)
Inductive Data : Type :=
| undefined
| ofClient (clientId : string)
| ofAnswer (clientId : string) (answer : SessionDescription)
| ofCandidate (clientId : string) (candidate : Candidate)
| ofWindow (windowId : WindowId)
| ofPreset (preset : string)
| ofWindowPreset (windowId : WindowId) (preset : string)
| ofClientPreset (clientId : string) (preset : string)
| ofFlag (enabled : bool).

Record t : Type := {
  audioDataClients : list (string * Socket);   (* clientId -> socket, in insertion order *)
  emitted : list (string * Data);              (* events handed to the registered handlers *)
  sent : list (Socket * Message);              (* [socket.emit] *)
  broadcast : list Message;                    (* [this.io.emit] *)
  console : list LogEntry;
}.

Definition constructor : t :=
  {| audioDataClients := []; emitted := []; sent := []; broadcast := []; console := [] |}.

Definition set_audioDataClients (f : list (string * Socket) -> list (string * Socket)) (x : t) : t :=
  {| audioDataClients := f (audioDataClients x); emitted := emitted x; sent := sent x;
     broadcast := broadcast x; console := console x |}.

Definition log (l : LogLevel) (m : string) (x : t) : t :=
  {| audioDataClients := audioDataClients x; emitted := emitted x; sent := sent x;
     broadcast := broadcast x; console := console x ++ [{| level := l; message := m |}] |}.

(** [this.emit(event, data)]: the handler that main.js registered for the
    event runs in the main process. *)
Definition emit (event : string) (data : Data) (x : t) : t :=
  {| audioDataClients := audioDataClients x; emitted := emitted x ++ [(event, data)];
     sent := sent x; broadcast := broadcast x; console := console x |}.

Definition socket_emit (socket : Socket) (m : Message) (x : t) : t :=
  {| audioDataClients := audioDataClients x; emitted := emitted x;
     sent := sent x ++ [(socket, m)]; broadcast := broadcast x; console := console x |}.

Definition io_emit (m : Message) (x : t) : t :=
  {| audioDataClients := audioDataClients x; emitted := emitted x; sent := sent x;
     broadcast := broadcast x ++ [m]; console := console x |}.

(** [Map.prototype.set], [get] and [delete] on a map in insertion order. *)
Fixpoint Map_set (k : string) (v : Socket) (m : list (string * Socket)) : list (string * Socket) :=
  match m with
  | [] => [(k, v)]
  | (k', v') :: m' => if String.eqb k' k then (k', v) :: m' else (k', v') :: Map_set k v m'
  end.

Fixpoint Map_get (k : string) (m : list (string * Socket)) : option Socket :=
  match m with
  | [] => None
  | (k', v) :: m' => if String.eqb k' k then Some v else Map_get k m'
  end.

Fixpoint Map_delete (k : string) (m : list (string * Socket)) : list (string * Socket) :=
  match m with
  | [] => []
  | (k', v) :: m' => if String.eqb k' k then m' else (k', v) :: Map_delete k m'
  end.

(** The handlers that [setupSocketIO] installs on a socket. *)
Definition connection (socket : Socket) (status : JsonValue) (x : t) : t :=
  socket_emit socket (status_update status)
    (emit "get-status" undefined (log LogInfo "Client connected:" x)).

Definition visualization_ready (socket : Socket) (clientId : string) (x : t) : t :=
  emit "browser-client:ready" (ofClient clientId)
    (set_audioDataClients (Map_set clientId socket)
       (log LogInfo "Browser visualization client ready:" x)).

Definition webrtc_answer (clientId : string) (answer : SessionDescription) (x : t) : t :=
  emit "browser-client:answer" (ofAnswer clientId answer)
    (log LogInfo "WebRTC answer from browser client" x).

Definition webrtc_ice_candidate_from (clientId : string) (candidate : Candidate) (x : t) : t :=
  emit "browser-client:ice" (ofCandidate clientId candidate)
    (log LogInfo "ICE candidate from browser client" x).

Definition preset_loaded (clientId : string) (preset : string) (x : t) : t :=
  emit "browser-client:preset-loaded" (ofClientPreset clientId preset)
    (log LogInfo "Browser client loaded preset:" x).

(** The loop of the disconnect handler: the first entry of the socket is
    deleted and announced, to the main process and to the sockets, then
    [break]. *)
Definition disconnect (socket : Socket) (x : t) : t :=
  let x := log LogInfo "Client disconnected:" x in
  match find (fun e => Nat.eqb (snd e) socket) (audioDataClients x) with
  | Some (clientId, _) =>
      io_emit (window_closed (StrId clientId))
        (emit "browser-client:closed" (ofClient clientId)
           (log LogInfo "Visualization client left:"
              (set_audioDataClients (Map_delete clientId) x)))
  | None => x
  end.

Definition sendOfferToBrowserClient (clientId : string) (offer : SessionDescription) (x : t) : t :=
  match Map_get clientId (audioDataClients x) with
  | Some socket =>
      log LogInfo "Sent WebRTC offer to browser client"
        (socket_emit socket (webrtc_offer offer) x)
  | None => log LogError "Browser client not found" x
  end.

Definition sendIceCandidateToBrowserClient (clientId : string) (candidate : IceCandidateInit)
    (x : t) : t :=
  match Map_get clientId (audioDataClients x) with
  | Some socket => socket_emit socket (webrtc_ice_candidate candidate) x
  | None => x
  end.

Definition getBrowserClientIds (x : t) : list string := map fst (audioDataClients x).

(** What reaches the server: an event of a socket, or a call of the main
    process. *)
Inductive Event : Type :=
| Connection (socket : Socket) (status : JsonValue)
| VisualizationReady (socket : Socket) (clientId : string)
| WebrtcAnswer (socket : Socket) (clientId : string) (answer : SessionDescription)
| WebrtcIceCandidate (socket : Socket) (clientId : string) (candidate : Candidate)
| WindowCreate (socket : Socket)
| WindowClose (socket : Socket) (windowId : WindowId)
| PresetSet (socket : Socket) (windowId : WindowId) (preset : string)
| PresetSetAll (socket : Socket) (preset : string)
| MicrophoneToggle (socket : Socket) (enabled : bool)
| PresetLoaded (socket : Socket) (clientId : string) (preset : string)
| Disconnect (socket : Socket)
| SendOfferToBrowserClient (clientId : string) (offer : SessionDescription)
| SendIceCandidateToBrowserClient (clientId : string) (candidate : IceCandidateInit)
| BroadcastStatus (status : JsonValue)
| BroadcastWindowCreated (windowId : WindowId)
| BroadcastWindowClosed (windowId : WindowId)
| BroadcastPresetChanged (windowId : WindowId) (preset : string).

Definition step (x : t) (e : Event) : t :=
  match e with
  | Connection socket status => connection socket status x
  | VisualizationReady socket clientId => visualization_ready socket clientId x
  | WebrtcAnswer _ clientId answer => webrtc_answer clientId answer x
  | WebrtcIceCandidate _ clientId candidate => webrtc_ice_candidate_from clientId candidate x
  | WindowCreate _ => emit "window:create-requested" undefined x
  | WindowClose _ windowId => emit "window:close-requested" (ofWindow windowId) x
  | PresetSet _ windowId preset => emit "preset:set-requested" (ofWindowPreset windowId preset) x
  | PresetSetAll _ preset => emit "preset:set-all-requested" (ofPreset preset) x
  | MicrophoneToggle _ enabled => emit "microphone:toggle" (ofFlag enabled) x
  | PresetLoaded _ clientId preset => preset_loaded clientId preset x
  | Disconnect socket => disconnect socket x
  | SendOfferToBrowserClient clientId offer => sendOfferToBrowserClient clientId offer x
  | SendIceCandidateToBrowserClient clientId candidate =>
      sendIceCandidateToBrowserClient clientId candidate x
  | BroadcastStatus status => io_emit (status_update status) x
  | BroadcastWindowCreated windowId => io_emit (window_created windowId) x
  | BroadcastWindowClosed windowId => io_emit (window_closed windowId) x
  | BroadcastPresetChanged windowId preset => io_emit (preset_changed windowId preset) x
  end.

Definition run (es : list Event) (x : t) : t := fold_left step es x.

End ExpressServer.

(** ** main/settingsManager.js

    The two files of the manager are part of its store.  A file is absent,
    holds text that [JSON.parse] rejects, or holds the JSON text of null
    or of an object; the timeouts the manager arms are kept by id. *)

Module SettingsManager.

Definition Settings : Type := gmap string JsonValue.

Inductive File : Type :=
| Missing
| Corrupt
| Stored (value : option Settings).

Inductive Error : Type :=
| NotLoaded          (* Error('Settings not loaded. Call load() first.') *)
| NotAnArray         (* TypeError: the stored value has no such method *)
| WriteFailed.       (* the rejection of fs.writeFile *)

Inductive Result (A : Type) : Type :=
| Return (a : A)
| Throw (e : Error).

Arguments Return {A} a.
Arguments Throw {A} e.

Record t : Type := {
  settings : option Settings;      (* null until loaded *)
  saveTimeout : option nat;
  isDirty : bool;
  settingsFile : File;             (* at [settingsPath] *)
  backupFile : File;               (* at [settingsPath + '.backup'] *)
  timeouts : list nat;             (* the timeouts that are armed *)
  nextTimeout : nat;
  console : list LogEntry;
}.

Definition constructor (settingsFile backupFile : File) : t :=
  {| settings := None; saveTimeout := None; isDirty := false;
     settingsFile := settingsFile; backupFile := backupFile;
     timeouts := []; nextTimeout := 0%nat; console := [] |}.

Definition set_settings (s : option Settings) (x : t) : t :=
  {| settings := s; saveTimeout := saveTimeout x; isDirty := isDirty x;
     settingsFile := settingsFile x; backupFile := backupFile x;
     timeouts := timeouts x; nextTimeout := nextTimeout x; console := console x |}.

Definition set_saveTimeout (i : option nat) (x : t) : t :=
  {| settings := settings x; saveTimeout := i; isDirty := isDirty x;
     settingsFile := settingsFile x; backupFile := backupFile x;
     timeouts := timeouts x; nextTimeout := nextTimeout x; console := console x |}.

Definition set_isDirty (b : bool) (x : t) : t :=
  {| settings := settings x; saveTimeout := saveTimeout x; isDirty := b;
     settingsFile := settingsFile x; backupFile := backupFile x;
     timeouts := timeouts x; nextTimeout := nextTimeout x; console := console x |}.

Definition set_settingsFile (f : File) (x : t) : t :=
  {| settings := settings x; saveTimeout := saveTimeout x; isDirty := isDirty x;
     settingsFile := f; backupFile := backupFile x;
     timeouts := timeouts x; nextTimeout := nextTimeout x; console := console x |}.

Definition set_backupFile (f : File) (x : t) : t :=
  {| settings := settings x; saveTimeout := saveTimeout x; isDirty := isDirty x;
     settingsFile := settingsFile x; backupFile := f;
     timeouts := timeouts x; nextTimeout := nextTimeout x; console := console x |}.

Definition log (l : LogLevel) (m : string) (x : t) : t :=
  {| settings := settings x; saveTimeout := saveTimeout x; isDirty := isDirty x;
     settingsFile := settingsFile x; backupFile := backupFile x;
     timeouts := timeouts x; nextTimeout := nextTimeout x;
     console := console x ++ [{| level := l; message := m |}] |}.

Definition clearTimeout (i : nat) (x : t) : t :=
  {| settings := settings x; saveTimeout := saveTimeout x; isDirty := isDirty x;
     settingsFile := settingsFile x; backupFile := backupFile x;
     timeouts := List.filter (fun j => negb (Nat.eqb j i)) (timeouts x);
     nextTimeout := nextTimeout x; console := console x |}.

Definition setTimeout (x : t) : nat * t :=
  (nextTimeout x,
   {| settings := settings x; saveTimeout := saveTimeout x; isDirty := isDirty x;
      settingsFile := settingsFile x; backupFile := backupFile x;
      timeouts := timeouts x ++ [nextTimeout x];
      nextTimeout := S (nextTimeout x); console := console x |}).

(** What the file system answers to one [save]: whether [copyFile] fails
    for another reason than a missing source, and whether [writeFile]
    rejects. *)
Record Disk : Type := {
  copyFails : bool;
  writeFails : bool;
}.

Definition save (disk : Disk) (x : t) : Result unit * t :=
  if negb (isDirty x) then (Return tt, x)
  else
    let x :=
      match settingsFile x with
      | Missing => x                                  (* ENOENT: that's okay *)
      | source =>
          if copyFails disk then log LogWarn "Could not create settings backup:" x
          else set_backupFile source x
      end in
    if writeFails disk
    then (Throw WriteFailed, log LogError "Failed to save settings:" x)
    else (Return tt,
          log LogInfo "Settings saved"
            (set_isDirty false (set_settingsFile (Stored (settings x)) x))).

Definition defaults : Settings :=
  {[ "microphoneDeviceId" := JString "default";
     "microphoneGain" := JNumber 5;
     "disabledPresets" := JArray [] ]}.

Definition load (disk : Disk) (x : t) : option Settings * t :=
  match settingsFile x with
  | Stored value =>
      let x := log LogInfo "Settings loaded:" (set_settings value x) in
      (settings x, x)
  | _ =>
      let useDefaults (x : t) :=
        let x := log LogInfo "Using default settings" (set_settings (Some defaults) x) in
        (settings x, x) in
      match backupFile x with
      | Stored value =>
          let x := log LogInfo "Settings restored from backup" (set_settings value x) in
          match save disk x with
          | (Return _, x) => (settings x, x)
          | (Throw _, x) => useDefaults x
          end
      | _ => useDefaults x
      end
  end.

Definition get (key : string) (defaultValue : JsonValue) (x : t) : Result JsonValue :=
  match settings x with
  | None => Throw NotLoaded
  | Some s =>
      match s !! key with
      | Some value => Return value
      | None => Return defaultValue
      end
  end.

Definition set (key : string) (value : JsonValue) (x : t) : Result unit * t :=
  match settings x with
  | None => (Throw NotLoaded, x)
  | Some s =>
      let x := set_isDirty true (set_settings (Some (<[key := value]> s)) x) in
      let x := match saveTimeout x with
               | Some i => clearTimeout i x
               | None => x
               end in
      let (i, x) := setTimeout x in
      (Return tt, set_saveTimeout (Some i) x)
  end.

(** The timeout [i] comes due: the callback of [set] calls [save] and
    drops its promise. *)
Definition fire (i : nat) (disk : Disk) (x : t) : t :=
  if existsb (Nat.eqb i) (timeouts x) then snd (save disk (clearTimeout i x)) else x.

Definition saveNow (disk : Disk) (x : t) : Result unit * t :=
  let x := match saveTimeout x with
           | Some i => set_saveTimeout None (clearTimeout i x)
           | None => x
           end in
  if isDirty x then save disk x else (Return tt, x).

(** [disabled.indexOf(presetName)], as a position. *)
Fixpoint indexOf (l : list JsonValue) (s : string) : option nat :=
  match l with
  | [] => None
  | JString s' :: l' => if String.eqb s' s then Some 0%nat else S <$> indexOf l' s
  | _ :: l' => S <$> indexOf l' s
  end.

(** [disabled.splice(index, 1)] *)
Definition splice1 (index : nat) (l : list JsonValue) : list JsonValue :=
  take index l ++ drop (S index) l.

Definition getDisabledPresets (x : t) : Result JsonValue := get "disabledPresets" (JArray []) x.

Definition setDisabledPresets (presets : JsonValue) (x : t) : Result unit * t :=
  set "disabledPresets" presets x.

Definition togglePresetEnabled (presetName : string) (x : t) : Result (list JsonValue) * t :=
  match getDisabledPresets x with
  | Throw e => (Throw e, x)
  | Return (JArray disabled) =>
      let disabled :=
        match indexOf disabled presetName with
        | None => disabled ++ [JString presetName]
        | Some index => splice1 index disabled
        end in
      match setDisabledPresets (JArray disabled) x with
      | (Return _, x) => (Return disabled, x)
      | (Throw e, x) => (Throw e, x)
      end
  | Return _ => (Throw NotAnArray, x)
  end.

Definition isPresetDisabled (presetName : string) (x : t) : Result bool :=
  match getDisabledPresets x with
  | Throw e => Throw e
  | Return (JArray disabled) =>
      Return (bool_decide (is_Some (indexOf disabled presetName)))
  | Return (JString text) => Return (includes text presetName)
  | Return _ => Throw NotAnArray
  end.

End SettingsManager.

(** ** popup/services/butterchurnRenderer.js: the audio side *)

Module ButterchurnRenderer.

Record t : Type := {
  latestTimeData : option (list byte);   (* null until the first frame *)
  messageCount : N;
  console : list LogEntry;
}.

Definition constructor : t :=
  {| latestTimeData := None; messageCount := 0; console := [] |}.

(** [dataChannel.onmessage] for a binary message. *)
Definition onmessage (data : list byte) (x : t) : t :=
  let timeData := data in
  let messageCount := (messageCount x + 1)%N in
  {| latestTimeData := Some timeData;
     messageCount := messageCount;
     console :=
       if (messageCount =? 1)%N || (messageCount mod 25 =? 0)%N
       then console x ++ [{| level := LogInfo; message := "DataChannel message (binary)" |}]
       else console x |}.

(** [TypedArray.prototype.set(source)] at offset 0; the source is never
    longer than the array here. *)
Definition array_set (source array : list byte) : list byte :=
  source ++ drop (length source) array.

(** The replacement that [patchAnalyser] installs for
    [analyser.getByteTimeDomainData]; [originalTime] is the method it
    replaces. *)
Definition getByteTimeDomainData (originalTime : list byte -> list byte) (x : t)
    (array : list byte) : list byte :=
  match latestTimeData x with
  | Some latest =>
      let copyLength := Nat.min (length array) (length latest) in
      array_set (take copyLength latest) array
  | None => originalTime array
  end.

End ButterchurnRenderer.

(** ** Vocabulary of the further properties *)

(** A burst of [set] calls, one after the other. *)
Definition sets (kvs : list (string * JsonValue)) (x : SettingsManager.t) : SettingsManager.t :=
  fold_left (fun x kv => snd (SettingsManager.set (fst kv) (snd kv) x)) kvs x.

(** The list of disabled presets that the settings hold. *)
Definition disabledList (x : SettingsManager.t) : list JsonValue :=
  match SettingsManager.settings x with
  | Some s => match s !! "disabledPresets" with
              | Some (JArray l) => l
              | _ => []
              end
  | None => []
  end.


(** [r] is a preset of the controller that is not disabled. *)
Definition enabledPreset (x : VisualizationController.t)
    (r : option VisualizationController.Preset) : Prop :=
  exists p, r = Some p /\ In p (VisualizationController.presets x) /\
            VisualizationController.isPresetDisabled (VisualizationController.name p) x = false.

(** [categories.get(c)] on the map that [getCategories] returns. *)
Definition bucket (c : string) (m : list (string * list VisualizationController.Preset))
  : option (list VisualizationController.Preset) :=
  snd <$> find (fun e => String.eqb (fst e) c) m.


(** The candidates a receiver does not take for markers, in arrival order. *)
Definition kept (cs : list Candidate) : list IceCandidateInit :=
  omap (fun c => if emptyCandidate c then None else c) cs.

(** [new RTCIceCandidate(c)] accepts [c]: it has an sdpMid or an
    sdpMLineIndex. *)
Definition wellFormed (c : IceCandidateInit) : bool :=
  match sdpMid c, sdpMLineIndex c with
  | None, None => false
  | _, _ => true
  end.

(** The Electron receiver is handed the candidates [cs], one after the
    other. *)
Definition receive (cs : list Candidate) (x : WebRTCReceiver.t) : WebRTCReceiver.t :=
  fold_left (fun x c => snd (WebRTCReceiver.handleIceCandidate c x)) cs x.


(** An audio frame of the wire format: 2048 bytes. *)
Definition frame (p : Payload) : Prop :=
  exists bytes, p = Binary bytes /\ length bytes = 2048%nat.

(** The JSON text of some command object. *)
Definition command (p : Payload) : Prop :=
  exists m, p = Text (JSON_stringify m).

(** Every analyser has 2048 samples, audio channels have carried frames
    only, control channels commands only. *)
Definition wire (d : Dashboard) : Prop :=
  (forall a, analyser (microphoneManager d) = Some a -> fftSize a = 2048%N) /\
  (forall r k, heap d !! r = Some k ->
     Forall frame (sent (audioChannel k)) /\ Forall command (sent (controlChannel k))).

(** An enabled microphone holds a stream. *)
Definition consistent (m : MicrophoneManager) : Prop :=
  isEnabled m = true -> is_Some (stream m).

(** Of the audio graph: analyser and gain node are both there or both
    missing, an analyser has its audio context, and it has the window of
    2048 samples. *)
Record sound (m : MicrophoneManager) : Prop := {
  sound_status : consistent m;
  sound_gain : is_Some (analyser m) <-> is_Some (gainNode m);
  sound_context : is_Some (analyser m) -> is_Some (audioContext m);
  sound_fftSize : forall a, analyser m = Some a -> fftSize a = 2048%N;
}.

(** The microphone manager of the dashboard is [m]. *)
Definition microphoneIs (m : MicrophoneManager) (d : Dashboard) : Prop :=
  microphoneManager d = m.

(** The events that are calls or callbacks of the controller, not of the
    microphone manager or its audio graph. *)
Definition ofController (e : Event) : bool :=
  match e with
  | Start _ _ | Stop | AudioProcess _ => false
  | _ => true
  end.

(** * Properties *)

Ltac js_unfold :=
  unfold bind, ret, throw, get, modify, tryCatch, await, settle, log, call,
    setInterval, setTimeout, setTimer, allocate, update.

Ltac js := js_unfold; cbn.

(** ** String search *)

Lemma startsWith_dash (s : string) :
  startsWith s "-" = true <-> exists b, s = String "-" b.
Proof.
  destruct s as [|c s]; cbn [startsWith].
  - split; [discriminate | intros [b Hb]; discriminate].
  - destruct (Ascii.eqb_spec "-" c) as [<-|Hne]; cbn [andb].
    + split; [eauto | intros _]. destruct s; reflexivity.
    + split; [discriminate | intros [b Hb]; congruence].
Qed.

(** [includes s "-"] holds exactly when [s] has the character somewhere. *)
Lemma includes_dash (s : string) :
  includes s "-" = true <-> exists a b, s = (a ++ String "-" b)%string.
Proof.
  induction s as [|c s IH].
  - simpl. split; [discriminate|]. intros (a & b & H). destruct a; discriminate.
  - cbn [includes]. rewrite orb_true_iff, IH, startsWith_dash. split.
    + intros [[b Hb] | (a & b & ->)].
      * exists EmptyString, b. exact Hb.
      * exists (String c a), b. reflexivity.
    + intros (a & b & H). destruct a as [|c' a]; cbn in H.
      * left. eauto.
      * right. injection H as -> ->. eauto.
Qed.

(** ** The store invariant *)

Lemma dom_close_all (l : list PcRef) (h : gmap PcRef Connection) :
  dom (foldr (fun r h' => alter close r h') h l) = dom h.
Proof.
  induction l as [|r l IH]; simpl; [reflexivity|].
  rewrite dom_alter_L. exact IH.
Qed.

Lemma wf_initial (mm : MicrophoneManager) surplus :
  wf (constructor_WebRTCController mm surplus).
Proof.
  split; simpl; intros *; try rewrite lookup_empty; try rewrite dom_empty_L;
    try discriminate; set_solver.
Qed.

Ltac wf_finish :=
  split; cbn -[dom];
  repeat first [rewrite dom_alter_L | rewrite dom_close_all | rewrite dom_insert_L
               | rewrite dom_delete_L];
  intros *;
  repeat match goal with
  | |- context [ <[?i:=_]> _ !! ?j ] =>
      rewrite (lookup_insert _ i j); destruct (decide (i = j)); subst
  | |- context [ delete ?i _ !! ?j ] =>
      rewrite (lookup_delete _ i j); destruct (decide (i = j)); subst
  end;
  try rewrite lookup_empty; try discriminate;
  intros; simplify_eq;
  rewrite ?elem_of_union, ?elem_of_singleton, ?elem_of_difference, ?elem_of_empty in *;
  repeat match goal with
  | H : _ \/ _ |- _ => destruct H
  | H : _ /\ _ |- _ => destruct H
  end;
  subst;
  try (match goal with
       | H : connections _ !! _ = Some _,
         W : forall w r, connections _ !! w = Some r -> _ |- _ => pose proof (W _ _ H)
       end);
  try (match goal with
       | H : _ ∈ _, W : forall r, r ∈ dom (heap _) -> _ |- _ => pose proof (W _ H)
       end);
  try (match goal with
       | H : _ ∈ _, W : forall r, r ∈ dom (timers _) -> _ |- _ => pose proof (W _ H)
       end);
  first [lia | tauto | contradiction].

Create HintDb js_wf.

Section Preservation.

Variable I : Dashboard -> Prop.

Lemma preserves_ret {A} (a : A) : preserves I (ret a).
Proof. intros d H. exact H. Qed.

Lemma preserves_throw {A} (e : Exn) : preserves I (@throw Dashboard A e).
Proof. intros d H. exact H. Qed.

Lemma preserves_await {A} (c : Completion A) : preserves I (await c).
Proof. intros d H. exact H. Qed.

Lemma preserves_get : preserves I get.
Proof. intros d H. exact H. Qed.

Lemma preserves_settle (fault : option Exn) : preserves I (settle fault).
Proof. intros d H. destruct fault; exact H. Qed.

Lemma preserves_bind {A B} (m : JS Dashboard A) (k : A -> JS Dashboard B) :
  preserves I m -> (forall a, preserves I (k a)) -> preserves I (bind m k).
Proof.
  intros Hm Hk d H. unfold bind. specialize (Hm d H).
  destruct (m d) as [[a|e] d']; cbn in *; [apply Hk|]; assumption.
Qed.

Lemma preserves_tryCatch {A} (m : JS Dashboard A) (h : Exn -> JS Dashboard A) :
  preserves I m -> (forall e, preserves I (h e)) -> preserves I (tryCatch m h).
Proof.
  intros Hm Hh d H. unfold tryCatch. specialize (Hm d H).
  destruct (m d) as [[a|e] d']; cbn in *; [|apply Hh]; assumption.
Qed.

Lemma preserves_discard {A} (m : JS Dashboard A) :
  preserves I m -> preserves I (discard m).
Proof. intros Hm. apply preserves_bind; [exact Hm | intros a; apply preserves_ret]. Qed.

End Preservation.

(** *** The primitive effects keep the store well formed *)

Lemma wf_log l s : preserves wf (log l s).
Proof. intros d [? ? ?]. split; assumption. Qed.

Lemma wf_call c : preserves wf (call c).
Proof. intros d [? ? ?]. split; assumption. Qed.

Lemma wf_microphoneManager f : preserves wf (modify (set_microphoneManager f)).
Proof. intros d [? ? ?]. split; assumption. Qed.

Lemma wf_stoppedTracks f : preserves wf (modify (set_stoppedTracks f)).
Proof. intros d [? ? ?]. split; assumption. Qed.

Lemma wf_setTimer t : preserves wf (setTimer t).
Proof. intros d [Hreg Hheap Htim]. unfold setTimer. wf_finish. Qed.

Lemma wf_clearTimer id : preserves wf (modify (set_timers (delete id))).
Proof. intros d [Hreg Hheap Htim]. js. wf_finish. Qed.

Lemma wf_update r f : preserves wf (update r f).
Proof. intros d [Hreg Hheap Htim]. js. wf_finish. Qed.

Lemma wf_evict w : preserves wf (modify (set_connections (delete w))).
Proof. intros d [Hreg Hheap Htim]. js. wf_finish. Qed.

Lemma wf_clear : preserves wf (modify (set_connections (fun _ => ∅))).
Proof. intros d [Hreg Hheap Htim]. js. wf_finish. Qed.

Lemma wf_close_all l :
  preserves wf (modify (set_heap (fun h => foldr (fun r h' => alter close r h') h l))).
Proof. intros d [Hreg Hheap Htim]. js. wf_finish. Qed.

Lemma wf_on_pc r op : preserves wf (on_pc r op).
Proof.
  intros d [Hreg Hheap Htim]. unfold on_pc.
  destruct (heap d !! r) as [c|] eqn:Hr; [|split; assumption].
  destruct (op (pc c)); [|split; assumption].
  apply (elem_of_dom_2 (heap d)) in Hr. wf_finish.
Qed.

Lemma wf_audioChannel_send r f p : preserves wf (audioChannel_send r f p).
Proof.
  intros d [Hreg Hheap Htim]. unfold audioChannel_send.
  destruct (heap d !! r) as [c|] eqn:Hr; [|split; assumption].
  destruct (dc_send f p (audioChannel c)); [|split; assumption].
  apply (elem_of_dom_2 (heap d)) in Hr. wf_finish.
Qed.

Lemma wf_controlChannel_send r f p : preserves wf (controlChannel_send r f p).
Proof.
  intros d [Hreg Hheap Htim]. unfold controlChannel_send.
  destruct (heap d !! r) as [c|] eqn:Hr; [|split; assumption].
  destruct (dc_send f p (controlChannel c)); [|split; assumption].
  apply (elem_of_dom_2 (heap d)) in Hr. wf_finish.
Qed.

Lemma wf_createConnection w o : preserves wf (createConnection w o).
Proof.
  intros d [Hreg Hheap Htim]. unfold createConnection, on_pc. js.
  destruct o as [text|e]; cbn.
  - rewrite lookup_insert_eq. cbn. destruct (isBrowserClient w); cbn; wf_finish.
  - wf_finish.
Qed.

#[global] Hint Resolve preserves_ret preserves_throw preserves_await preserves_get
  preserves_settle wf_log wf_call wf_microphoneManager wf_stoppedTracks wf_setTimer wf_clearTimer
  wf_update wf_evict wf_clear wf_close_all wf_on_pc wf_audioChannel_send
  wf_controlChannel_send wf_createConnection : js_wf.

(** *** ... and none of them, bar [clearTimer], touches an armed timer *)

Lemma armed_frame {A} id t (m : JS Dashboard A) :
  preserves wf m -> (forall d, timers (snd (m d)) = timers d) -> preserves (armed id t) m.
Proof. intros Hwf Hsame d [H Ht]. split; [apply Hwf, H | rewrite Hsame; exact Ht]. Qed.

Lemma armed_log id t l s : preserves (armed id t) (log l s).
Proof. apply armed_frame; [apply wf_log | reflexivity]. Qed.

Lemma armed_call id t c : preserves (armed id t) (call c).
Proof. apply armed_frame; [apply wf_call | reflexivity]. Qed.

Lemma armed_microphoneManager id t f :
  preserves (armed id t) (modify (set_microphoneManager f)).
Proof. apply armed_frame; [apply wf_microphoneManager | reflexivity]. Qed.

Lemma armed_stoppedTracks id t f : preserves (armed id t) (modify (set_stoppedTracks f)).
Proof. apply armed_frame; [apply wf_stoppedTracks | reflexivity]. Qed.

Lemma armed_update id t r f : preserves (armed id t) (update r f).
Proof. apply armed_frame; [apply wf_update | reflexivity]. Qed.

Lemma armed_evict id t w : preserves (armed id t) (modify (set_connections (delete w))).
Proof. apply armed_frame; [apply wf_evict | reflexivity]. Qed.

Lemma armed_clear id t : preserves (armed id t) (modify (set_connections (fun _ => ∅))).
Proof. apply armed_frame; [apply wf_clear | reflexivity]. Qed.

Lemma armed_close_all id t l :
  preserves (armed id t)
    (modify (set_heap (fun h => foldr (fun r h' => alter close r h') h l))).
Proof. apply armed_frame; [apply wf_close_all | reflexivity]. Qed.

Lemma armed_on_pc id t r op : preserves (armed id t) (on_pc r op).
Proof.
  apply armed_frame; [apply wf_on_pc|]. intros d. unfold on_pc.
  destruct (heap d !! r) as [c|]; [destruct (op (pc c))|]; reflexivity.
Qed.

Lemma armed_audioChannel_send id t r f p : preserves (armed id t) (audioChannel_send r f p).
Proof.
  apply armed_frame; [apply wf_audioChannel_send|]. intros d. unfold audioChannel_send.
  destruct (heap d !! r) as [c|]; [destruct (dc_send f p (audioChannel c))|]; reflexivity.
Qed.

Lemma armed_controlChannel_send id t r f p :
  preserves (armed id t) (controlChannel_send r f p).
Proof.
  apply armed_frame; [apply wf_controlChannel_send|]. intros d. unfold controlChannel_send.
  destruct (heap d !! r) as [c|]; [destruct (dc_send f p (controlChannel c))|]; reflexivity.
Qed.

Lemma armed_createConnection id t w o : preserves (armed id t) (createConnection w o).
Proof.
  apply armed_frame; [apply wf_createConnection|]. intros d.
  unfold createConnection, on_pc. js. destruct o as [text|e]; cbn; [|reflexivity].
  rewrite lookup_insert_eq. cbn. destruct (isBrowserClient w); reflexivity.
Qed.

(** A new timer takes the next free id, never one in use. *)
Lemma armed_setTimer id t t' : preserves (armed id t) (setTimer t').
Proof.
  intros d [H Ht]. split; [apply wf_setTimer, H|].
  unfold setTimer; cbn. rewrite lookup_insert_ne; [exact Ht|].
  intros <-. apply (elem_of_dom_2 (timers d)) in Ht.
  apply (wf_timers d H) in Ht. lia.
Qed.

#[global] Hint Resolve armed_log armed_call armed_microphoneManager armed_stoppedTracks
  armed_update armed_evict armed_clear armed_close_all armed_on_pc armed_audioChannel_send
  armed_controlChannel_send armed_createConnection armed_setTimer : js_wf.

Ltac preserve :=
  repeat first
    [ solve [eauto with js_wf]
    | apply preserves_bind; [|intros ?]
    | apply preserves_tryCatch; [|intros ?]
    | apply preserves_discard
    | match goal with
      | |- preserves _ (match ?x with _ => _ end) => destruct x
      end ].

Ltac unfold_handlers :=
  unfold handle, audioChannelOpens, audioChannel_onopen, startAudioSending,
    controlChannelOpens, controlChannel_onopen, onicecandidate, connectionStateChanges,
    onconnectionstatechange, handleAnswer, handleIceCandidate, closeConnection,
    closeAllConnections, updateMicrophoneStream, sendControlMessage, runTask,
    sendAnalysisData, start, stop, audioProcess, setInterval, setTimeout.

Lemma wf_runTask t f : preserves wf (runTask t f).
Proof. unfold_handlers. preserve. Qed.

Lemma armed_runTask id t t' f : preserves (armed id t) (runTask t' f).
Proof. unfold_handlers. preserve. Qed.

Lemma wf_fireTimer id f : preserves wf (fireTimer id f).
Proof. pose proof wf_runTask. unfold fireTimer. preserve. Qed.

(** A timer that comes due removes itself only if it is a timeout, so an
    interval stays armed across any firing. *)
Lemma armed_fireTimer id t id' f :
  repeating t = true -> preserves (armed id t) (fireTimer id' f).
Proof.
  intros Hrep d [H Ht]. unfold fireTimer. js.
  destruct (timers d !! id') as [t'|] eqn:Ht'; [|split; assumption].
  destruct (repeating t') eqn:Hrep'; cbn.
  - apply armed_runTask. split; assumption.
  - apply armed_runTask. split; [apply (wf_clearTimer id'), H|].
    cbn. rewrite lookup_delete_ne; [exact Ht|]. intros <-. congruence.
Qed.

(** Every handler of the dashboard keeps the store well formed. *)
Lemma wf_step (d : Dashboard) (e : Event) : wf d -> wf (step d e).
Proof.
  intros H. unfold step. revert d H. change (preserves wf (handle e)).
  pose proof wf_fireTimer.
  destruct e; unfold_handlers; preserve.
Qed.

Lemma wf_run (es : list Event) (d : Dashboard) : wf d -> wf (run es d).
Proof.
  revert d. induction es as [|e es IH]; intros d H; [exact H|].
  apply IH, wf_step, H.
Qed.

(** No handler cancels or re-arms an interval: once armed, it is in the
    timer table, with the delay it was given, after every run. *)
Lemma armed_step id t (d : Dashboard) (e : Event) :
  repeating t = true -> armed id t d -> armed id t (step d e).
Proof.
  intros Hrep H. unfold step. revert d H. change (preserves (armed id t) (handle e)).
  pose proof (armed_fireTimer id t) as Hfire.
  destruct e; unfold_handlers; preserve.
Qed.

Lemma interval_persists id t (es : list Event) (d : Dashboard) :
  repeating t = true -> wf d -> timers d !! id = Some t ->
  timers (run es d) !! id = Some t.
Proof.
  intros Hrep Hwf Ht. assert (armed id t d) as H by (split; assumption).
  clear Hwf Ht. revert d H.
  induction es as [|e es IH]; intros d H; [exact (proj2 H)|].
  apply IH, armed_step; assumption.
Qed.

(** *** No handler notifies the main process *)

Lemma unnotified_frame {A} (m : JS Dashboard A) :
  (forall d, electronAPI (snd (m d)) = electronAPI d) -> preserves unnotified m.
Proof. intros Hsame d H w. rewrite Hsame. apply H. Qed.

Lemma unnotified_call c :
  (forall w, c <> notifyWindowClosed w) -> preserves unnotified (call c).
Proof.
  intros Hc d H w. cbn. rewrite in_app_iff. intros [Hin | [Hin | []]].
  - exact (H w Hin).
  - exact (Hc w Hin).
Qed.

Lemma unnotified_log l s : preserves unnotified (log l s).
Proof. apply unnotified_frame. reflexivity. Qed.

Lemma unnotified_microphoneManager f :
  preserves unnotified (modify (set_microphoneManager f)).
Proof. apply unnotified_frame. reflexivity. Qed.

Lemma unnotified_stoppedTracks f : preserves unnotified (modify (set_stoppedTracks f)).
Proof. apply unnotified_frame. reflexivity. Qed.

Lemma unnotified_connections f : preserves unnotified (modify (set_connections f)).
Proof. apply unnotified_frame. reflexivity. Qed.

Lemma unnotified_heap f : preserves unnotified (modify (set_heap f)).
Proof. apply unnotified_frame. reflexivity. Qed.

Lemma unnotified_timers f : preserves unnotified (modify (set_timers f)).
Proof. apply unnotified_frame. reflexivity. Qed.

Lemma unnotified_setTimer t : preserves unnotified (setTimer t).
Proof. apply unnotified_frame. reflexivity. Qed.

Lemma unnotified_allocate c : preserves unnotified (allocate c).
Proof. apply unnotified_frame. reflexivity. Qed.

Lemma unnotified_update r f : preserves unnotified (update r f).
Proof. apply unnotified_frame. reflexivity. Qed.

Lemma unnotified_on_pc r op : preserves unnotified (on_pc r op).
Proof.
  apply unnotified_frame. intros d. unfold on_pc.
  destruct (heap d !! r) as [c|]; [destruct (op (pc c))|]; reflexivity.
Qed.

Lemma unnotified_audioChannel_send r f p : preserves unnotified (audioChannel_send r f p).
Proof.
  apply unnotified_frame. intros d. unfold audioChannel_send.
  destruct (heap d !! r) as [c|]; [destruct (dc_send f p (audioChannel c))|]; reflexivity.
Qed.

Lemma unnotified_controlChannel_send r f p :
  preserves unnotified (controlChannel_send r f p).
Proof.
  apply unnotified_frame. intros d. unfold controlChannel_send.
  destruct (heap d !! r) as [c|]; [destruct (dc_send f p (controlChannel c))|]; reflexivity.
Qed.

#[global] Hint Resolve unnotified_log unnotified_microphoneManager unnotified_stoppedTracks
  unnotified_connections unnotified_heap unnotified_timers unnotified_setTimer
  unnotified_allocate unnotified_update unnotified_on_pc unnotified_audioChannel_send
  unnotified_controlChannel_send : js_wf.

#[global] Hint Extern 1 (preserves unnotified (call _)) =>
  apply unnotified_call; intros ?; discriminate : js_wf.

Lemma unnotified_runTask t f : preserves unnotified (runTask t f).
Proof. unfold_handlers. preserve. Qed.

Lemma unnotified_step (d : Dashboard) (e : Event) : unnotified d -> unnotified (step d e).
Proof.
  intros H. unfold step. revert d H. change (preserves unnotified (handle e)).
  pose proof unnotified_runTask.
  destruct e; unfold_handlers; unfold createConnection, fireTimer; preserve.
Qed.

(** Whatever happens to the controller the application builds, the
    callback it was given is never run. *)
Lemma never_notifies (es : list Event) : unnotified (run es webrtcController).
Proof.
  assert (unnotified webrtcController) as H by (intros w []).
  revert H. generalize webrtcController.
  induction es as [|e es IH]; intros d H; [exact H|].
  apply IH, unnotified_step, H.
Qed.

(** ** The session registry *)

(** What [createConnection] does when the browser delivers an offer: a new
    peer connection takes the next free reference, the registry entry of the
    id is set to it, and the offer leaves through the adapter of the id. *)
Lemma createConnection_ok (w : WindowId) (text : string) (d : Dashboard) :
  let offer := {| sdpType := SdpOffer; sdp := text |} in
  let d' := snd (createConnection w (Normal text) d) in
  fst (createConnection w (Normal text) d) = Normal (nextPc d) /\
  connections d' = <[w := nextPc d]> (connections d) /\
  (forall r, r <> nextPc d -> heap d' !! r = heap d !! r) /\
  (exists c, heap d' !! nextPc d = Some c /\
             signalingState (pc c) = SsHaveLocalOffer /\
             remoteDescription (pc c) = None /\
             readyState (audioChannel c) = RsConnecting /\
             audioChannelInterval c = None) /\
  electronAPI d' = electronAPI d ++
    [if isBrowserClient w then sendOfferToBrowserClient w offer else sendOffer w offer] /\
  timers d' = timers d /\ console d' = console d.
Proof.
  unfold createConnection, on_pc. js. rewrite lookup_insert_eq. cbn.
  destruct (isBrowserClient w); cbn;
    (split; [reflexivity|]; split; [reflexivity|]; split;
     [intros r Hr; rewrite !lookup_insert_ne by congruence; reflexivity|];
     split; [eexists; rewrite lookup_insert_eq; repeat split|]; repeat split).
Qed.

(** C1, as the specification states it, at a concrete input: window 1 is
    registered, [createConnection] is called for window 1 again without a
    close in between.  The second call returns normally, and the registry
    entry of window 1 no longer is the first session. *)
Lemma C1_duplicate_not_rejected :
  let d1 := snd (createConnection (NumId 1) (Normal "offer 1") webrtcController) in
  connections d1 !! NumId 1 = Some 0%nat /\
  fst (createConnection (NumId 1) (Normal "offer 2") d1) = Normal 1%nat /\
  connections (snd (createConnection (NumId 1) (Normal "offer 2") d1)) !! NumId 1
    <> connections d1 !! NumId 1.
Proof. vm_compute. repeat split. discriminate. Qed.

(** C1 (amended): for every session id already present in the registry, a
    second [createConnection] with the same id, without a close in between,
    is not rejected as a duplicate.  It builds a new peer connection and
    asks the browser for an offer.  When the browser delivers the offer, the
    call returns the new connection, the registry entry of the id now is
    that new connection and its offer is sent.  When the browser rejects
    [createOffer], the call throws the browser's error, the registry entry
    of the id still is the first session and nothing is sent.  In both
    cases the first connection is left as it was (not closed) and the other
    registry entries are unchanged. *)
Theorem C1_createConnection_replaces
    (w : WindowId) (createOffer : Completion string) (d : Dashboard)
    (r0 : PcRef) (c0 : Connection) :
  wf d ->
  connections d !! w = Some r0 ->
  heap d !! r0 = Some c0 ->
  let d' := snd (createConnection w createOffer d) in
  nextPc d <> r0 /\
  heap d' !! r0 = Some c0 /\
  (forall w', w' <> w -> connections d' !! w' = connections d !! w') /\
  match createOffer with
  | Normal text =>
      fst (createConnection w createOffer d) = Normal (nextPc d) /\
      connections d' !! w = Some (nextPc d) /\
      electronAPI d' = electronAPI d ++
        [if isBrowserClient w
         then sendOfferToBrowserClient w {| sdpType := SdpOffer; sdp := text |}
         else sendOffer w {| sdpType := SdpOffer; sdp := text |}]
  | Abrupt e =>
      fst (createConnection w createOffer d) = Abrupt e /\
      connections d' !! w = Some r0 /\
      electronAPI d' = electronAPI d
  end.
Proof.
  intros Hwf Hw Hr0 d'.
  assert (nextPc d <> r0) as Hne.
  { apply (elem_of_dom_2 (heap d)) in Hr0. apply (wf_heap d Hwf) in Hr0. lia. }
  split; [exact Hne|].
  destruct createOffer as [text|e].
  - destruct (createConnection_ok w text d) as (Hres & Hconn & Hheap & _ & Hapi & _).
    fold d' in Hconn, Hheap, Hapi.
    split; [rewrite Hheap by congruence; exact Hr0|].
    split; [intros w' Hw'; rewrite Hconn; apply lookup_insert_ne; congruence|].
    split; [exact Hres|]. split; [rewrite Hconn; apply lookup_insert_eq | exact Hapi].
  - subst d'. unfold createConnection. js.
    split; [rewrite lookup_insert_ne by exact Hne; exact Hr0|].
    repeat split. exact Hw.
Qed.

(** C1 (amended) on the runs that register window 1 twice: the browser
    delivers the second offer, or rejects it. *)
Lemma C1_createConnection_replaces_witness :
  let d1 := snd (createConnection (NumId 1) (Normal "offer 1") webrtcController) in
  connections (snd (createConnection (NumId 1) (Normal "offer 2") d1)) !! NumId 1 = Some 1%nat /\
  fst (createConnection (NumId 1) (Abrupt OperationError) d1) = Abrupt OperationError /\
  connections (snd (createConnection (NumId 1) (Abrupt OperationError) d1)) !! NumId 1
    = Some 0%nat.
Proof.
  intros d1.
  set (c0 := {| pc := {| iceServers := [];
                         connectionState := CsNew;
                         signalingState := SsHaveLocalOffer;
                         localDescription := Some {| sdpType := SdpOffer; sdp := "offer 1" |};
                         remoteDescription := None;
                         remoteCandidates := [] |};
                audioChannel := createDataChannel "audioData" false (Some 0%N);
                controlChannel := createDataChannel "control" true None;
                pc_controlChannel := false;
                audioChannelInterval := None |}).
  assert (wf d1) as Hwf.
  { apply (wf_step webrtcController (CreateConnection (NumId 1) (Normal "offer 1"))).
    apply wf_initial. }
  assert (connections d1 !! NumId 1 = Some 0%nat) as Hw by (vm_compute; reflexivity).
  assert (heap d1 !! 0%nat = Some c0) as Hr by (vm_compute; reflexivity).
  destruct (C1_createConnection_replaces (NumId 1) (Normal "offer 2") d1 0%nat c0 Hwf Hw Hr)
    as (_ & _ & _ & _ & H & _).
  destruct (C1_createConnection_replaces (NumId 1) (Abrupt OperationError) d1 0%nat c0
              Hwf Hw Hr) as (_ & _ & _ & K1 & K2 & _).
  split; [exact H|]. split; [exact K1 | exact K2].
Defined.

(** ** Closing a session *)

(** [closeConnection] closes the peer connection and drops the registry
    entry; it does not touch the timer table. *)
Lemma closeConnection_timers (w : WindowId) (d : Dashboard) :
  timers (snd (closeConnection w d)) = timers d.
Proof. unfold closeConnection. js. destruct (connections d !! w); reflexivity. Qed.

Lemma closeConnection_returns (w : WindowId) (d : Dashboard) :
  fst (closeConnection w d) = Normal tt /\
  connections (snd (closeConnection w d)) !! w = None.
Proof.
  unfold closeConnection. js. destruct (connections d !! w) eqn:Hw; cbn.
  - split; [reflexivity | apply lookup_delete_eq].
  - split; [reflexivity | exact Hw].
Qed.

(** Closing twice in a row: the second call finds no entry and changes
    nothing. *)
Lemma closeConnection_idempotent (w : WindowId) (d : Dashboard) :
  closeConnection w (snd (closeConnection w d)) = (Normal tt, snd (closeConnection w d)).
Proof.
  destruct (closeConnection_returns w d) as [_ H].
  revert H. generalize (snd (closeConnection w d)). intros d' H.
  unfold closeConnection. js. rewrite H. reflexivity.
Qed.

(** After the close the channel of the session is closed, so a tick of its
    interval sends nothing and logs nothing. *)
Lemma closed_session_sends_nothing (w : WindowId) (r : PcRef) (f : option Exn) (d : Dashboard) :
  connections d !! w = Some r ->
  sendAnalysisData r f (snd (closeConnection w d)) = (Normal tt, snd (closeConnection w d)).
Proof.
  intros Hw. unfold closeConnection. js. rewrite Hw. cbn.
  unfold sendAnalysisData. js. rewrite lookup_alter_eq.
  destruct (heap d !! r); reflexivity.
Qed.

(** C2: [closeConnection] leaves the cadence timer armed.  Window 1 is
    connected and its audio channel opens, which starts the interval and
    stores its id on the connection; after [closeConnection] has returned
    the registry entry is gone but the interval is still in the timer table,
    and it stays there through every later run of the dashboard. *)
Theorem C2_closeConnection_leaves_interval (es : list Event) :
  let d1 := run [CreateConnection (NumId 1) (Normal "offer");
                 AudioChannelOpens 0%nat (NumId 1)] webrtcController in
  let d2 := snd (closeConnection (NumId 1) d1) in
  let t := {| task := SendAnalysisData 0%nat; delay := (1000 / 60)%Q; repeating := true |} in
  audioChannelInterval <$> heap d1 !! 0%nat = Some (Some 0%nat) /\
  timers d1 !! 0%nat = Some t /\
  fst (closeConnection (NumId 1) d1) = Normal tt /\
  connections d2 !! NumId 1 = None /\
  timers d2 !! 0%nat = Some t /\
  timers (run es d2) !! 0%nat = Some t.
Proof.
  intros d1 d2 t.
  assert (timers d1 !! 0%nat = Some t) as Ht by (vm_compute; reflexivity).
  assert (wf d1) as Hwf by (apply wf_run, wf_initial).
  split; [vm_compute; reflexivity|]. split; [exact Ht|].
  split; [apply closeConnection_returns|]. split; [apply closeConnection_returns|].
  assert (timers d2 !! 0%nat = Some t) as Ht2.
  { unfold d2. rewrite closeConnection_timers. exact Ht. }
  split; [exact Ht2|].
  apply interval_persists; [reflexivity | | exact Ht2].
  apply (wf_step d1 (CloseConnection (NumId 1))), Hwf.
Qed.

(** ** Link failure *)

(** The state-change handler evicts the session on [failed] and [closed]
    and calls nothing on [window.electronAPI]. *)
Lemma connectionStateChanges_evicts (r : PcRef) (w : WindowId) (s : ConnectionState)
    (c : Connection) (d : Dashboard) :
  heap d !! r = Some c ->
  s = CsFailed \/ s = CsClosed ->
  connections (snd (connectionStateChanges r w s d)) !! w = None.
Proof.
  intros Hr Hs. unfold connectionStateChanges, onconnectionstatechange. js.
  rewrite lookup_alter_eq, Hr. cbn. destruct Hs as [-> | ->]; cbn; apply lookup_delete_eq.
Qed.

Lemma connectionStateChanges_silent (r : PcRef) (w : WindowId) (s : ConnectionState)
    (d : Dashboard) :
  electronAPI (snd (connectionStateChanges r w s d)) = electronAPI d.
Proof.
  unfold connectionStateChanges, onconnectionstatechange. js.
  destruct (alter _ r (heap d) !! r) as [c|]; [|reflexivity].
  destruct (connectionState (pc c)); reflexivity.
Qed.

(** C3: the session-closed hook is never invoked.  The application builds
    its controller with [handleConnectionClosed] as second argument; the
    constructor takes one.  When the link of window 1 fails the session is
    evicted, and no [notifyWindowClosed] reaches [window.electronAPI]. *)
Theorem C3_eviction_without_notification :
  let d1 := step webrtcController (CreateConnection (NumId 1) (Normal "offer")) in
  let d2 := step d1 (ConnectionStateChanges 0%nat (NumId 1) CsFailed) in
  connections d1 !! NumId 1 = Some 0%nat /\
  connections d2 !! NumId 1 = None /\
  electronAPI d2 = [sendOffer (NumId 1) {| sdpType := SdpOffer; sdp := "offer" |}] /\
  ~ In (notifyWindowClosed (NumId 1)) (electronAPI d2).
Proof.
  vm_compute. repeat split. intros [H | []]. discriminate H.
Qed.

(** ** Remote answers *)

(** While negotiating, the answer becomes the remote description. *)
Lemma handleAnswer_negotiating (w : WindowId) (answer : SessionDescription)
    (r : PcRef) (c : Connection) (d : Dashboard) :
  connections d !! w = Some r ->
  heap d !! r = Some c ->
  signalingState (pc c) = SsHaveLocalOffer ->
  sdpType answer = SdpAnswer ->
  fst (handleAnswer w answer d) = Normal tt /\
  exists c', heap (snd (handleAnswer w answer d)) !! r = Some c' /\
             remoteDescription (pc c') = Some answer /\
             signalingState (pc c') = SsStable.
Proof.
  intros Hw Hr Hs Ha. unfold handleAnswer, on_pc. js. rewrite Hw. cbn. rewrite Hr.
  unfold pc_setRemoteDescription. rewrite Hs, Ha. cbn.
  split; [reflexivity|]. eexists. rewrite lookup_insert_eq. repeat split.
Qed.

(** [handleAnswer] completes normally on every input and leaves the
    registry alone. *)
Lemma handleAnswer_returns (w : WindowId) (answer : SessionDescription) (d : Dashboard) :
  fst (handleAnswer w answer d) = Normal tt /\
  connections (snd (handleAnswer w answer d)) = connections d /\
  electronAPI (snd (handleAnswer w answer d)) = electronAPI d.
Proof.
  unfold handleAnswer, on_pc. js.
  destruct (connections d !! w) as [r|]; cbn; [|repeat split].
  destruct (heap d !! r) as [c|]; cbn; [|repeat split].
  destruct (pc_setRemoteDescription answer (pc c)); cbn; repeat split.
Qed.

(** C4, as the specification states it, at a concrete input: the link of
    window 1 has taken its answer and is connected, so it is no longer
    negotiating, and the answer is delivered a second time.  The call
    returns normally; no error reaches the caller.  (An answer for the
    unknown window 2 leaves the dashboard, its console included, as it
    was.) *)
Lemma C4_answer_outside_negotiation_returns :
  let answer := {| sdpType := SdpAnswer; sdp := "answer" |} in
  let d1 := run [CreateConnection (NumId 1) (Normal "offer");
                 HandleAnswer (NumId 1) answer;
                 ConnectionStateChanges 0%nat (NumId 1) CsConnected] webrtcController in
  connections d1 !! NumId 1 = Some 0%nat /\
  signalingState <$> (pc <$> heap d1 !! 0%nat) = Some SsStable /\
  connectionState <$> (pc <$> heap d1 !! 0%nat) = Some CsConnected /\
  fst (handleAnswer (NumId 1) answer d1) = Normal tt /\
  handleAnswer (NumId 2) answer d1 = (Normal tt, d1).
Proof. vm_compute. repeat split. Qed.

(** C4 (amended): [handleAnswer] never fails.  For a session id absent
    from the registry it returns without any effect; for a session whose
    link is not negotiating, the rejection of [setRemoteDescription] is
    caught and logged inside [handleAnswer], which returns normally: no
    error is surfaced to the caller, and registry and peer connections are
    as before. *)
Theorem C4_handleAnswer_swallows
    (w : WindowId) (answer : SessionDescription) (d : Dashboard) :
  let d' := snd (handleAnswer w answer d) in
  (fst (handleAnswer w answer d) = Normal tt /\ connections d' = connections d) /\
  (connections d !! w = None -> d' = d) /\
  (~ negotiating d w -> sdpType answer = SdpAnswer ->
   heap d' = heap d /\
   electronAPI d' = electronAPI d /\
   timers d' = timers d /\
   forall r, connections d !! w = Some r -> is_Some (heap d !! r) ->
     console d' = console d ++
       [{| level := LogError; message := "Failed to set remote description:" |}]).
Proof.
  intros d'. split; [|split].
  - destruct (handleAnswer_returns w answer d) as (H1 & H2 & _). auto.
  - subst d'. unfold handleAnswer. js. intros ->. reflexivity.
  - intros Hneg Ha. subst d'. unfold handleAnswer, on_pc. js.
    destruct (connections d !! w) as [r|] eqn:Hw; cbn.
    + destruct (heap d !! r) as [c|] eqn:Hr; cbn.
      * assert (pc_setRemoteDescription answer (pc c) = Abrupt InvalidStateError) as ->.
        { unfold pc_setRemoteDescription. rewrite Ha.
          destruct (signalingState (pc c)) eqn:Hs; try reflexivity.
          exfalso. apply Hneg. exists r, c. auto. }
        cbn. repeat split.
      * repeat split. intros r' [= <-] [c Hc]. rewrite Hr in Hc. discriminate Hc.
    + repeat split. intros r' H. discriminate H.
Qed.

(** C4 (amended) on a run: an answer for the unknown window 2, and a
    second answer for the connected window 1. *)
Lemma C4_handleAnswer_swallows_witness :
  let answer := {| sdpType := SdpAnswer; sdp := "answer" |} in
  let d1 := run [CreateConnection (NumId 1) (Normal "offer");
                 HandleAnswer (NumId 1) answer;
                 ConnectionStateChanges 0%nat (NumId 1) CsConnected] webrtcController in
  snd (handleAnswer (NumId 2) answer d1) = d1 /\
  heap (snd (handleAnswer (NumId 1) answer d1)) = heap d1 /\
  console (snd (handleAnswer (NumId 1) answer d1)) = console d1 ++
    [{| level := LogError; message := "Failed to set remote description:" |}].
Proof.
  intros answer d1.
  destruct (C4_handleAnswer_swallows (NumId 2) answer d1) as (_ & Habsent & _).
  destruct (C4_handleAnswer_swallows (NumId 1) answer d1) as (_ & _ & Hstable).
  split; [apply Habsent; vm_compute; reflexivity|].
  destruct Hstable as (Hheap & _ & _ & Hlog).
  - intros (r & c & Hw & Hr & Hs). vm_compute in Hw. injection Hw as <-.
    vm_compute in Hr. injection Hr as <-. discriminate Hs.
  - reflexivity.
  - split; [exact Hheap|]. apply (Hlog 0%nat); vm_compute; eauto.
Defined.

(** ** Remote candidates *)

Lemma falsy_spec (o : option string) :
  falsy o = true <-> o = None \/ o = Some EmptyString.
Proof.
  destruct o as [[|a s]|]; cbn; split; auto; try discriminate;
    intros [H|H]; discriminate H.
Qed.

Lemma emptyCandidate_spec (c : Candidate) :
  emptyCandidate c = true <-> endOfCandidates c.
Proof.
  unfold endOfCandidates. destruct c as [i|]; cbn.
  - rewrite andb_true_iff, !falsy_spec. split.
    + intros [H1 H2]. right. exists i. auto.
    + intros [H | (i' & [= <-] & H1 & H2)]; [discriminate H | auto].
  - split; auto.
Qed.

(** The dashboard defers: without a remote description the candidate goes
    into a 100 ms timeout that calls the handler again, and nothing else
    changes. *)
Lemma handleIceCandidate_defers (w : WindowId) (c : Candidate) (r : PcRef)
    (k : Connection) (d : Dashboard) :
  connections d !! w = Some r ->
  heap d !! r = Some k ->
  remoteDescription (pc k) = None ->
  emptyCandidate c = false ->
  handleIceCandidate w c d =
    (Normal tt, set_nextTimer S (set_timers <[nextTimer d := retry w c]> d)).
Proof.
  intros Hw Hr Hrd Hc. unfold handleIceCandidate. js_unfold. cbn -[emptyCandidate].
  rewrite Hw. cbn -[emptyCandidate]. rewrite Hc, Hr. cbn.
  destruct c as [i|]; [|discriminate Hc]. rewrite Hrd. reflexivity.
Qed.

(** With the remote description set, a well-formed candidate is added to
    the peer connection. *)
Lemma handleIceCandidate_applies (w : WindowId) (i : IceCandidateInit) (r : PcRef)
    (k : Connection) (d : Dashboard) :
  connections d !! w = Some r ->
  heap d !! r = Some k ->
  is_Some (remoteDescription (pc k)) ->
  signalingState (pc k) <> SsClosed ->
  emptyCandidate (Some i) = false ->
  is_Some (sdpMid i) \/ is_Some (sdpMLineIndex i) ->
  exists k',
    handleIceCandidate w (Some i) d = (Normal tt, set_heap <[r := k']> d) /\
    remoteCandidates (pc k') = remoteCandidates (pc k) ++ [i] /\
    remoteDescription (pc k') = remoteDescription (pc k).
Proof.
  intros Hw Hr [a Hrd] Hs Hc Hwf. unfold handleIceCandidate, on_pc.
  js_unfold. cbn -[emptyCandidate].
  rewrite Hw. cbn -[emptyCandidate]. rewrite Hc, Hr. cbn. rewrite Hrd. cbn. rewrite Hr.
  assert (exists p, pc_addIceCandidate i (pc k) = Normal p /\
                    remoteCandidates p = remoteCandidates (pc k) ++ [i] /\
                    remoteDescription p = remoteDescription (pc k)) as (p & -> & Hp).
  { unfold pc_addIceCandidate. rewrite Hrd.
    destruct (sdpMid i), (sdpMLineIndex i), (signalingState (pc k));
      try congruence; try (eexists; repeat split; reflexivity).
    all: destruct Hwf as [[? H]|[? H]]; discriminate H. }
  cbn. eexists. split; [reflexivity|]. cbn. rewrite <- Hrd. exact Hp.
Qed.

(** A timeout leaves the table and runs its task on what is left. *)
Lemma fireTimer_timeout (id : TimerId) (t : Timer) (f : option Exn) (d : Dashboard) :
  timers d !! id = Some t ->
  repeating t = false ->
  fireTimer id f d = runTask (task t) f (set_timers (delete id) d).
Proof.
  intros Ht Hrep. unfold fireTimer. js. rewrite Ht, Hrep. cbn.
  destruct (runTask (task t) f _) as [[[]|e] d']; reflexivity.
Qed.


Lemma not_endOfCandidates (c : Candidate) :
  ~ endOfCandidates c -> emptyCandidate c = false.
Proof.
  intros H. destruct (emptyCandidate c) eqn:E; [|reflexivity].
  exfalso. apply H, emptyCandidate_spec, E.
Qed.

(** A marker changes nothing in the dashboard ... *)
Lemma handleIceCandidate_marker (w : WindowId) (c : Candidate) (d : Dashboard) :
  endOfCandidates c -> handleIceCandidate w c d = (Normal tt, d).
Proof.
  intros H. apply emptyCandidate_spec in H. unfold handleIceCandidate.
  js_unfold. cbn -[emptyCandidate]. destruct (connections d !! w); [|reflexivity].
  cbn -[emptyCandidate]. rewrite H. reflexivity.
Qed.

(** ... and only writes a console line in either receiver. *)
Lemma WebRTCReceiver_marker (c : Candidate) (x : WebRTCReceiver.t) :
  endOfCandidates c ->
  fst (WebRTCReceiver.handleIceCandidate c x) = Normal tt /\
  WebRTCReceiver.peerConnection (snd (WebRTCReceiver.handleIceCandidate c x))
    = WebRTCReceiver.peerConnection x /\
  WebRTCReceiver.pendingICECandidates (snd (WebRTCReceiver.handleIceCandidate c x))
    = WebRTCReceiver.pendingICECandidates x /\
  WebRTCReceiver.answers (snd (WebRTCReceiver.handleIceCandidate c x))
    = WebRTCReceiver.answers x.
Proof.
  intros H. apply emptyCandidate_spec in H. unfold WebRTCReceiver.handleIceCandidate.
  js_unfold. cbn -[emptyCandidate]. destruct (WebRTCReceiver.peerConnection x) eqn:Hp.
  - rewrite H. cbn. repeat split; auto.
  - cbn. repeat split; auto.
Qed.

Lemma SocketReceiver_marker (c : Candidate) (x : SocketReceiver.t) :
  endOfCandidates c ->
  fst (SocketReceiver.handleIceCandidate c x) = Normal tt /\
  SocketReceiver.peerConnection (snd (SocketReceiver.handleIceCandidate c x))
    = SocketReceiver.peerConnection x.
Proof.
  intros H. apply emptyCandidate_spec in H. unfold SocketReceiver.handleIceCandidate.
  js_unfold. cbn -[emptyCandidate]. destruct (SocketReceiver.peerConnection x) eqn:Hp.
  - rewrite H. cbn. repeat split; auto.
  - cbn. repeat split; auto.
Qed.

Ltac rjs :=
  unfold bind, ret, throw, get, modify, tryCatch, await, WebRTCReceiver.log,
    SocketReceiver.log; cbn.

Lemma receive_queues (cs : list Candidate) (x : WebRTCReceiver.t) (p : RTCPeerConnection) :
  WebRTCReceiver.peerConnection x = Some p ->
  remoteDescription p = None ->
  WebRTCReceiver.peerConnection (receive cs x) = Some p /\
  WebRTCReceiver.pendingICECandidates (receive cs x) =
    WebRTCReceiver.pendingICECandidates x ++ kept cs /\
  WebRTCReceiver.answers (receive cs x) = WebRTCReceiver.answers x.
Proof.
  revert x. induction cs as [|c cs IH]; intros x Hp Hr.
  - cbn. rewrite app_nil_r. auto.
  - cbn [receive fold_left].
    change (fold_left _ cs ?y) with (receive cs y).
    assert (WebRTCReceiver.peerConnection (snd (WebRTCReceiver.handleIceCandidate c x)) = Some p /\
            WebRTCReceiver.pendingICECandidates (snd (WebRTCReceiver.handleIceCandidate c x)) =
              WebRTCReceiver.pendingICECandidates x ++ kept [c] /\
            WebRTCReceiver.answers (snd (WebRTCReceiver.handleIceCandidate c x)) =
              WebRTCReceiver.answers x) as (K1 & K2 & K3).
    { unfold WebRTCReceiver.handleIceCandidate, kept. rjs. rewrite Hp.
      cbn -[emptyCandidate]. destruct (emptyCandidate c) eqn:Hc; cbn -[emptyCandidate].
      - rewrite app_nil_r. auto.
      - destruct c as [i|]; [|discriminate Hc]. rewrite Hr. cbn. auto. }
    destruct (IH _ K1 Hr) as (L1 & L2 & L3).
    rewrite L1, L2, L3, K2, K3, <- app_assoc. repeat split.
    f_equal. unfold kept. cbn -[emptyCandidate]. destruct (emptyCandidate c); [reflexivity|].
    destruct c; reflexivity.
Qed.

Lemma flush_one (c : IceCandidateInit) (x : WebRTCReceiver.t) (p : RTCPeerConnection) :
  WebRTCReceiver.peerConnection x = Some p ->
  is_Some (remoteDescription p) ->
  signalingState p <> SsClosed ->
  let r := tryCatch (WebRTCReceiver.on_pc (pc_addIceCandidate c) ;;;
                     WebRTCReceiver.log LogInfo "Added queued ICE candidate")
                    (fun error => WebRTCReceiver.log LogError "Failed to add queued ICE candidate:")
                    x in
  fst r = Normal tt /\
  (exists p', WebRTCReceiver.peerConnection (snd r) = Some p' /\
              remoteCandidates p' = remoteCandidates p ++ (if wellFormed c then [c] else []) /\
              signalingState p' = signalingState p /\
              remoteDescription p' = remoteDescription p /\
              localDescription p' = localDescription p) /\
  WebRTCReceiver.pendingICECandidates (snd r) = WebRTCReceiver.pendingICECandidates x /\
  WebRTCReceiver.answers (snd r) = WebRTCReceiver.answers x.
Proof.
  intros Hp [rd Hrd] Hs. unfold WebRTCReceiver.on_pc, WebRTCReceiver.log.
  unfold tryCatch, bind, modify. rewrite Hp. unfold pc_addIceCandidate, wellFormed. rewrite Hrd.
  destruct (sdpMid c), (sdpMLineIndex c), (signalingState p) eqn:Hss; try congruence; cbn;
    (split; [reflexivity|]); (split; [|split; reflexivity]);
    first [ exists p; rewrite app_nil_r; rewrite ?Hss; solve [auto]
          | eexists; split; [reflexivity|]; cbn; rewrite ?Hss; solve [auto] ].
Qed.

Lemma flush_applies (l : list IceCandidateInit) (x : WebRTCReceiver.t) (p : RTCPeerConnection) :
  WebRTCReceiver.peerConnection x = Some p ->
  is_Some (remoteDescription p) ->
  signalingState p <> SsClosed ->
  let x' := snd (WebRTCReceiver.flush l x) in
  fst (WebRTCReceiver.flush l x) = Normal tt /\
  (exists p', WebRTCReceiver.peerConnection x' = Some p' /\
              remoteCandidates p' = remoteCandidates p ++ List.filter wellFormed l /\
              signalingState p' = signalingState p /\
              remoteDescription p' = remoteDescription p /\
              localDescription p' = localDescription p) /\
  WebRTCReceiver.pendingICECandidates x' = WebRTCReceiver.pendingICECandidates x /\
  WebRTCReceiver.answers x' = WebRTCReceiver.answers x.
Proof.
  revert x p. induction l as [|c l IH]; intros x p Hp Hrd Hs.
  - cbn. repeat split. exists p. rewrite app_nil_r. auto.
  - cbn [WebRTCReceiver.flush].
    destruct (flush_one c x p Hp Hrd Hs) as (K1 & (p1 & K2 & K3 & K4 & K5 & K6) & K7 & K8).
    unfold bind at 1 3 5 7.
    destruct (tryCatch _ _ x) as [[[]|e] x1]; [|discriminate K1]. cbn [fst snd] in *.
    destruct (IH x1 p1 K2) as (L1 & (p2 & L2 & L3 & L4 & L5 & L6) & L7 & L8);
      [rewrite K5; exact Hrd | rewrite K4; exact Hs |].
    split; [exact L1|]. split; [|split; congruence].
    exists p2. split; [exact L2|]. rewrite L3, K3, L4, L5, L6, K4, K5, K6, <- app_assoc.
    cbn [List.filter]. destruct (wellFormed c); auto.
Qed.

Lemma handleOffer_success (offer : SessionDescription) (text : string)
    (x : WebRTCReceiver.t) (p : RTCPeerConnection) :
  WebRTCReceiver.peerConnection x = Some p ->
  signalingState p = SsStable ->
  sdpType offer = SdpOffer ->
  let answer := {| sdpType := SdpAnswer; sdp := text |} in
  let x' := snd (WebRTCReceiver.handleOffer offer (Normal text) x) in
  exists p', WebRTCReceiver.peerConnection x' = Some p' /\
             remoteCandidates p' =
               remoteCandidates p ++ List.filter wellFormed (WebRTCReceiver.pendingICECandidates x) /\
             signalingState p' = SsStable /\
             remoteDescription p' = Some offer /\
             localDescription p' = Some answer /\
             WebRTCReceiver.pendingICECandidates x' = [] /\
             WebRTCReceiver.answers x' = WebRTCReceiver.answers x ++ [answer].
Proof.
  intros Hp Hs Ht. unfold WebRTCReceiver.handleOffer, WebRTCReceiver.on_pc,
    pc_setRemoteDescription, pc_setLocalDescription.
  rjs. rewrite Hp, Hs, Ht. cbn -[WebRTCReceiver.flush].
  destruct (WebRTCReceiver.pendingICECandidates x) as [|c l] eqn:Hq.
  - cbn. eexists. split; [reflexivity|]. cbn. rewrite app_nil_r. repeat split. exact Hq.
  - cbn -[WebRTCReceiver.flush List.filter].
    match goal with
    | |- context [WebRTCReceiver.flush (c :: l) ?y] =>
        destruct (flush_applies (c :: l) y
                    {| iceServers := iceServers p; connectionState := connectionState p;
                       signalingState := SsHaveRemoteOffer;
                       localDescription := localDescription p;
                       remoteDescription := Some offer;
                       remoteCandidates := remoteCandidates p |})
          as (K1 & (p2 & K2 & K3 & K4 & K5 & K6) & K7 & K8);
        [reflexivity | cbn; eauto | cbn; discriminate |];
        destruct (WebRTCReceiver.flush (c :: l) y) as [[[]|e] x2]; [|discriminate K1]
    end.
    cbn [fst snd] in *. cbn in K3, K4, K5, K6, K7, K8. cbn -[List.filter].
    rewrite K2, K4. cbn -[List.filter].
    eexists. split; [reflexivity|]. cbn -[List.filter]. rewrite K3, K8. repeat split.
    exact K5.
Qed.

(** [handleOffer] flushes the queue whether or not the answer can be
    created afterwards. *)
Lemma handleOffer_flushes (offer : SessionDescription) (createAnswer : Completion string)
    (x : WebRTCReceiver.t) (p : RTCPeerConnection) :
  WebRTCReceiver.peerConnection x = Some p ->
  signalingState p = SsStable ->
  sdpType offer = SdpOffer ->
  let x' := snd (WebRTCReceiver.handleOffer offer createAnswer x) in
  exists p', WebRTCReceiver.peerConnection x' = Some p' /\
             remoteCandidates p' =
               remoteCandidates p ++ List.filter wellFormed (WebRTCReceiver.pendingICECandidates x) /\
             remoteDescription p' = Some offer /\
             WebRTCReceiver.pendingICECandidates x' = [].
Proof.
  intros Hp Hs Ht. unfold WebRTCReceiver.handleOffer, WebRTCReceiver.on_pc,
    pc_setRemoteDescription, pc_setLocalDescription.
  rjs. rewrite Hp, Hs, Ht. cbn -[WebRTCReceiver.flush].
  destruct (WebRTCReceiver.pendingICECandidates x) as [|c l] eqn:Hq.
  - destruct createAnswer as [text|e]; cbn;
      (eexists; split; [reflexivity|]; cbn; rewrite app_nil_r; repeat split; exact Hq).
  - cbn -[WebRTCReceiver.flush List.filter].
    match goal with
    | |- context [WebRTCReceiver.flush (c :: l) ?y] =>
        destruct (flush_applies (c :: l) y
                    {| iceServers := iceServers p; connectionState := connectionState p;
                       signalingState := SsHaveRemoteOffer;
                       localDescription := localDescription p;
                       remoteDescription := Some offer;
                       remoteCandidates := remoteCandidates p |})
          as (K1 & (p2 & K2 & K3 & K4 & K5 & K6) & K7 & K8);
        [reflexivity | cbn; eauto | cbn; discriminate |];
        destruct (WebRTCReceiver.flush (c :: l) y) as [[[]|e] x2]; [|discriminate K1]
    end.
    cbn [fst snd] in *. cbn in K3, K4, K5, K6, K7, K8. cbn -[List.filter].
    destruct createAnswer as [text|e]; cbn -[List.filter].
    + rewrite K2, K4. cbn -[List.filter].
      eexists. split; [reflexivity|]. cbn -[List.filter]. rewrite K3. repeat split.
      exact K5.
    + exists p2. rewrite K2, K3, K5. repeat split.
Qed.

(** C5, as the specification states it, at a concrete input: the
    end-of-candidates indication of the browser, a candidate with an empty
    candidate line that carries its sdpMid.  It is not a no-op on either
    side: the dashboard's [onicecandidate] forwards it, and the dashboard's
    handler and the Electron receiver's handler (each with its remote
    description set) hand it to their peer connection. *)
Lemma C5_empty_candidate_not_ignored :
  let i := {| candidate := Some EmptyString; sdpMid := Some "0"; sdpMLineIndex := Some 0%N |} in
  let d := run [CreateConnection (NumId 1) (Normal "offer");
                HandleAnswer (NumId 1) {| sdpType := SdpAnswer; sdp := "answer" |}]
               webrtcController in
  let x := snd (WebRTCReceiver.handleOffer {| sdpType := SdpOffer; sdp := "offer" |}
                  (Normal "answer")
                  (snd (WebRTCReceiver.initialize WebRTCReceiver.constructor))) in
  electronAPI (snd (onicecandidate (NumId 1) (Some i) d)) =
    electronAPI d ++ [sendIceCandidate (NumId 1) i "to-popup"] /\
  remoteCandidates <$> (pc <$> heap d !! 0%nat) = Some [] /\
  remoteCandidates <$> (pc <$> heap (snd (handleIceCandidate (NumId 1) (Some i) d)) !! 0%nat)
    = Some [i] /\
  remoteCandidates <$> WebRTCReceiver.peerConnection x = Some [] /\
  remoteCandidates <$>
    WebRTCReceiver.peerConnection (snd (WebRTCReceiver.handleIceCandidate (Some i) x))
    = Some [i].
Proof. vm_compute. repeat split. Qed.

(** C5 (amended): the dashboard defers a remote candidate that arrives
    before the remote description, by a retry every 100 ms; a retry that
    still finds no remote description arms the next one, so the candidate
    is never dropped; the retry that finds the remote description adds the
    candidate to the peer connection.  The Electron receiver defers by a
    queue: a candidate that arrives before the remote description is
    appended to it, and [handleOffer] hands the queue to the peer
    connection, in order, once it has set the remote description.  What
    the handlers take for an end-of-candidates marker (null or undefined,
    or neither a candidate line nor an sdpMid) is a no-op in the
    dashboard's handler and in both receivers' handlers, and the dashboard
    forwards nothing for the null candidate of its own peer connection.  A
    candidate with an sdpMid is no such marker, whatever its candidate
    line, the empty one included: the dashboard forwards it and the
    handlers defer and apply it like any other. *)
Theorem C5_candidates_deferred_markers_ignored :
  (forall w c r k d,
      connections d !! w = Some r -> heap d !! r = Some k ->
      remoteDescription (pc k) = None -> ~ endOfCandidates c ->
      let d' := snd (handleIceCandidate w c d) in
      fst (handleIceCandidate w c d) = Normal tt /\
      timers d' !! nextTimer d = Some (retry w c) /\
      (forall id, id <> nextTimer d -> timers d' !! id = timers d !! id) /\
      heap d' = heap d /\ connections d' = connections d) /\
  (forall id f w c r k d,
      timers d !! id = Some (retry w c) ->
      connections d !! w = Some r -> heap d !! r = Some k ->
      remoteDescription (pc k) = None -> ~ endOfCandidates c ->
      let d' := snd (fireTimer id f d) in
      timers d' !! nextTimer d = Some (retry w c) /\ heap d' = heap d) /\
  (forall id f w i r k d,
      timers d !! id = Some (retry w (Some i)) ->
      connections d !! w = Some r -> heap d !! r = Some k ->
      is_Some (remoteDescription (pc k)) -> signalingState (pc k) <> SsClosed ->
      ~ endOfCandidates (Some i) ->
      is_Some (sdpMid i) \/ is_Some (sdpMLineIndex i) ->
      exists k', heap (snd (fireTimer id f d)) !! r = Some k' /\
                 remoteCandidates (pc k') = remoteCandidates (pc k) ++ [i]) /\
  (forall c, endOfCandidates c ->
      (forall w d, handleIceCandidate w c d = (Normal tt, d)) /\
      (forall x,
          fst (WebRTCReceiver.handleIceCandidate c x) = Normal tt /\
          WebRTCReceiver.peerConnection (snd (WebRTCReceiver.handleIceCandidate c x))
            = WebRTCReceiver.peerConnection x /\
          WebRTCReceiver.pendingICECandidates (snd (WebRTCReceiver.handleIceCandidate c x))
            = WebRTCReceiver.pendingICECandidates x) /\
      (forall x,
          fst (SocketReceiver.handleIceCandidate c x) = Normal tt /\
          SocketReceiver.peerConnection (snd (SocketReceiver.handleIceCandidate c x))
            = SocketReceiver.peerConnection x)) /\
  (forall w d, onicecandidate w None d = (Normal tt, d)) /\
  (forall i x p,
      WebRTCReceiver.peerConnection x = Some p -> remoteDescription p = None ->
      ~ endOfCandidates (Some i) ->
      let x' := snd (WebRTCReceiver.handleIceCandidate (Some i) x) in
      fst (WebRTCReceiver.handleIceCandidate (Some i) x) = Normal tt /\
      WebRTCReceiver.pendingICECandidates x' = WebRTCReceiver.pendingICECandidates x ++ [i] /\
      WebRTCReceiver.peerConnection x' = Some p) /\
  (forall offer createAnswer x p,
      WebRTCReceiver.peerConnection x = Some p -> signalingState p = SsStable ->
      sdpType offer = SdpOffer ->
      let x' := snd (WebRTCReceiver.handleOffer offer createAnswer x) in
      exists p',
        WebRTCReceiver.peerConnection x' = Some p' /\
        remoteDescription p' = Some offer /\
        remoteCandidates p' =
          remoteCandidates p ++ List.filter wellFormed (WebRTCReceiver.pendingICECandidates x) /\
        WebRTCReceiver.pendingICECandidates x' = []) /\
  (forall i, falsy (sdpMid i) = false ->
      ~ endOfCandidates (Some i) /\
      (forall w d,
          electronAPI (snd (onicecandidate w (Some i) d)) =
            electronAPI d ++ [if isBrowserClient w
                              then sendIceToBrowserClient w i
                              else sendIceCandidate w i "to-popup"]) /\
      (forall w r k d,
          connections d !! w = Some r -> heap d !! r = Some k ->
          is_Some (remoteDescription (pc k)) -> signalingState (pc k) <> SsClosed ->
          exists k', heap (snd (handleIceCandidate w (Some i) d)) !! r = Some k' /\
                     remoteCandidates (pc k') = remoteCandidates (pc k) ++ [i]) /\
      (forall x p,
          WebRTCReceiver.peerConnection x = Some p ->
          is_Some (remoteDescription p) -> signalingState p <> SsClosed ->
          exists p',
            WebRTCReceiver.peerConnection (snd (WebRTCReceiver.handleIceCandidate (Some i) x))
              = Some p' /\
            remoteCandidates p' = remoteCandidates p ++ [i])).
Proof.
  assert (forall i, falsy (sdpMid i) = false -> emptyCandidate (Some i) = false) as Hmid.
  { intros i Hi. cbn. rewrite Hi. apply andb_false_r. }
  assert (forall i, falsy (sdpMid i) = false -> is_Some (sdpMid i)) as Hsome.
  { intros i Hi. destruct (sdpMid i); [eauto | discriminate Hi]. }
  split; [|split; [|split; [|split; [|split; [|split; [|split]]]]]].
  - intros w c r k d Hw Hr Hrd Hc d'. subst d'.
    rewrite (handleIceCandidate_defers w c r k d Hw Hr Hrd (not_endOfCandidates c Hc)).
    cbn. split; [reflexivity|]. split; [apply lookup_insert_eq|].
    split; [|split; reflexivity]. intros id Hid. apply lookup_insert_ne. congruence.
  - intros id f w c r k d Ht Hw Hr Hrd Hc d'. subst d'.
    rewrite (fireTimer_timeout id (retry w c) f d Ht eq_refl). cbn [runTask task retry].
    rewrite (handleIceCandidate_defers w c r k (set_timers (delete id) d)
               Hw Hr Hrd (not_endOfCandidates c Hc)).
    cbn. split; [apply lookup_insert_eq | reflexivity].
  - intros id f w i r k d Ht Hw Hr Hrd Hs Hc Hi.
    rewrite (fireTimer_timeout id (retry w (Some i)) f d Ht eq_refl). cbn [runTask task retry].
    destruct (handleIceCandidate_applies w i r k (set_timers (delete id) d)
                Hw Hr Hrd Hs (not_endOfCandidates _ Hc) Hi) as (k' & -> & Hk' & _).
    exists k'. cbn. split; [apply lookup_insert_eq | exact Hk'].
  - intros c Hc. split; [|split].
    + intros w d. apply handleIceCandidate_marker, Hc.
    + intros x. destruct (WebRTCReceiver_marker c x Hc) as (H1 & H2 & H3 & _). auto.
    + intros x. apply SocketReceiver_marker, Hc.
  - intros w d. reflexivity.
  - intros i x p Hp Hrd Hc x'. subst x'.
    apply not_endOfCandidates in Hc. cbn in Hc.
    unfold WebRTCReceiver.handleIceCandidate. rjs.
    rewrite Hp. cbn. rewrite Hc, Hrd. cbn. repeat split. exact Hp.
  - intros offer createAnswer x p Hp Hs Ht x'.
    destruct (handleOffer_flushes offer createAnswer x p Hp Hs Ht) as (p' & K1 & K2 & K3 & K4).
    exists p'. auto.
  - intros i Hi. split; [|split; [|split]].
    + intros Hc. apply emptyCandidate_spec in Hc. rewrite (Hmid i Hi) in Hc. discriminate Hc.
    + intros w d. unfold onicecandidate. destruct i as [line mid index].
      destruct (isBrowserClient w); reflexivity.
    + intros w r k d Hw Hr Hrd Hs.
      destruct (handleIceCandidate_applies w i r k d Hw Hr Hrd Hs (Hmid i Hi)
                  (or_introl (Hsome i Hi))) as (k' & -> & Hk' & _).
      exists k'. cbn. split; [apply lookup_insert_eq | exact Hk'].
    + intros x p Hp Hrd Hs.
      destruct (flush_one i x p Hp Hrd Hs) as (_ & (p' & K1 & K2 & _) & _).
      assert (wellFormed i = true) as Hwf.
      { unfold wellFormed. destruct (Hsome i Hi) as [m ->]. reflexivity. }
      rewrite Hwf in K2.
      pose proof (Hmid i Hi) as He. cbn in He.
      revert K1. unfold WebRTCReceiver.handleIceCandidate, WebRTCReceiver.on_pc. rjs.
      rewrite Hp. cbn. rewrite He. destruct Hrd as [rd Hrd]. rewrite Hrd. cbn. rewrite Hp.
      destruct (pc_addIceCandidate i p); cbn; intros K1; exists p'; auto.
Qed.

(** The scenario behind C5: the candidate of window 1 arrives before the
    answer and waits in a retry; the retry that comes due before the answer
    arms the next one; the retry that comes due after the answer adds the
    candidate.  The Electron receiver queues the browser's
    end-of-candidates indication like any candidate. *)
Lemma C5_candidates_deferred_witness :
  let i := {| candidate := Some "candidate:1 1 udp 2122260223 192.168.1.7 50000 typ host";
              sdpMid := Some "0"; sdpMLineIndex := Some 0%N |} in
  let last := {| candidate := Some EmptyString; sdpMid := Some "0";
                 sdpMLineIndex := Some 0%N |} in
  let answer := {| sdpType := SdpAnswer; sdp := "answer" |} in
  let d0 := run [CreateConnection (NumId 1) (Normal "offer")] webrtcController in
  let d1 := run [HandleIceCandidate (NumId 1) (Some i)] d0 in
  let d2 := run [FireTimer 0%nat None] d1 in
  let d3 := run [HandleAnswer (NumId 1) answer] d2 in
  let x0 := snd (WebRTCReceiver.initialize WebRTCReceiver.constructor) in
  timers d1 !! 0%nat = Some (retry (NumId 1) (Some i)) /\
  timers d2 !! 1%nat = Some (retry (NumId 1) (Some i)) /\
  (exists k', heap (snd (fireTimer 1%nat None d3)) !! 0%nat = Some k' /\
              remoteCandidates (pc k') = [i]) /\
  handleIceCandidate (NumId 1) None d0 = (Normal tt, d0) /\
  WebRTCReceiver.pendingICECandidates
    (snd (WebRTCReceiver.handleIceCandidate (Some last) x0)) = [last].
Proof.
  intros i last answer d0 d1 d2 d3 x0.
  destruct C5_candidates_deferred_markers_ignored
    as (Hdefer & Hrearm & Happly & Hmarker & _ & Hqueue & _ & Hmid).
  pose (k0 := {| pc := {| iceServers := []; connectionState := CsNew;
                          signalingState := SsHaveLocalOffer;
                          localDescription := Some {| sdpType := SdpOffer; sdp := "offer" |};
                          remoteDescription := None;
                          remoteCandidates := [] |};
                 audioChannel := createDataChannel "audioData" false (Some 0%N);
                 controlChannel := createDataChannel "control" true None;
                 pc_controlChannel := false;
                 audioChannelInterval := None |}).
  assert (~ endOfCandidates (Some i)) as Hi.
  { intros [H | (i' & [= <-] & [H|H] & _)]; discriminate H. }
  split; [|split; [|split; [|split]]].
  - apply (Hdefer (NumId 1) (Some i) 0%nat k0 d0); try (vm_compute; reflexivity). exact Hi.
  - apply (Hrearm 0%nat None (NumId 1) (Some i) 0%nat k0 d1);
      try (vm_compute; reflexivity). exact Hi.
  - refine (Happly 1%nat None (NumId 1) i 0%nat
              (with_pc (fun p => {| iceServers := []; connectionState := CsNew;
                                    signalingState := SsStable;
                                    localDescription := localDescription p;
                                    remoteDescription := Some answer;
                                    remoteCandidates := [] |}) k0) d3 _ _ _ _ _ Hi _).
    + vm_compute. reflexivity.
    + vm_compute. reflexivity.
    + vm_compute. reflexivity.
    + cbn. eauto.
    + cbn. discriminate.
    + left. cbn. eauto.
  - apply Hmarker. left. reflexivity.
  - destruct (Hmid last eq_refl) as (Hlast & _).
    destruct (Hqueue last x0 (new_RTCPeerConnection WEBRTC_CONFIG) eq_refl eq_refl Hlast)
      as (_ & H & _).
    exact H.
Defined.

(** What is not a marker for the handlers: an empty candidate line that
    carries an sdpMid goes on to [addIceCandidate]. *)
Remark empty_line_with_mid_is_applied :
  let i := {| candidate := Some EmptyString; sdpMid := Some "0"; sdpMLineIndex := Some 0%N |} in
  let answer := {| sdpType := SdpAnswer; sdp := "answer" |} in
  let d := run [CreateConnection (NumId 1) (Normal "offer");
                HandleAnswer (NumId 1) answer;
                HandleIceCandidate (NumId 1) (Some i)] webrtcController in
  emptyCandidate (Some i) = false /\
  remoteCandidates <$> (pc <$> heap d !! 0%nat) = Some [i].
Proof. vm_compute. split; reflexivity. Qed.

(** The browser receiver has no queue: it hands every candidate to
    [addIceCandidate] at once, and logs the rejection of one that comes
    before the offer. *)
Remark SocketReceiver_applies_at_once :
  let i := {| candidate := Some "candidate:1 1 udp 2122260223 192.168.1.7 50000 typ host";
              sdpMid := Some "0"; sdpMLineIndex := Some 0%N |} in
  let x0 := snd (SocketReceiver.initialize SocketReceiver.constructor) in
  let x1 := snd (SocketReceiver.handleIceCandidate (Some i) x0) in
  fst (SocketReceiver.handleIceCandidate (Some i) x0) = Normal tt /\
  SocketReceiver.peerConnection x1 = SocketReceiver.peerConnection x0 /\
  last (SocketReceiver.console x1) =
    Some {| level := LogError; message := "Failed to add ICE candidate:" |}.
Proof. vm_compute. repeat split. Qed.

(** The Electron receiver queues instead, and [handleOffer] flushes the
    queue into the peer connection. *)
Remark WebRTCReceiver_queues_and_flushes :
  let i := {| candidate := Some "candidate:1 1 udp 2122260223 192.168.1.7 50000 typ host";
              sdpMid := Some "0"; sdpMLineIndex := Some 0%N |} in
  let x1 := snd (WebRTCReceiver.handleIceCandidate (Some i)
                   (snd (WebRTCReceiver.initialize WebRTCReceiver.constructor))) in
  let x2 := snd (WebRTCReceiver.handleOffer {| sdpType := SdpOffer; sdp := "offer" |}
                   (Normal "answer") x1) in
  WebRTCReceiver.pendingICECandidates x1 = [i] /\
  WebRTCReceiver.pendingICECandidates x2 = [] /\
  remoteCandidates <$> WebRTCReceiver.peerConnection x2 = Some [i].
Proof. vm_compute. repeat split. Qed.

(** ** Frame cadence *)

(** The interval set when the audio channel opens. *)
Lemma audioChannelOpens_fallback (r : PcRef) (w : WindowId) (d : Dashboard) :
  analyser (microphoneManager d) = None \/ audioContext (microphoneManager d) = None ->
  timers (snd (audioChannelOpens r w d)) !! nextTimer d = Some (interval r (1000 / 60)%Q).
Proof.
  intros H. unfold audioChannelOpens, audioChannel_onopen, startAudioSending. js.
  destruct (analyser (microphoneManager d)) as [a|],
           (audioContext (microphoneManager d)) as [ctx|];
    try (destruct H as [H|H]; discriminate H); cbn; apply lookup_insert_eq.
Qed.

Lemma audioChannelOpens_capture (r : PcRef) (w : WindowId) (d : Dashboard)
    (a : AnalyserNode) (ctx : AudioContext) :
  analyser (microphoneManager d) = Some a ->
  audioContext (microphoneManager d) = Some ctx ->
  timers (snd (audioChannelOpens r w d)) !! nextTimer d =
    Some (interval r
            ((inject_Z (Z.of_N (fftSize a)) / inject_Z (Z.pos (sampleRate ctx))) * 1000)%Q).
Proof.
  intros Ha Hc. unfold audioChannelOpens, audioChannel_onopen, startAudioSending. js.
  rewrite Ha, Hc. cbn. apply lookup_insert_eq.
Qed.

Lemma audioChannelOpens_interval (r : PcRef) (w : WindowId) (d : Dashboard) :
  exists ms, timers (snd (audioChannelOpens r w d)) !! nextTimer d = Some (interval r ms).
Proof.
  destruct (analyser (microphoneManager d)) as [a|] eqn:Ha.
  - destruct (audioContext (microphoneManager d)) as [ctx|] eqn:Hc.
    + eexists. apply (audioChannelOpens_capture r w d a ctx Ha Hc).
    + eexists. apply audioChannelOpens_fallback. auto.
  - eexists. apply audioChannelOpens_fallback. auto.
Qed.

(** [start] returns a stream only if [getUserMedia] delivered it, and then
    leaves an analyser of 2048 samples and an audio context behind. *)
Lemma start_installs_analyser (dev : string) (env : MediaEnv) (s : MediaStream)
    (d : Dashboard) :
  fst (start dev env d) = Normal s ->
  let m := microphoneManager (snd (start dev env d)) in
  getUserMedia env = Normal s /\
  (exists a, analyser m = Some a /\ fftSize a = 2048%N) /\
  (exists ctx, audioContext m = Some ctx /\
               (audioContext (microphoneManager d) = None ->
                sampleRate ctx = AUDIO_CONFIG_sampleRate)) /\
  stream m = Some s /\ isEnabled m = true /\ selectedDeviceId m = dev.
Proof.
  unfold start. js. destruct (getUserMedia env) as [s'|e]; cbn; [|discriminate].
  destruct (audioContext (microphoneManager d)) as [ctx|] eqn:Hctx; cbn; rewrite ?Hctx; cbn.
  - destruct (suspended ctx); cbn;
      [destruct (resume env); cbn; [discriminate|]|];
      (destruct (createMediaStreamSource env); cbn; [discriminate|]);
      intros [= ->]; repeat split; eauto; eexists; split; eauto; discriminate.
  - destruct (new_AudioContext env); cbn; [discriminate|].
    destruct (startsSuspended env); cbn;
      [destruct (resume env); cbn; [discriminate|]|];
      (destruct (createMediaStreamSource env); cbn; [discriminate|]);
      intros [= ->]; repeat split; eauto.
Qed.

(** The stream is returned whenever the media stack raises nothing. *)
Lemma start_returns (dev : string) (env : MediaEnv) (s : MediaStream) (d : Dashboard) :
  getUserMedia env = Normal s ->
  new_AudioContext env = None -> resume env = None ->
  createMediaStreamSource env = None ->
  fst (start dev env d) = Normal s.
Proof.
  intros Hs Hn Hr Hc. unfold start. js. rewrite Hs. cbn.
  destruct (audioContext (microphoneManager d)) as [ctx|] eqn:Hctx; cbn;
    rewrite ?Hn, ?Hctx; cbn.
  - destruct (suspended ctx); cbn; rewrite ?Hr; cbn; rewrite Hc; reflexivity.
  - destruct (startsSuspended env); cbn; rewrite ?Hr; cbn; rewrite Hc; reflexivity.
Qed.

(** C6 at a concrete input: the audio channel of window 1 opens before
    there is a microphone, then the microphone starts and the controller is
    told so ([updateMicrophoneStream]).  The capture source is active, and
    the frame timer still runs at the fallback 1000/60 ms, not at
    (2048 / 48000) * 1000 ms: the interval does not adapt, against the
    claim and against the comment of [updateMicrophoneStream]. *)
Lemma C6_cadence_not_recomputed :
  let env := {| getUserMedia := Normal {| streamId := "mic"; trackIds := ["track 0"] |};
                startsSuspended := false;
                new_AudioContext := None; resume := None;
                createMediaStreamSource := None |} in
  let d := run [CreateConnection (NumId 1) (Normal "offer");
                AudioChannelOpens 0%nat (NumId 1);
                Start "default" env;
                UpdateMicrophoneStream;
                FireTimer 0%nat None] webrtcController in
  (exists a ctx, analyser (microphoneManager d) = Some a /\
                 audioContext (microphoneManager d) = Some ctx /\
                 fftSize a = 2048%N /\ sampleRate ctx = 48000%positive /\
                 isEnabled (microphoneManager d) = true) /\
  exists t, timers d !! 0%nat = Some t /\ task t = SendAnalysisData 0%nat /\
            (delay t == 1000 / 60)%Q /\
            ~ (delay t == (2048 / 48000) * 1000)%Q.
Proof.
  intros env d. split.
  - vm_compute. do 2 eexists. repeat split.
  - exists (interval 0%nat (1000 / 60)%Q). split; [vm_compute; reflexivity|].
    split; [reflexivity|]. split; [reflexivity|]. vm_compute. discriminate.
Qed.

(** What [startAudioSending] does in general: the frame timer interval is
    chosen once, when the audio channel opens: the fallback 1000/60 ms if no
    analyser or no audio context exists at that moment,
    (fftSize / sampleRate) * 1000 ms otherwise, where the analyser that a
    successful [start] installs has fftSize 2048.  Nothing recomputes the
    interval afterwards: the timer keeps the delay it was armed with through
    every later event, a capture source becoming available included. *)
Theorem cadence_fixed_at_open (r : PcRef) (w : WindowId) (d : Dashboard) :
  let d' := snd (audioChannelOpens r w d) in
  (analyser (microphoneManager d) = None \/ audioContext (microphoneManager d) = None ->
   timers d' !! nextTimer d = Some (interval r (1000 / 60)%Q)) /\
  (forall a ctx,
      analyser (microphoneManager d) = Some a ->
      audioContext (microphoneManager d) = Some ctx ->
      timers d' !! nextTimer d =
        Some (interval r
                ((inject_Z (Z.of_N (fftSize a)) / inject_Z (Z.pos (sampleRate ctx))) * 1000)%Q)) /\
  (forall dev env s d0,
      fst (start dev env d0) = Normal s ->
      exists a, analyser (microphoneManager (snd (start dev env d0))) = Some a /\
                fftSize a = 2048%N) /\
  (wf d ->
   forall es, timers (run es d') !! nextTimer d = timers d' !! nextTimer d).
Proof.
  intros d'. split; [apply audioChannelOpens_fallback|].
  split; [apply audioChannelOpens_capture|]. split.
  - intros dev env s d0 Hs. apply (start_installs_analyser dev env s d0 Hs).
  - intros Hwf es. destruct (audioChannelOpens_interval r w d) as [ms Hms].
    fold d' in Hms. rewrite Hms.
    apply interval_persists; [reflexivity | | exact Hms].
    apply (wf_step d (AudioChannelOpens r w)), Hwf.
Qed.

(** The same on two runs: the channel opens before and after the
    microphone has started. *)
Lemma cadence_fixed_at_open_witness :
  let env := {| getUserMedia := Normal {| streamId := "mic"; trackIds := ["track 0"] |};
                startsSuspended := false;
                new_AudioContext := None; resume := None;
                createMediaStreamSource := None |} in
  let d0 := run [CreateConnection (NumId 1) (Normal "offer")] webrtcController in
  let d := run [Start "default" env] d0 in
  let d0' := snd (audioChannelOpens 0%nat (NumId 1) d0) in
  let d' := snd (audioChannelOpens 0%nat (NumId 1) d) in
  timers d0' !! 0%nat = Some (interval 0%nat (1000 / 60)%Q) /\
  timers d' !! 1%nat = Some (interval 0%nat ((2048 / 48000) * 1000)%Q) /\
  timers (run [Start "default" env; FireTimer 0%nat None] d0') !! 0%nat = timers d0' !! 0%nat /\
  timers (run [Stop; FireTimer 1%nat None] d') !! 1%nat = timers d' !! 1%nat.
Proof.
  intros env d0 d d0' d'.
  destruct (cadence_fixed_at_open 0%nat (NumId 1) d0) as (Hfall & _ & _ & Hfix0).
  destruct (cadence_fixed_at_open 0%nat (NumId 1) d) as (_ & Hcap & _ & Hfix).
  split; [|split; [|split]].
  - apply Hfall. left. vm_compute. reflexivity.
  - apply (Hcap {| fftSize := 2048; smoothingTimeConstant := 3 # 10;
                   timeDomainData := repeat x80 2048 |}
                {| sampleRate := 48000; suspended := false |});
      vm_compute; reflexivity.
  - apply (Hfix0 (wf_run _ _ (wf_initial _ _))
                 [Start "default" env; FireTimer 0%nat None]).
  - apply (Hfix (wf_run _ _ (wf_run _ _ (wf_initial _ _))) [Stop; FireTimer 1%nat None]).
Defined.

(** ** Frame emission *)


(** What one tick sends on an open channel. *)
Lemma sendAnalysisData_open (r : PcRef) (d : Dashboard) (k : Connection) :
  heap d !! r = Some k ->
  readyState (audioChannel k) = RsOpen ->
  let frame :=
    match analyser (microphoneManager d) with
    | Some a => getByteTimeDomainData a (Uint8Array (fftSize a))
    | None => repeat x80 2048
    end in
  sendAnalysisData r None d =
    (Normal tt, set_heap <[r := with_audioChannel (fun _ => with_sent (Binary frame)
                                                              (audioChannel k)) k]> d).
Proof.
  intros Hr Hrs. unfold sendAnalysisData, audioChannel_send, dc_send. js.
  rewrite Hr, Hrs. destruct (analyser (microphoneManager d)); cbn; rewrite Hr, Hrs; reflexivity.
Qed.




(** ** Control messages *)

Example JSON_stringify_presetChange :
  JSON_stringify (presetChange "Geiss - Reaction Diffusion 2") =
  String "{" (quoteString "type" ++ ":" ++ quoteString "preset-change" ++ "," ++
              quoteString "preset" ++ ":" ++ quoteString "Geiss - Reaction Diffusion 2"
              ++ "}")%string.
Proof. vm_compute. reflexivity. Qed.

Lemma sendControlMessage_not_ready (w : WindowId) (m : JsonValue) (f : option Exn)
    (d : Dashboard) :
  (forall r k, ~ controlReady d w r k) ->
  sendControlMessage w m f d = (Normal false, d).
Proof.
  intros H. unfold sendControlMessage. js.
  destruct (connections d !! w) as [r|] eqn:Hw; [|reflexivity]. cbn.
  destruct (heap d !! r) as [k|] eqn:Hr; [|reflexivity].
  destruct (pc_controlChannel k) eqn:Hp; [|reflexivity]. cbn.
  destruct (bool_decide (readyState (controlChannel k) = RsOpen)) eqn:Hrs; [|reflexivity].
  exfalso. apply (H r k). apply bool_decide_eq_true in Hrs. repeat split; assumption.
Qed.

Lemma sendControlMessage_ready (w : WindowId) (m : JsonValue) (f : option Exn)
    (d : Dashboard) (r : PcRef) (k : Connection) :
  controlReady d w r k ->
  sendControlMessage w m f d =
    match f with
    | None =>
        (Normal true,
         set_heap <[r := with_controlChannel
                           (fun _ => with_sent (Text (JSON_stringify m)) (controlChannel k)) k]> d)
    | Some e =>
        (Normal false,
         set_console (fun c => c ++ [{| level := LogError;
                                        message := "Failed to send control message:" |}]) d)
    end.
Proof.
  intros (Hw & Hr & Hp & Hrs). unfold sendControlMessage, controlChannel_send, dc_send.
  js_unfold. cbn -[JSON_stringify]. rewrite Hw. cbn -[JSON_stringify]. rewrite Hr, Hp, Hrs.
  rewrite bool_decide_eq_true_2 by reflexivity.
  cbn -[JSON_stringify]. rewrite ?Hr, ?Hrs. destruct f; reflexivity.
Qed.

(** C8: [sendControlMessage] returns false, and never throws, when the
    session is absent, when no control channel is stored on the connection,
    or when that channel is not open; with the channel ready it sends the
    JSON text of the command on the control channel and returns true. *)
Theorem C8_sendControlMessage (w : WindowId) (m : JsonValue) (d : Dashboard) :
  (forall f, completed (fst (sendControlMessage w m f d)) = true) /\
  (forall f, connections d !! w = None ->
             sendControlMessage w m f d = (Normal false, d)) /\
  (forall f r k, connections d !! w = Some r -> heap d !! r = Some k ->
                 pc_controlChannel k = false \/ readyState (controlChannel k) <> RsOpen ->
                 sendControlMessage w m f d = (Normal false, d)) /\
  (forall r k, controlReady d w r k ->
               exists k',
                 sendControlMessage w m None d = (Normal true, set_heap <[r := k']> d) /\
                 sent (controlChannel k') = sent (controlChannel k) ++ [Text (JSON_stringify m)] /\
                 audioChannel k' = audioChannel k /\ pc k' = pc k).
Proof.
  split; [|split; [|split]].
  - intros f.
    destruct (connections d !! w) as [r|] eqn:Hw.
    + destruct (heap d !! r) as [k|] eqn:Hr.
      * destruct (pc_controlChannel k) eqn:Hp.
        -- destruct (decide (readyState (controlChannel k) = RsOpen)) as [Hrs|Hrs].
           ++ rewrite (sendControlMessage_ready w m f d r k); [destruct f; reflexivity|].
              repeat split; assumption.
           ++ rewrite sendControlMessage_not_ready; [reflexivity|].
              intros r' k' (Hw' & Hr' & _ & Hrs'). congruence.
        -- rewrite sendControlMessage_not_ready; [reflexivity|].
           intros r' k' (Hw' & Hr' & Hp' & _). congruence.
      * rewrite sendControlMessage_not_ready; [reflexivity|].
        intros r' k' (Hw' & Hr' & _). congruence.
    + rewrite sendControlMessage_not_ready; [reflexivity|].
      intros r' k' (Hw' & _). congruence.
  - intros f Hw. apply sendControlMessage_not_ready.
    intros r k (Hw' & _). congruence.
  - intros f r k Hw Hr H. apply sendControlMessage_not_ready.
    intros r' k' (Hw' & Hr' & Hp' & Hrs').
    assert (r' = r) as -> by congruence. assert (k' = k) as -> by congruence.
    destruct H as [H|H]; congruence.
  - intros r k H. rewrite (sendControlMessage_ready w m None d r k H).
    eexists. split; [reflexivity|]. repeat split.
Qed.

(** C8 on a run: an unknown window, window 1 before its control channel
    has opened, and window 1 after. *)
Lemma C8_sendControlMessage_witness :
  let d0 := run [CreateConnection (NumId 1) (Normal "offer")] webrtcController in
  let d := run [ControlChannelOpens 0%nat] d0 in
  fst (sendControlMessage (NumId 2) (presetChange "X") None d) = Normal false /\
  sendControlMessage (NumId 1) (presetChange "X") None d0 = (Normal false, d0) /\
  fst (sendControlMessage (NumId 1) (presetChange "X") None d) = Normal true.
Proof.
  intros d0 d.
  destruct (C8_sendControlMessage (NumId 2) (presetChange "X") d) as (_ & Habsent & _).
  destruct (C8_sendControlMessage (NumId 1) (presetChange "X") d0) as (_ & _ & Hclosed & _).
  destruct (C8_sendControlMessage (NumId 1) (presetChange "X") d) as (_ & _ & _ & Hready).
  pose (k0 := {| pc := {| iceServers := []; connectionState := CsNew;
                          signalingState := SsHaveLocalOffer;
                          localDescription := Some {| sdpType := SdpOffer; sdp := "offer" |};
                          remoteDescription := None;
                          remoteCandidates := [] |};
                 audioChannel := createDataChannel "audioData" false (Some 0%N);
                 controlChannel := createDataChannel "control" true None;
                 pc_controlChannel := false;
                 audioChannelInterval := None |}).
  split; [|split].
  - rewrite (Habsent None); [reflexivity|]. vm_compute. reflexivity.
  - apply (Hclosed None 0%nat k0); try (vm_compute; reflexivity). left. reflexivity.
  - destruct (Hready 0%nat
                (with_pc_controlChannel true
                   (with_controlChannel (with_readyState RsOpen) k0))) as (k' & -> & _).
    + repeat split; vm_compute; reflexivity.
    + reflexivity.
Defined.

(** ** Signaling routes *)

Lemma isBrowserClient_spec (w : WindowId) :
  isBrowserClient w = true <-> hasSeparator w.
Proof.
  unfold hasSeparator. destruct w as [n|s]; cbn [isBrowserClient].
  - split; [discriminate | intros (a & b & H); discriminate H].
  - rewrite includes_dash. split.
    + intros (a & b & ->). eauto.
    + intros (a & b & [= ->]). eauto.
Qed.

(** C9: the route is decided by the form of the id alone.  The offer of
    [createConnection] and every candidate the peer connection discovers go
    out through the relay adapter (the browser-client calls) when the id is
    a string that has a '-' in it, and through the local adapter otherwise;
    in either case exactly one call is made, so nothing goes through the
    other adapter. *)
Theorem C9_routing_by_id_format (w : WindowId) (d : Dashboard) :
  (hasSeparator w ->
   (forall text,
       electronAPI (snd (createConnection w (Normal text) d)) =
       electronAPI d ++ [sendOfferToBrowserClient w {| sdpType := SdpOffer; sdp := text |}]) /\
   (forall c,
       electronAPI (snd (onicecandidate w (Some c) d)) =
       electronAPI d ++ [sendIceToBrowserClient w c])) /\
  (~ hasSeparator w ->
   (forall text,
       electronAPI (snd (createConnection w (Normal text) d)) =
       electronAPI d ++ [sendOffer w {| sdpType := SdpOffer; sdp := text |}]) /\
   (forall c,
       electronAPI (snd (onicecandidate w (Some c) d)) =
       electronAPI d ++ [sendIceCandidate w c "to-popup"])).
Proof.
  split; intros H.
  - apply isBrowserClient_spec in H. split.
    + intros text. destruct (createConnection_ok w text d) as (_ & _ & _ & _ & Hapi & _).
      rewrite Hapi, H. reflexivity.
    + intros [c1 c2 c3]. unfold onicecandidate. rewrite H. reflexivity.
  - assert (isBrowserClient w = false) as Hb.
    { destruct (isBrowserClient w) eqn:E; [|reflexivity].
      exfalso. apply H, isBrowserClient_spec, E. }
    split.
    + intros text. destruct (createConnection_ok w text d) as (_ & _ & _ & _ & Hapi & _).
      rewrite Hapi, Hb. reflexivity.
    + intros [c1 c2 c3]. unfold onicecandidate. rewrite Hb. reflexivity.
Qed.

(** C9 for a client id with separators, a window number, and a string
    without separator. *)
Lemma C9_routing_by_id_format_witness :
  let offer := {| sdpType := SdpOffer; sdp := "offer" |} in
  electronAPI (snd (createConnection (StrId "abc-123-uuid") (Normal "offer") webrtcController))
    = [sendOfferToBrowserClient (StrId "abc-123-uuid") offer] /\
  electronAPI (snd (createConnection (NumId 1) (Normal "offer") webrtcController))
    = [sendOffer (NumId 1) offer] /\
  electronAPI (snd (createConnection (StrId "1") (Normal "offer") webrtcController))
    = [sendOffer (StrId "1") offer].
Proof.
  intros offer. split; [|split].
  - destruct (C9_routing_by_id_format (StrId "abc-123-uuid") webrtcController) as [H _].
    apply H. exists "abc", "123-uuid". reflexivity.
  - destruct (C9_routing_by_id_format (NumId 1) webrtcController) as [_ H].
    apply H. intros (a & b & E). discriminate E.
  - destruct (C9_routing_by_id_format (StrId "1") webrtcController) as [_ H].
    apply H. intros (a & b & E). injection E as E.
    destruct a as [|c [|c' a]]; cbn in E; discriminate E.
Defined.

(** ** Stopping the microphone *)



(** The same on a run: the microphone is started and stopped, the audio
    graph then delivers a window, and the next tick sends that window. *)
Remark stopped_microphone_still_streams :
  let env := {| getUserMedia := Normal {| streamId := "mic"; trackIds := ["track 0"] |};
                startsSuspended := false;
                new_AudioContext := None; resume := None;
                createMediaStreamSource := None |} in
  let window := repeat x7f 2048 in
  let d := run [CreateConnection (NumId 1) (Normal "offer");
                AudioChannelOpens 0%nat (NumId 1);
                Start "default" env;
                Stop;
                AudioProcess window;
                FireTimer 0%nat None] webrtcController in
  isEnabled (microphoneManager d) = false /\
  stream (microphoneManager d) = None /\
  stoppedTracks d = ["track 0"] /\
  sent <$> (audioChannel <$> heap d !! 0%nat) = Some [Binary window].
Proof. vm_compute. repeat split. Qed.

(** * Further properties of the dashboard *)

(** ** A failed offer *)

(** When the browser rejects [createOffer], [createConnection] logs and
    rethrows the very error; no session is registered, no offer is sent and
    no timer is set.  The peer connection it had built is left behind,
    unregistered. *)
Theorem createConnection_failure_rethrows (w : WindowId) (e : Exn) (d : Dashboard) :
  let d' := snd (createConnection w (Abrupt e) d) in
  fst (createConnection w (Abrupt e) d) = Abrupt e /\
  connections d' = connections d /\
  electronAPI d' = electronAPI d /\
  timers d' = timers d /\
  console d' = console d ++ [{| level := LogError; message := "Failed to create connection:" |}] /\
  (forall r, r <> nextPc d -> heap d' !! r = heap d !! r) /\
  (exists k, heap d' !! nextPc d = Some k /\
             signalingState (pc k) = SsStable /\ connectionState (pc k) = CsNew /\
             localDescription (pc k) = None).
Proof.
  unfold createConnection. js. repeat split.
  - intros r Hr. apply lookup_insert_ne. congruence.
  - eexists. rewrite lookup_insert_eq. repeat split.
Qed.

(** ** Closing every session *)

Lemma close_idempotent (k : Connection) : close (close k) = close k.
Proof. reflexivity. Qed.

Lemma lookup_close_all (l : list PcRef) (h : gmap PcRef Connection) (r : PcRef) :
  foldr (fun r h' => alter close r h') h l !! r =
  if bool_decide (r ∈ l) then close <$> h !! r else h !! r.
Proof.
  induction l as [|r' l IH]; cbn [foldr].
  - rewrite bool_decide_eq_false_2; [reflexivity | apply not_elem_of_nil].
  - destruct (decide (r' = r)) as [->|Hne].
    + rewrite lookup_alter_eq, IH.
      rewrite (bool_decide_eq_true_2 (r ∈ r :: l)) by apply list_elem_of_here.
      destruct (bool_decide (r ∈ l)); [|reflexivity].
      destruct (h !! r) as [k|]; reflexivity.
    + rewrite lookup_alter_ne by exact Hne. rewrite IH.
      destruct (decide (r ∈ l)) as [Hin|Hnin].
      * rewrite !bool_decide_eq_true_2; auto. apply list_elem_of_further, Hin.
      * rewrite !bool_decide_eq_false_2; auto.
        intros Hin. apply elem_of_cons in Hin as [->|Hin]; [congruence | auto].
Qed.

Lemma registered_ref (d : Dashboard) (r : PcRef) :
  r ∈ map snd (map_to_list (connections d)) <-> exists w, connections d !! w = Some r.
Proof.
  rewrite list_elem_of_In, in_map_iff. split.
  - intros ([w r'] & <- & Hin). exists w.
    apply list_elem_of_In, elem_of_map_to_list in Hin. exact Hin.
  - intros [w Hw]. exists (w, r). split; [reflexivity|].
    apply list_elem_of_In, elem_of_map_to_list. exact Hw.
Qed.

(** [closeAllConnections] closes every registered peer connection with its
    two channels, leaves the unregistered ones as they are, and empties the
    registry; afterwards no control message goes out and no frame either.
    The timers of the closed sessions stay armed. *)
Theorem closeAllConnections_closes_everything (d : Dashboard) :
  let d' := snd (closeAllConnections d) in
  fst (closeAllConnections d) = Normal tt /\
  connections d' = ∅ /\
  timers d' = timers d /\
  (forall w r k, connections d !! w = Some r -> heap d !! r = Some k ->
     heap d' !! r = Some (close k) /\
     forall f, sendAnalysisData r f d' = (Normal tt, d')) /\
  (forall r, (forall w, connections d !! w <> Some r) -> heap d' !! r = heap d !! r) /\
  (forall w m f, sendControlMessage w m f d' = (Normal false, d')).
Proof.
  intros d'. subst d'. unfold closeAllConnections. js.
  split; [reflexivity|]. split; [reflexivity|]. split; [reflexivity|]. split; [|split].
  - intros w r k Hw Hr.
    assert (foldr (fun r h' => alter close r h') (heap d)
              (map snd (map_to_list (connections d))) !! r = Some (close k)) as Hclosed.
    { rewrite lookup_close_all, bool_decide_eq_true_2, Hr; [reflexivity|].
      apply registered_ref. eauto. }
    split; [exact Hclosed|].
    intros f. unfold sendAnalysisData. js. rewrite Hclosed. reflexivity.
  - intros r Hr. rewrite lookup_close_all, bool_decide_eq_false_2; [reflexivity|].
    intros Hin. apply registered_ref in Hin as [w Hw]. exact (Hr w Hw).
  - intros w m f. unfold sendControlMessage. js. rewrite lookup_empty. reflexivity.
Qed.

(** [closeAllConnections] on a dashboard with two sessions. *)
Lemma closeAllConnections_closes_everything_witness :
  let d := run [CreateConnection (NumId 1) (Normal "offer 1");
                CreateConnection (StrId "abc-123") (Normal "offer 2");
                AudioChannelOpens 1%nat (StrId "abc-123")] webrtcController in
  let d' := snd (closeAllConnections d) in
  readyState <$> (audioChannel <$> (heap d' !! 1%nat)) = Some RsClosed /\
  sendAnalysisData 1%nat None d' = (Normal tt, d').
Proof.
  intros d d'.
  destruct (closeAllConnections_closes_everything d) as (_ & _ & _ & H & _).
  destruct (H (StrId "abc-123") 1%nat
              {| pc := {| iceServers := []; connectionState := CsNew;
                          signalingState := SsHaveLocalOffer;
                          localDescription := Some {| sdpType := SdpOffer; sdp := "offer 2" |};
                          remoteDescription := None;
                          remoteCandidates := [] |};
                 audioChannel := with_readyState RsOpen
                                   (createDataChannel "audioData" false (Some 0%N));
                 controlChannel := createDataChannel "control" true None;
                 pc_controlChannel := false;
                 audioChannelInterval := Some 0%nat |}) as [Hk Hsend].
  - vm_compute. reflexivity.
  - vm_compute. reflexivity.
  - split; [exact (f_equal (fun o => readyState <$> (audioChannel <$> o)) Hk) | apply Hsend].
Defined.

(** ** Connection status *)

(** [getConnectionStatus] answers 'disconnected' for every id that is not
    registered, so also for a session that has just been closed (never
    'closed'); for a registered session it is the state of its peer
    connection, 'new' right after [createConnection]. *)
Theorem getConnectionStatus_of_closed_is_disconnected (w : WindowId) (d : Dashboard) :
  (connections d !! w = None -> getConnectionStatus w d = (Normal CsDisconnected, d)) /\
  fst (getConnectionStatus w (snd (closeConnection w d))) = Normal CsDisconnected /\
  fst (getConnectionStatus w (snd (closeAllConnections d))) = Normal CsDisconnected /\
  (forall r k, connections d !! w = Some r -> heap d !! r = Some k ->
     getConnectionStatus w d = (Normal (connectionState (pc k)), d)) /\
  (forall text,
     fst (getConnectionStatus w (snd (createConnection w (Normal text) d))) = Normal CsNew).
Proof.
  split; [|split; [|split; [|split]]].
  - intros Hw. unfold getConnectionStatus. js. rewrite Hw. reflexivity.
  - destruct (closeConnection_returns w d) as [_ H].
    revert H. generalize (snd (closeConnection w d)). intros d' H.
    unfold getConnectionStatus. js. rewrite H. reflexivity.
  - unfold getConnectionStatus, closeAllConnections. js. rewrite lookup_empty. reflexivity.
  - intros r k Hw Hr. unfold getConnectionStatus. js. rewrite Hw. cbn. rewrite Hr. reflexivity.
  - intros text. unfold getConnectionStatus, createConnection, on_pc. js.
    rewrite lookup_insert_eq. cbn.
    destruct (isBrowserClient w); cbn; rewrite !lookup_insert_eq; reflexivity.
Qed.

Lemma getConnectionStatus_of_closed_witness :
  let d := run [CreateConnection (NumId 1) (Normal "offer");
                ConnectionStateChanges 0%nat (NumId 1) CsConnected] webrtcController in
  getConnectionStatus (NumId 2) d = (Normal CsDisconnected, d) /\
  getConnectionStatus (NumId 1) d = (Normal CsConnected, d).
Proof.
  intros d.
  destruct (getConnectionStatus_of_closed_is_disconnected (NumId 2) d) as (Habs & _).
  destruct (getConnectionStatus_of_closed_is_disconnected (NumId 1) d) as (_ & _ & _ & Hreg & _).
  split; [apply Habs; vm_compute; reflexivity|].
  apply (Hreg 0%nat
           {| pc := {| iceServers := []; connectionState := CsConnected;
                       signalingState := SsHaveLocalOffer;
                       localDescription := Some {| sdpType := SdpOffer; sdp := "offer" |};
                       remoteDescription := None;
                       remoteCandidates := [] |};
              audioChannel := createDataChannel "audioData" false (Some 0%N);
              controlChannel := createDataChannel "control" true None;
              pc_controlChannel := false;
              audioChannelInterval := None |}); vm_compute; reflexivity.
Defined.

(** ** Eviction *)

Lemma connectionStateChanges_outcome
    (r : PcRef) (w : WindowId) (s : ConnectionState) (k : Connection) (d : Dashboard) :
  heap d !! r = Some k ->
  let d' := snd (connectionStateChanges r w s d) in
  fst (connectionStateChanges r w s d) = Normal tt /\
  connections d' =
    (if bool_decide (s = CsFailed \/ s = CsClosed) then delete w (connections d)
     else connections d) /\
  heap d' = <[r := with_pc (with_connectionState s) k]> (heap d) /\
  timers d' = timers d /\ electronAPI d' = electronAPI d.
Proof.
  intros Hr. unfold connectionStateChanges, onconnectionstatechange. js.
  rewrite lookup_alter_eq, Hr. cbn.
  assert (alter (with_pc (with_connectionState s)) r (heap d)
          = <[r := with_pc (with_connectionState s) k]> (heap d)) as Halter.
  { apply map_eq. intros r'. destruct (decide (r = r')) as [<-|Hne].
    - rewrite lookup_alter_eq, lookup_insert_eq, Hr. reflexivity.
    - rewrite lookup_alter_ne, lookup_insert_ne by exact Hne. reflexivity. }
  destruct s; cbn; rewrite Halter; repeat split.
Qed.

(** The state-change handler of a peer connection deletes the registry
    entry of its window id exactly when the new state is 'failed' or
    'closed'; 'disconnected', 'connecting' and the others leave the registry
    as it is.  It never closes the peer connection, cancels no timer and
    calls nothing on electronAPI. *)
Theorem eviction_only_on_failed_or_closed
    (r : PcRef) (w : WindowId) (s : ConnectionState) (k : Connection) (d : Dashboard) :
  heap d !! r = Some k ->
  let d' := snd (connectionStateChanges r w s d) in
  fst (connectionStateChanges r w s d) = Normal tt /\
  (s = CsFailed \/ s = CsClosed -> connections d' = delete w (connections d)) /\
  (s <> CsFailed -> s <> CsClosed -> connections d' = connections d) /\
  (exists k', heap d' !! r = Some k' /\
              signalingState (pc k') = signalingState (pc k) /\
              readyState (audioChannel k') = readyState (audioChannel k) /\
              readyState (controlChannel k') = readyState (controlChannel k)) /\
  timers d' = timers d /\ electronAPI d' = electronAPI d.
Proof.
  intros Hr d'.
  destruct (connectionStateChanges_outcome r w s k d Hr) as (H1 & H2 & H3 & H4 & H5).
  fold d' in H2, H3, H4, H5.
  split; [exact H1|]. split; [|split; [|split; [|split; assumption]]].
  - intros Hs. rewrite H2, bool_decide_eq_true_2 by exact Hs. reflexivity.
  - intros Hf Hc. rewrite H2, bool_decide_eq_false_2 by tauto. reflexivity.
  - eexists. rewrite H3, lookup_insert_eq. repeat split.
Qed.

Lemma eviction_only_on_failed_or_closed_witness :
  let d := run [CreateConnection (NumId 1) (Normal "offer")] webrtcController in
  connections (snd (connectionStateChanges 0%nat (NumId 1) CsDisconnected d)) = connections d /\
  connections (snd (connectionStateChanges 0%nat (NumId 1) CsClosed d))
    = delete (NumId 1) (connections d).
Proof.
  intros d.
  pose (k := {| pc := {| iceServers := []; connectionState := CsNew;
                         signalingState := SsHaveLocalOffer;
                         localDescription := Some {| sdpType := SdpOffer; sdp := "offer" |};
                         remoteDescription := None;
                         remoteCandidates := [] |};
                audioChannel := createDataChannel "audioData" false (Some 0%N);
                controlChannel := createDataChannel "control" true None;
                pc_controlChannel := false;
                audioChannelInterval := None |}).
  assert (heap d !! 0%nat = Some k) as Hk by (vm_compute; reflexivity).
  split.
  - apply (eviction_only_on_failed_or_closed 0%nat (NumId 1) CsDisconnected k d Hk);
      discriminate.
  - apply (eviction_only_on_failed_or_closed 0%nat (NumId 1) CsClosed k d Hk). auto.
Defined.

(** The handler deletes by window id, whichever connection is registered
    under it.  After a session has been replaced by a second
    [createConnection], the failure of the first peer connection evicts the
    second: the replacement is still open but no longer reachable, so
    control messages for the window are refused. *)
Theorem stale_failure_evicts_replacement
    (w : WindowId) (text : string) (d : Dashboard) (r0 : PcRef) (k0 : Connection) :
  wf d ->
  connections d !! w = Some r0 ->
  heap d !! r0 = Some k0 ->
  let d1 := snd (createConnection w (Normal text) d) in
  let d2 := snd (connectionStateChanges r0 w CsFailed d1) in
  connections d1 !! w = Some (nextPc d) /\
  connections d2 !! w = None /\
  (exists k, heap d2 !! nextPc d = Some k /\
             connectionState (pc k) = CsNew /\ signalingState (pc k) = SsHaveLocalOffer) /\
  (forall m f, sendControlMessage w m f d2 = (Normal false, d2)).
Proof.
  intros Hwf Hw Hr0 d1 d2.
  destruct (createConnection_ok w text d) as (_ & Hconn & Hheap & (k & Hk & Hs & _) & _).
  fold d1 in Hconn, Hheap, Hk.
  assert (nextPc d <> r0) as Hne.
  { apply (elem_of_dom_2 (heap d)) in Hr0. apply (wf_heap d Hwf) in Hr0. lia. }
  assert (heap d1 !! r0 = Some k0) as Hr1 by (rewrite Hheap by congruence; exact Hr0).
  destruct (connectionStateChanges_outcome r0 w CsFailed k0 d1 Hr1)
    as (_ & Hconn2 & Hheap2 & _).
  fold d2 in Hconn2, Hheap2.
  rewrite bool_decide_eq_true_2 in Hconn2 by auto.
  assert (connections d2 !! w = None) as Hgone by (rewrite Hconn2; apply lookup_delete_eq).
  split; [rewrite Hconn; apply lookup_insert_eq|]. split; [exact Hgone|]. split.
  - exists k. rewrite Hheap2, lookup_insert_ne by congruence. split; [exact Hk|].
    split; [|exact Hs].
    revert Hk. unfold d1, createConnection, on_pc. js. rewrite lookup_insert_eq. cbn.
    destruct (isBrowserClient w); cbn; rewrite lookup_insert_eq; intros [= <-]; reflexivity.
  - intros m f. unfold sendControlMessage. js. rewrite Hgone. reflexivity.
Qed.

Lemma stale_failure_evicts_replacement_witness :
  let d := run [CreateConnection (NumId 1) (Normal "offer 1")] webrtcController in
  let d1 := snd (createConnection (NumId 1) (Normal "offer 2") d) in
  let d2 := snd (connectionStateChanges 0%nat (NumId 1) CsFailed d1) in
  connections d1 !! NumId 1 = Some 1%nat /\ connections d2 !! NumId 1 = None.
Proof.
  intros d d1 d2.
  destruct (stale_failure_evicts_replacement (NumId 1) "offer 2" d 0%nat
              {| pc := {| iceServers := []; connectionState := CsNew;
                          signalingState := SsHaveLocalOffer;
                          localDescription := Some {| sdpType := SdpOffer; sdp := "offer 1" |};
                          remoteDescription := None;
                          remoteCandidates := [] |};
                 audioChannel := createDataChannel "audioData" false (Some 0%N);
                 controlChannel := createDataChannel "control" true None;
                 pc_controlChannel := false;
                 audioChannelInterval := None |}) as (H1 & H2 & _).
  - apply wf_run, wf_initial.
  - vm_compute. reflexivity.
  - vm_compute. reflexivity.
  - split; [exact H1 | exact H2].
Defined.

(** ** Late candidates *)

(** [handleIceCandidate] completes normally on every input: whatever the
    browser throws at the candidate is caught.  A candidate for a session
    that is not registered is dropped without a trace, and a retry that
    comes due after its session has been closed ends there: the timeout is
    gone and no new one is armed. *)
Theorem late_candidate_is_dropped (w : WindowId) (c : Candidate) (d : Dashboard) :
  fst (handleIceCandidate w c d) = Normal tt /\
  (connections d !! w = None -> handleIceCandidate w c d = (Normal tt, d)) /\
  (forall id f,
      timers d !! id = Some (retry w c) ->
      connections d !! w = None ->
      fireTimer id f d = (Normal tt, set_timers (delete id) d)).
Proof.
  split; [|split].
  - unfold handleIceCandidate, on_pc. js_unfold. cbn -[emptyCandidate].
    destruct (connections d !! w) as [r|]; [|reflexivity]. cbn -[emptyCandidate].
    destruct (emptyCandidate c); [reflexivity|].
    destruct (heap d !! r) as [k|] eqn:Hr; [|reflexivity]. cbn.
    destruct c as [i|]; [|reflexivity].
    destruct (remoteDescription (pc k)); [|reflexivity]. cbn. rewrite Hr.
    destruct (pc_addIceCandidate i (pc k)); reflexivity.
  - intros Hw. unfold handleIceCandidate. js_unfold. cbn -[emptyCandidate].
    rewrite Hw. reflexivity.
  - intros id f Ht Hw. rewrite (fireTimer_timeout id (retry w c) f d Ht eq_refl).
    cbn [runTask task retry]. unfold handleIceCandidate. js_unfold. cbn -[emptyCandidate].
    rewrite Hw. reflexivity.
Qed.

Lemma late_candidate_is_dropped_witness :
  let i := {| candidate := Some "candidate:1 1 udp 2122260223 192.168.1.7 50000 typ host";
              sdpMid := Some "0"; sdpMLineIndex := Some 0%N |} in
  let d := run [CreateConnection (NumId 1) (Normal "offer");
                HandleIceCandidate (NumId 1) (Some i);
                CloseConnection (NumId 1)] webrtcController in
  timers d !! 0%nat = Some (retry (NumId 1) (Some i)) /\
  timers (snd (fireTimer 0%nat None d)) = ∅.
Proof.
  intros i d.
  destruct (late_candidate_is_dropped (NumId 1) (Some i) d) as (_ & _ & H).
  split; [vm_compute; reflexivity|].
  rewrite (H 0%nat None); vm_compute; reflexivity.
Defined.

(** ** The wire format *)

Lemma getByteTimeDomainData_length (a : AnalyserNode) (array : list byte) :
  length (getByteTimeDomainData a array) = length array.
Proof.
  unfold getByteTimeDomainData. rewrite length_app, length_take, length_drop. lia.
Qed.

Lemma Uint8Array_length (n : N) : length (Uint8Array n) = N.to_nat n.
Proof. apply repeat_length. Qed.

Lemma wire_same {A} (m : JS Dashboard A) :
  (forall d, microphoneManager (snd (m d)) = microphoneManager d /\
             heap (snd (m d)) = heap d) ->
  preserves wire m.
Proof.
  intros Hsame d [Ha Hh]. destruct (Hsame d) as [Hm Hheap].
  split; [rewrite Hm; exact Ha | rewrite Hheap; exact Hh].
Qed.

Lemma wire_log l s : preserves wire (log l s).
Proof. apply wire_same. intros d. split; reflexivity. Qed.

Lemma wire_call c : preserves wire (call c).
Proof. apply wire_same. intros d. split; reflexivity. Qed.

Lemma wire_connections f : preserves wire (modify (set_connections f)).
Proof. apply wire_same. intros d. split; reflexivity. Qed.

Lemma wire_timers f : preserves wire (modify (set_timers f)).
Proof. apply wire_same. intros d. split; reflexivity. Qed.

Lemma wire_stoppedTracks f : preserves wire (modify (set_stoppedTracks f)).
Proof. apply wire_same. intros d. split; reflexivity. Qed.

Lemma wire_setTimer t : preserves wire (setTimer t).
Proof. apply wire_same. intros d. split; reflexivity. Qed.

Lemma wire_microphoneManager f :
  (forall m, (forall a, analyser m = Some a -> fftSize a = 2048%N) ->
             forall a, analyser (f m) = Some a -> fftSize a = 2048%N) ->
  preserves wire (modify (set_microphoneManager f)).
Proof. intros Hf d [Ha Hh]. split; [apply Hf, Ha | exact Hh]. Qed.

Lemma wire_update r f :
  (forall k, sent (audioChannel (f k)) = sent (audioChannel k) /\
             sent (controlChannel (f k)) = sent (controlChannel k)) ->
  preserves wire (update r f).
Proof.
  intros Hf d [Ha Hh]. split; [exact Ha|]. cbn. intros r' k' Hk'.
  destruct (decide (r = r')) as [<-|Hne].
  - rewrite lookup_alter_eq in Hk'. destruct (heap d !! r) as [k|] eqn:Hr; [|discriminate].
    injection Hk' as <-. destruct (Hf k) as [-> ->]. apply (Hh r k Hr).
  - rewrite lookup_alter_ne in Hk' by exact Hne. apply (Hh r' k' Hk').
Qed.

Lemma wire_close_all l :
  preserves wire (modify (set_heap (fun h => foldr (fun r h' => alter close r h') h l))).
Proof.
  intros d [Ha Hh]. split; [exact Ha|]. cbn. intros r k Hk.
  rewrite lookup_close_all in Hk. destruct (bool_decide (r ∈ l)).
  - destruct (heap d !! r) as [k0|] eqn:Hr; [|discriminate].
    injection Hk as <-. apply (Hh r k0 Hr).
  - apply (Hh r k Hk).
Qed.

Lemma wire_on_pc r op : preserves wire (on_pc r op).
Proof.
  intros d [Ha Hh]. unfold on_pc.
  destruct (heap d !! r) as [k|] eqn:Hr; [|split; assumption].
  destruct (op (pc k)) as [p|e]; [|split; assumption].
  split; [exact Ha|]. cbn. intros r' k' Hk'.
  destruct (decide (r = r')) as [<-|Hne].
  - rewrite lookup_insert_eq in Hk'. injection Hk' as <-. apply (Hh r k Hr).
  - rewrite lookup_insert_ne in Hk' by exact Hne. apply (Hh r' k' Hk').
Qed.

Lemma wire_createConnection w o : preserves wire (createConnection w o).
Proof.
  assert (forall d c, wire d ->
            sent (audioChannel c) = [] -> sent (controlChannel c) = [] ->
            wire (snd (allocate c d))) as Halloc.
  { intros d c [Ha Hh] H1 H2. split; [exact Ha|]. cbn. intros r k Hk.
    destruct (decide (nextPc d = r)) as [<-|Hne].
    - rewrite lookup_insert_eq in Hk. injection Hk as <-. rewrite H1, H2. split; constructor.
    - rewrite lookup_insert_ne in Hk by exact Hne. apply (Hh r k Hk). }
  unfold createConnection. apply preserves_tryCatch.
  - apply preserves_bind; [intros d H; apply Halloc; [exact H | reflexivity..]|].
    intros r. apply preserves_bind; [apply preserves_await|]. intros text.
    apply preserves_bind; [apply wire_on_pc|]. intros _.
    apply preserves_bind; [apply wire_connections|]. intros _.
    apply preserves_bind; [destruct (isBrowserClient w); apply wire_call|].
    intros _. apply preserves_ret.
  - intros e. apply preserves_bind; [apply wire_log | intros _; apply preserves_throw].
Qed.

(** A tick adds one frame of 2048 bytes to an audio channel, or nothing. *)
Lemma wire_sendAnalysisData r f : preserves wire (sendAnalysisData r f).
Proof.
  intros d Hd. pose proof Hd as [Ha Hh].
  unfold sendAnalysisData, audioChannel_send, dc_send. js.
  destruct (heap d !! r) as [k|] eqn:Hr; [|exact Hd].
  destruct (readyState (audioChannel k)) eqn:Hrs; try exact Hd.
  assert (forall bytes, length bytes = 2048%nat ->
            wire (set_heap <[r := with_audioChannel
                                    (fun _ => with_sent (Binary bytes) (audioChannel k)) k]> d))
    as Hsent.
  { intros bytes Hlen. split; [exact Ha|]. cbn. intros r' k' Hk'.
    destruct (decide (r = r')) as [<-|Hne].
    - rewrite lookup_insert_eq in Hk'. injection Hk' as <-. cbn.
      destruct (Hh r k Hr) as [H1 H2]. split; [|exact H2].
      apply Forall_app. split; [exact H1|]. constructor; [|constructor].
      exists bytes. auto.
    - rewrite lookup_insert_ne in Hk' by exact Hne. apply (Hh r' k' Hk'). }
  destruct (analyser (microphoneManager d)) as [a|] eqn:Han; cbn; rewrite Hr, Hrs;
    destruct f as [e|]; cbn.
  - exact (wire_log LogWarn "Audio DataChannel send failed:" d Hd).
  - apply Hsent. rewrite getByteTimeDomainData_length, Uint8Array_length, (Ha a eq_refl).
    reflexivity.
  - exact (wire_log LogWarn "Audio DataChannel send failed:" d Hd).
  - apply Hsent. apply repeat_length.
Qed.

(** A control message adds one JSON text to a control channel, or nothing. *)
Lemma wire_sendControlMessage w m f : preserves wire (sendControlMessage w m f).
Proof.
  intros d Hd. pose proof Hd as [Ha Hh].
  unfold sendControlMessage, controlChannel_send, dc_send.
  js_unfold. cbn -[JSON_stringify].
  destruct (connections d !! w) as [r|]; [|exact Hd]. cbn -[JSON_stringify].
  destruct (heap d !! r) as [k|] eqn:Hr; [|exact Hd].
  destruct (negb (pc_controlChannel k) ||
            negb (bool_decide (readyState (controlChannel k) = RsOpen)));
    [exact Hd|].
  cbn -[JSON_stringify]. rewrite Hr.
  destruct (readyState (controlChannel k));
    try exact (wire_log LogError "Failed to send control message:" d Hd).
  destruct f as [e|]; cbn -[JSON_stringify];
    [exact (wire_log LogError "Failed to send control message:" d Hd)|].
  split; [exact Ha|]. cbn -[JSON_stringify]. intros r' k' Hk'.
  destruct (decide (r = r')) as [<-|Hne].
  - rewrite lookup_insert_eq in Hk'. injection Hk' as <-. cbn -[JSON_stringify].
    destruct (Hh r k Hr) as [H1 H2]. split; [exact H1|].
    apply Forall_app. split; [exact H2|]. constructor; [|constructor]. exists m. reflexivity.
  - rewrite lookup_insert_ne in Hk' by exact Hne. apply (Hh r' k' Hk').
Qed.

#[global] Hint Resolve wire_log wire_call wire_connections wire_timers wire_stoppedTracks
  wire_setTimer wire_close_all wire_on_pc wire_createConnection wire_sendAnalysisData
  wire_sendControlMessage : js_wf.

#[global] Hint Extern 1 (preserves wire (update _ _)) =>
  apply wire_update; intros ?; split; reflexivity : js_wf.

#[global] Hint Extern 1 (preserves wire (modify (set_microphoneManager _))) =>
  apply wire_microphoneManager;
  let m := fresh "m" in let H := fresh "H" in let a := fresh "a" in
  intros m H a; try (destruct (analyser m) eqn:?); cbn;
  intros; simplify_eq; cbn; eauto : js_wf.

Lemma wire_step (d : Dashboard) (e : Event) : wire d -> wire (step d e).
Proof.
  intros H. unfold step. revert d H. change (preserves wire (handle e)).
  assert (forall t f, preserves wire (runTask t f)) as HrunTask.
  { intros t f. destruct t; cbn [runTask]; [apply wire_sendAnalysisData| |apply wire_log].
    unfold handleIceCandidate, setTimeout. preserve. }
  destruct e;
    unfold handle, audioChannelOpens, audioChannel_onopen, startAudioSending,
      controlChannelOpens, controlChannel_onopen, onicecandidate, connectionStateChanges,
      onconnectionstatechange, handleAnswer, handleIceCandidate, closeConnection,
      closeAllConnections, updateMicrophoneStream, fireTimer, start, stop, audioProcess,
      setInterval, setTimeout;
    preserve.
Qed.

(** The wire contract holds on every run of the dashboard: each payload
    that was ever handed to an audio channel is a binary frame of exactly
    2048 bytes, live capture or silence alike, and each payload handed to a
    control channel is the JSON text of a command. *)
Theorem frames_are_2048_bytes (es : list Event) (r : PcRef) (k : Connection) :
  heap (run es webrtcController) !! r = Some k ->
  Forall frame (sent (audioChannel k)) /\ Forall command (sent (controlChannel k)).
Proof.
  assert (wire (run es webrtcController)) as [_ H].
  { assert (wire webrtcController) as H0.
    { split; [intros a Ha; discriminate Ha | intros r' k' Hk'; discriminate Hk']. }
    revert H0. generalize webrtcController.
    induction es as [|e es IH]; intros d H; [exact H|].
    apply IH, wire_step, H. }
  apply H.
Qed.

Lemma frames_are_2048_bytes_witness :
  let env := {| getUserMedia := Normal {| streamId := "mic"; trackIds := ["track 0"] |};
                startsSuspended := false;
                new_AudioContext := None; resume := None;
                createMediaStreamSource := None |} in
  let es := [CreateConnection (NumId 1) (Normal "offer");
             AudioChannelOpens 0%nat (NumId 1);
             FireTimer 0%nat None;
             Start "default" env;
             AudioProcess (repeat x7f 2048);
             FireTimer 0%nat None] in
  exists k, heap (run es webrtcController) !! 0%nat = Some k /\
            length (sent (audioChannel k)) = 2%nat /\
            Forall frame (sent (audioChannel k)).
Proof.
  intros env es.
  pose (k := {| pc := {| iceServers := []; connectionState := CsNew;
                         signalingState := SsHaveLocalOffer;
                         localDescription := Some {| sdpType := SdpOffer; sdp := "offer" |};
                         remoteDescription := None;
                         remoteCandidates := [] |};
                audioChannel :=
                  {| label := "audioData"; ordered := false; maxRetransmits := Some 0%N;
                     readyState := RsOpen;
                     sent := [Binary (repeat x80 2048); Binary (repeat x7f 2048)] |};
                controlChannel := createDataChannel "control" true None;
                pc_controlChannel := false;
                audioChannelInterval := Some 0%nat |}).
  assert (heap (run es webrtcController) !! 0%nat = Some k) as Hk by (vm_compute; reflexivity).
  exists k. split; [exact Hk|]. split; [reflexivity|].
  apply (frames_are_2048_bytes es 0%nat k Hk).
Defined.

(** ** The microphone *)

Lemma microphoneIs_same {A} (m0 : MicrophoneManager) (m : JS Dashboard A) :
  (forall d, microphoneManager (snd (m d)) = microphoneManager d) ->
  preserves (microphoneIs m0) m.
Proof. intros H d Hd. unfold microphoneIs. rewrite H. exact Hd. Qed.

Ltac untouched :=
  apply microphoneIs_same; intros ?;
  unfold on_pc, audioChannel_send, controlChannel_send, dc_send; js_unfold; cbn;
  repeat case_match; reflexivity.

#[global] Hint Extern 1 (preserves (microphoneIs _) (modify _)) => untouched : js_wf.
#[global] Hint Extern 1 (preserves (microphoneIs _) (log _ _)) => untouched : js_wf.
#[global] Hint Extern 1 (preserves (microphoneIs _) (call _)) => untouched : js_wf.
#[global] Hint Extern 1 (preserves (microphoneIs _) (update _ _)) => untouched : js_wf.
#[global] Hint Extern 1 (preserves (microphoneIs _) (on_pc _ _)) => untouched : js_wf.
#[global] Hint Extern 1 (preserves (microphoneIs _) (allocate _)) => untouched : js_wf.
#[global] Hint Extern 1 (preserves (microphoneIs _) (setTimer _)) => untouched : js_wf.
#[global] Hint Extern 1 (preserves (microphoneIs _) (audioChannel_send _ _ _)) =>
  untouched : js_wf.
#[global] Hint Extern 1 (preserves (microphoneIs _) (controlChannel_send _ _ _)) =>
  untouched : js_wf.

Lemma microphoneIs_handle (m0 : MicrophoneManager) (e : Event) :
  ofController e = true -> preserves (microphoneIs m0) (handle e).
Proof.
  assert (forall t f, preserves (microphoneIs m0) (runTask t f)) as HrunTask.
  { intros t f. unfold runTask, sendAnalysisData, handleIceCandidate, setTimeout. preserve. }
  destruct e; intros He; try discriminate He;
    unfold handle, createConnection, audioChannelOpens, audioChannel_onopen, startAudioSending,
      controlChannelOpens, controlChannel_onopen, onicecandidate, connectionStateChanges,
      onconnectionstatechange, handleAnswer, handleIceCandidate, closeConnection,
      closeAllConnections, updateMicrophoneStream, sendControlMessage, fireTimer,
      setInterval, setTimeout;
    preserve.
Qed.

(** The controller reads the microphone manager and never writes it: no
    call or callback of the controller, nor any timer it arms, changes the
    stream, the audio graph, the enabled flag or the selected device. *)
Theorem controller_leaves_microphone (es : list Event) (d : Dashboard) :
  forallb ofController es = true ->
  microphoneManager (run es d) = microphoneManager d.
Proof.
  revert d. induction es as [|e es IH]; intros d H; [reflexivity|].
  cbn in H. apply andb_prop in H as [He Hes]. cbn [run fold_left].
  change (microphoneManager (run es (step d e)) = microphoneManager d).
  rewrite (IH _ Hes). exact (microphoneIs_handle (microphoneManager d) e He d eq_refl).
Qed.

Lemma controller_leaves_microphone_witness :
  let env := {| getUserMedia := Normal {| streamId := "mic"; trackIds := ["track 0"] |};
                startsSuspended := false;
                new_AudioContext := None; resume := None;
                createMediaStreamSource := None |} in
  let d := run [Start "default" env] webrtcController in
  let es := [CreateConnection (NumId 1) (Normal "offer");
             AudioChannelOpens 0%nat (NumId 1);
             UpdateMicrophoneStream;
             FireTimer 1%nat None;
             CloseAllConnections] in
  isEnabled (microphoneManager (run es d)) = true.
Proof.
  intros env d es.
  rewrite (controller_leaves_microphone es d); reflexivity.
Defined.

Lemma start_failure (dev : string) (env : MediaEnv) (e : Exn) (d : Dashboard) :
  getUserMedia env = Abrupt e ->
  start dev env d =
    (Abrupt e,
     set_console (fun l => l ++ [{| level := LogError; message := "Failed to start microphone:" |}])
       (set_microphoneManager (with_selectedDeviceId dev) d)).
Proof. intros He. unfold start. js. rewrite He. reflexivity. Qed.

(** Every way [start] can end.  The device is selected and no track is
    stopped in each of them.  When [getUserMedia] has delivered a stream,
    the manager holds it, whether [start] then returns it (the microphone
    is enabled, the gain is 5) or throws what [new AudioContext],
    [resume] or [createMediaStreamSource] raised (the enabled flag is as
    it was). *)
Lemma start_outcome (dev : string) (env : MediaEnv) (d : Dashboard) :
  let d' := snd (start dev env d) in
  let m' := microphoneManager d' in
  selectedDeviceId m' = dev /\ stoppedTracks d' = stoppedTracks d /\
  match getUserMedia env with
  | Abrupt e => fst (start dev env d) = Abrupt e
  | Normal s =>
      stream m' = Some s /\
      match fst (start dev env d) with
      | Normal s' => s' = s /\ isEnabled m' = true /\ gainNode m' = Some {| gain := 5 |}
      | Abrupt e =>
          isEnabled m' = isEnabled (microphoneManager d) /\
          (new_AudioContext env = Some e \/ resume env = Some e \/
           createMediaStreamSource env = Some e)
      end
  end.
Proof.
  unfold start. js. destruct (getUserMedia env) as [s|e]; cbn; [|auto].
  destruct (audioContext (microphoneManager d)) as [ctx|] eqn:Hctx; cbn; rewrite ?Hctx; cbn.
  - destruct (suspended ctx); cbn;
      [destruct (resume env); cbn; [auto 7|]|];
      (destruct (createMediaStreamSource env); cbn; auto 7).
  - destruct (new_AudioContext env); cbn; [auto 7|].
    destruct (startsSuspended env); cbn;
      [destruct (resume env); cbn; [auto 7|]|];
      (destruct (createMediaStreamSource env); cbn; auto 7).
Qed.

Lemma stop_spec (d : Dashboard) :
  let m := microphoneManager (snd (stop d)) in
  fst (stop d) = Normal tt /\
  stream m = None /\ isEnabled m = false /\
  selectedDeviceId m = selectedDeviceId (microphoneManager d) /\
  analyser m = analyser (microphoneManager d) /\
  gainNode m = gainNode (microphoneManager d) /\
  stoppedTracks (snd (stop d)) =
    stoppedTracks d ++ match stream (microphoneManager d) with
                       | Some s => trackIds s
                       | None => []
                       end.
Proof.
  unfold stop. js. destruct (stream (microphoneManager d)) as [s|] eqn:Hs; cbn;
    rewrite ?Hs, ?app_nil_r; repeat split.
Qed.

(** When the media stack refuses the microphone, [start] logs the error
    and throws the same error on; the selected device is already the
    requested one, and nothing else has changed: stream, audio graph and
    enabled flag are as before, no track was stopped, no timer armed. *)
Theorem start_failure_rethrows (dev : string) (env : MediaEnv) (e : Exn) (d : Dashboard) :
  getUserMedia env = Abrupt e ->
  let d' := snd (start dev env d) in
  fst (start dev env d) = Abrupt e /\
  microphoneManager d' = with_selectedDeviceId dev (microphoneManager d) /\
  console d' = console d ++ [{| level := LogError; message := "Failed to start microphone:" |}] /\
  timers d' = timers d /\ stoppedTracks d' = stoppedTracks d /\
  heap d' = heap d /\ connections d' = connections d.
Proof. intros He. cbv zeta. rewrite (start_failure dev env e d He). repeat split. Qed.

Lemma start_failure_rethrows_witness :
  let env := {| getUserMedia := Abrupt NotAllowedError; startsSuspended := false;
                new_AudioContext := None; resume := None;
                createMediaStreamSource := None |} in
  fst (start "usb" env webrtcController) = Abrupt NotAllowedError /\
  selectedDeviceId (microphoneManager (snd (start "usb" env webrtcController))) = "usb" /\
  isEnabled (microphoneManager (snd (start "usb" env webrtcController))) = false.
Proof.
  intros env.
  destruct (start_failure_rethrows "usb" env NotAllowedError webrtcController eq_refl)
    as (H1 & H2 & _).
  split; [exact H1|]. rewrite H2. split; reflexivity.
Defined.

(** [start] on a microphone that already holds a stream replaces the
    stream without stopping the tracks of the old one (only [stop] stops
    tracks), as soon as [getUserMedia] delivers the new one.  It keeps the
    audio context it finds and, unless that context is suspended and its
    [resume] is rejected, leaves it running and puts the gain back to the
    default 5, whatever [setGain] had set. *)
Theorem start_again_replaces (dev : string) (env : MediaEnv) (s s0 : MediaStream)
    (ctx : AudioContext) (d : Dashboard) :
  getUserMedia env = Normal s ->
  stream (microphoneManager d) = Some s0 ->
  audioContext (microphoneManager d) = Some ctx ->
  let d' := snd (start dev env d) in
  stream (microphoneManager d') = Some s /\
  stoppedTracks d' = stoppedTracks d /\
  ((suspended ctx = true -> resume env = None) ->
   audioContext (microphoneManager d') =
     Some {| sampleRate := sampleRate ctx; suspended := false |} /\
   gainNode (microphoneManager d') = Some {| gain := 5 |}).
Proof.
  intros Hs _ Hctx. unfold start. js. rewrite Hs. cbn. rewrite Hctx. cbn.
  destruct ctx as [rate []]; cbn; rewrite ?Hctx; cbn.
  - destruct (resume env) as [e|] eqn:Hr; cbn.
    + split; [reflexivity|]. split; [reflexivity|]. intros H. discriminate (H eq_refl).
    + destruct (createMediaStreamSource env); cbn; repeat split.
  - destruct (createMediaStreamSource env); cbn; repeat split; exact Hctx.
Qed.

Lemma start_again_replaces_witness :
  let mic s := {| streamId := s; trackIds := [s] |} in
  let env s := {| getUserMedia := Normal (mic s); startsSuspended := false;
                new_AudioContext := None; resume := None;
                createMediaStreamSource := None |} in
  let d := snd (setGain 2 (snd (start "a" (env "a") webrtcController))) in
  gainNode (microphoneManager d) = Some {| gain := 2 |} /\
  stream (microphoneManager (snd (start "b" (env "b") d))) = Some (mic "b") /\
  stoppedTracks (snd (start "b" (env "b") d)) = [] /\
  gainNode (microphoneManager (snd (start "b" (env "b") d))) = Some {| gain := 5 |}.
Proof.
  intros mic env d. split; [reflexivity|].
  destruct (start_again_replaces "b" (env "b") (mic "b") (mic "a")
              {| sampleRate := AUDIO_CONFIG_sampleRate; suspended := false |} d
              eq_refl eq_refl eq_refl) as (H1 & H2 & H3).
  split; [exact H1|]. split; [exact H2|]. apply H3. discriminate.
Defined.

Ltac sound_finish :=
  constructor; unfold consistent in *; cbn;
  repeat match goal with
         | H : ?x = None |- context [?x] => rewrite H
         end;
  repeat match goal with
         | |- _ <-> _ => split
         | |- _ /\ _ => split
         end;
  intros; simplify_eq; eauto;
  repeat match goal with
         | H : is_Some None |- _ => destruct H as [? H]; discriminate H
         | H : false = true |- _ => discriminate H
         end;
  try solve [intuition eauto].

Lemma sound_start dev env d :
  sound (microphoneManager d) -> sound (microphoneManager (snd (start dev env d))).
Proof.
  intros H. pose proof H as [H1 H2 H3 H4]. unfold start. js.
  destruct (getUserMedia env) as [s|e]; cbn; [|constructor; assumption].
  destruct (audioContext (microphoneManager d)) as [ctx|] eqn:Hctx; cbn; rewrite ?Hctx; cbn.
  - destruct (suspended ctx); cbn; try (destruct (resume env); cbn);
      try (destruct (createMediaStreamSource env); cbn); sound_finish.
  - destruct (new_AudioContext env); cbn; [sound_finish|].
    destruct (startsSuspended env); cbn; try (destruct (resume env); cbn);
      try (destruct (createMediaStreamSource env); cbn); sound_finish.
Qed.

Lemma sound_stop d :
  sound (microphoneManager d) -> sound (microphoneManager (snd (stop d))).
Proof.
  intros [H1 H2 H3 H4]. unfold stop. js.
  destruct (stream (microphoneManager d)) as [s|] eqn:Hs; cbn; rewrite ?Hs; sound_finish.
Qed.

Lemma sound_selectedDeviceId dev m : sound m -> sound (with_selectedDeviceId dev m).
Proof. intros [H1 H2 H3 H4]. constructor; assumption. Qed.

Lemma sound_toggle env d :
  sound (microphoneManager d) -> sound (microphoneManager (snd (toggle env d))).
Proof.
  intros H. unfold toggle. js_unfold. cbn -[start stop].
  destruct (isEnabled (microphoneManager d)).
  - pose proof (sound_stop d H) as H'. destruct (stop d) as [[[]|e] d']; exact H'.
  - pose proof (sound_start (selectedDeviceId (microphoneManager d)) env d H) as H'.
    destruct (start _ env d) as [[s|e] d']; exact H'.
Qed.

Lemma sound_changeDevice dev env d :
  sound (microphoneManager d) -> sound (microphoneManager (snd (changeDevice dev env d))).
Proof.
  intros H. unfold changeDevice. js_unfold. cbn -[start stop].
  destruct (isEnabled (microphoneManager d)); cbn -[start stop].
  - pose proof (sound_stop d H) as H'. destruct (stop d) as [[[]|e] d']; [|exact H'].
    cbn -[start] in *.
    pose proof (sound_start dev env (set_microphoneManager (with_selectedDeviceId dev) d')
                  (sound_selectedDeviceId dev _ H')) as H''.
    destruct (start dev env _) as [[s|e] d'']; exact H''.
  - apply sound_selectedDeviceId, H.
Qed.

Lemma sound_setGain v d :
  sound (microphoneManager d) -> sound (microphoneManager (snd (setGain v d))).
Proof.
  intros H. pose proof H as [H1 H2 H3 H4]. unfold setGain. js.
  destruct (gainNode (microphoneManager d)) as [g|] eqn:Hg; cbn; [|exact H].
  sound_finish.
Qed.

Lemma sound_step d e :
  sound (microphoneManager d) -> sound (microphoneManager (step d e)).
Proof.
  intros H. destruct (ofController e) eqn:He.
  - unfold step. rewrite (microphoneIs_handle (microphoneManager d) e He d eq_refl). exact H.
  - destruct e as [| | | | | | | | | | | |dev env| |window]; try discriminate He;
      unfold step, handle, discard.
    + pose proof (sound_start dev env d H) as H'. js_unfold. cbn -[start].
      destruct (start dev env d) as [[s|e] d']; exact H'.
    + apply sound_stop, H.
    + pose proof H as [H1 H2 H3 H4]. unfold audioProcess. js.
      destruct (analyser (microphoneManager d)) as [a|] eqn:Ha; cbn; [|exact H].
      sound_finish. apply (H4 a eq_refl).
Qed.

Lemma sound_perform l : sound (microphoneManager (perform l webrtcController)).
Proof.
  assert (sound (microphoneManager webrtcController)) as H0.
  { constructor; unfold consistent; cbn; try split; intros; try discriminate;
      match goal with H : is_Some None |- _ => destruct H as [? H]; discriminate H end. }
  revert H0. generalize webrtcController.
  induction l as [|a l IH]; intros d H; [exact H|].
  apply IH. destruct a; cbn [act].
  - apply sound_step, H.
  - apply sound_toggle, H.
  - apply sound_changeDevice, H.
  - apply sound_setGain, H.
Qed.

Lemma toggle_outcome (env : MediaEnv) (d : Dashboard) :
  let m := microphoneManager (snd (toggle env d)) in
  selectedDeviceId m = selectedDeviceId (microphoneManager d) /\
  match fst (toggle env d) with
  | Normal b => isEnabled m = b /\ b = negb (isEnabled (microphoneManager d))
  | Abrupt e =>
      isEnabled (microphoneManager d) = false /\ isEnabled m = false /\
      match getUserMedia env with
      | Abrupt e' => e' = e
      | Normal s =>
          stream m = Some s /\
          (new_AudioContext env = Some e \/ resume env = Some e \/
           createMediaStreamSource env = Some e)
      end
  end.
Proof.
  unfold toggle. js_unfold. cbn -[start stop].
  destruct (isEnabled (microphoneManager d)) eqn:Hen.
  - destruct (stop_spec d) as (H1 & H2 & H3 & H4 & _).
    destruct (stop d) as [[[]|e] d']; [|discriminate H1]. cbn in *. auto.
  - pose proof (start_outcome (selectedDeviceId (microphoneManager d)) env d) as H.
    cbv zeta in H. destruct H as (H1 & _ & H3).
    destruct (getUserMedia env) as [s|e] eqn:Hs.
    + destruct H3 as [K1 K2].
      destruct (start _ env d) as [[s'|e] d']; cbn in *.
      * destruct K2 as (_ & K2 & _). auto.
      * destruct K2 as [K2 K3]. rewrite K2, Hen. auto.
    + rewrite (start_failure _ env e d Hs). cbn. auto.
Qed.

(** Whatever the components of the dashboard did to the microphone and
    whatever the media stack answered, the status that the manager reports
    says [hasStream] whenever it says [enabled].  The converse does not
    hold: when a [toggle] fails although [getUserMedia] delivered the
    stream (the audio context could not be built or resumed, or no source
    could be made of the stream), the stream stays in the manager, and the
    status reports a disabled microphone that has a stream. *)
Theorem enabled_microphone_has_stream (l : list Action) :
  (exists st, fst (getStatus (perform l webrtcController)) = Normal st /\
              (enabled st = true -> hasStream st = true)) /\
  (forall env s e,
      getUserMedia env = Normal s ->
      fst (toggle env (perform l webrtcController)) = Abrupt e ->
      exists st,
        fst (getStatus (perform (l ++ [Toggle env]) webrtcController)) = Normal st /\
        enabled st = false /\ hasStream st = true).
Proof.
  split.
  - eexists. split; [reflexivity|]. cbn. intros H.
    apply bool_decide_eq_true_2. apply (sound_status _ (sound_perform l)), H.
  - intros env s e Hs He.
    pose proof (toggle_outcome env (perform l webrtcController)) as H.
    cbv zeta in H. rewrite He, Hs in H. destruct H as (_ & _ & H1 & H2 & _).
    unfold perform. rewrite fold_left_app. cbn [fold_left act].
    fold (perform l webrtcController).
    unfold getStatus. js_unfold. cbn [fst snd].
    eexists. split; [reflexivity|]. cbn [enabled hasStream].
    rewrite H1, H2. split; [reflexivity|].
    apply bool_decide_eq_true_2. eexists. reflexivity.
Qed.

Lemma enabled_microphone_has_stream_witness :
  let env := {| getUserMedia := Normal {| streamId := "mic"; trackIds := ["track 0"] |};
                startsSuspended := false;
                new_AudioContext := None; resume := None;
                createMediaStreamSource := Some InvalidStateError |} in
  exists st,
    fst (getStatus (perform [Toggle env] webrtcController)) = Normal st /\
    enabled st = false /\ hasStream st = true.
Proof.
  intros env.
  destruct (enabled_microphone_has_stream []) as [_ H].
  apply (H env {| streamId := "mic"; trackIds := ["track 0"] |} InvalidStateError);
    reflexivity.
Defined.

(** [toggle] answers with the state it leaves the microphone in: [false]
    after stopping an enabled microphone, [true] after starting a disabled
    one on the device selected last; when [start] throws, its error comes
    through and the microphone stays disabled.  The selected device is the
    same afterwards in every case. *)
Theorem toggle_reports_state (env : MediaEnv) (d : Dashboard) :
  let m := microphoneManager (snd (toggle env d)) in
  selectedDeviceId m = selectedDeviceId (microphoneManager d) /\
  match fst (toggle env d) with
  | Normal b => isEnabled m = b /\ b = negb (isEnabled (microphoneManager d))
  | Abrupt e =>
      isEnabled m = false /\
      (getUserMedia env = Abrupt e \/ new_AudioContext env = Some e \/
       resume env = Some e \/ createMediaStreamSource env = Some e)
  end.
Proof.
  pose proof (toggle_outcome env d) as H. cbv zeta in *. destruct H as [H1 H2].
  split; [exact H1|].
  destruct (fst (toggle env d)) as [b|e]; [exact H2|].
  destruct H2 as (_ & H2 & H3). split; [exact H2|].
  destruct (getUserMedia env) as [s|e']; [right; tauto | left; congruence].
Qed.

(** [changeDevice] on a disabled microphone only records the device: the
    media stack is not asked.  On an enabled one it stops the tracks of
    the old stream first, then starts on the new device.  If
    [getUserMedia] refuses, its error comes through and the microphone is
    left disabled and without a stream.  If it delivers a stream, the
    manager holds that stream: the microphone is enabled when the start
    goes through, which it does whenever the audio graph raises nothing;
    when [new AudioContext], [resume] or [createMediaStreamSource] throws,
    that error comes through and the microphone is left disabled with the
    new stream in hand, its tracks not stopped.  The new device is selected
    in every case. *)
Theorem changeDevice_restarts_or_records (dev : string) (env : MediaEnv) (d : Dashboard) :
  let d' := snd (changeDevice dev env d) in
  let m := microphoneManager d' in
  selectedDeviceId m = dev /\
  if isEnabled (microphoneManager d)
  then stoppedTracks d' =
         stoppedTracks d ++ match stream (microphoneManager d) with
                            | Some s => trackIds s
                            | None => []
                            end /\
       match getUserMedia env with
       | Normal s =>
           stream m = Some s /\
           match fst (changeDevice dev env d) with
           | Normal _ => isEnabled m = true
           | Abrupt e =>
               isEnabled m = false /\
               (new_AudioContext env = Some e \/ resume env = Some e \/
                createMediaStreamSource env = Some e)
           end /\
           (new_AudioContext env = None -> resume env = None ->
            createMediaStreamSource env = None ->
            fst (changeDevice dev env d) = Normal tt)
       | Abrupt e => fst (changeDevice dev env d) = Abrupt e /\
                     stream m = None /\ isEnabled m = false
       end
  else changeDevice dev env d =
         (Normal tt, set_microphoneManager (with_selectedDeviceId dev) d).
Proof.
  unfold changeDevice. js_unfold. cbn -[start stop].
  destruct (isEnabled (microphoneManager d)) eqn:Hen; cbn -[start stop]; [|split; reflexivity].
  destruct (stop_spec d) as (H1 & H2 & H3 & _ & _ & _ & H7).
  destruct (stop d) as [[[]|e0] d1]; [|discriminate H1]. cbn -[start] in *.
  set (d2 := set_microphoneManager (with_selectedDeviceId dev) d1).
  pose proof (start_outcome dev env d2) as K. cbv zeta in K. destruct K as (K1 & K2 & K3).
  destruct (getUserMedia env) as [s|e] eqn:Hs.
  - destruct K3 as [K3 K4].
    pose proof (start_returns dev env s d2 Hs) as K5.
    destruct (start dev env d2) as [[s'|e] d3]; cbn in *.
    + rewrite K2. destruct K4 as (_ & K4 & _). auto.
    + rewrite K2. destruct K4 as [K4 K6]. rewrite K4, H3.
      repeat split; auto.
      intros Hn Hr Hc. discriminate (K5 Hn Hr Hc).
  - rewrite (start_failure dev env e d2 Hs). cbn. auto.
Qed.

Lemma changeDevice_restarts_or_records_witness :
  let mic s := {| streamId := s; trackIds := [s] |} in
  let env s fault := {| getUserMedia := Normal (mic s); startsSuspended := false;
                        new_AudioContext := None; resume := None;
                        createMediaStreamSource := fault |} in
  let d := snd (start "a" (env "a" None) webrtcController) in
  fst (changeDevice "b" (env "b" None) d) = Normal tt /\
  fst (changeDevice "b" (env "b" (Some InvalidStateError)) d) = Abrupt InvalidStateError /\
  getStatus (snd (changeDevice "b" (env "b" (Some InvalidStateError)) d)) =
    (Normal {| enabled := false; deviceId := "b"; hasStream := true |},
     snd (changeDevice "b" (env "b" (Some InvalidStateError)) d)) /\
  stoppedTracks (snd (changeDevice "b" (env "b" (Some InvalidStateError)) d)) = ["a"].
Proof.
  intros mic env d. split; [|vm_compute; repeat split].
  destruct (changeDevice_restarts_or_records "b" (env "b" None) d) as [_ H].
  change (isEnabled (microphoneManager d)) with true in H. cbv iota in H.
  destruct H as (_ & _ & _ & H). apply H; reflexivity.
Defined.

Lemma sumBytes_bounds (l : list byte) : 0 <= sumBytes l <= 255 * Z.of_nat (length l).
Proof.
  unfold sumBytes.
  assert (forall acc, fold_left (fun a b => a + Z.of_N (Byte.to_N b)) l acc - acc >= 0 /\
                      fold_left (fun a b => a + Z.of_N (Byte.to_N b)) l acc - acc
                        <= 255 * Z.of_nat (length l)) as H.
  { induction l as [|b l IH]; intros acc; [cbn; lia|].
    cbn [fold_left length]. specialize (IH (acc + Z.of_N (Byte.to_N b))).
    pose proof (Byte.to_N_bounded b) as Hb. lia. }
  specialize (H 0). lia.
Qed.

Lemma getByteFrequencyData_length (spectrum array : list byte) :
  length (getByteFrequencyData spectrum array) = length array.
Proof.
  unfold getByteFrequencyData. rewrite length_app, length_take, length_drop. lia.
Qed.

(** On every state the dashboard can reach, [getAudioLevel] returns a
    number between 0 and 1, whatever bins the analyser holds, and 0 while
    there is no analyser; the average is taken over the 1024 bins of the
    2048-sample window, so the division is never by zero. *)
Theorem audioLevel_in_unit_interval (l : list Action) (spectrum : list byte) :
  exists q, fst (getAudioLevel spectrum (perform l webrtcController)) = Normal q /\
            (0 <= q <= 1)%Q /\
            (analyser (microphoneManager (perform l webrtcController)) = None -> q = 0%Q).
Proof.
  pose proof (sound_fftSize _ (sound_perform l)) as Hfft.
  unfold getAudioLevel. js_unfold. cbn -[getByteFrequencyData Uint8Array sumBytes].
  destruct (analyser (microphoneManager (perform l webrtcController))) as [a|].
  - eexists. split; [reflexivity|]. split; [|discriminate].
    unfold frequencyBinCount. rewrite (Hfft a eq_refl).
    pose proof (sumBytes_bounds (getByteFrequencyData spectrum (Uint8Array (2048 / 2)%N))) as Hb.
    rewrite getByteFrequencyData_length, Uint8Array_length in *.
    change (N.to_nat (2048 / 2)) with 1024%nat in *.
    change (Z.of_nat 1024) with 1024 in *.
    set (sum := sumBytes _) in *. clearbody sum.
    unfold Qle, Qdiv, Qmult, Qinv, inject_Z. cbn. lia.
  - exists 0%Q. split; [reflexivity|]. split; [|reflexivity]. split; discriminate.
Qed.

(** ** The receivers *)

(** Candidates that reach the Electron receiver before the offer are
    queued, markers left out, and the offer flushes the queue: the peer
    connection gets exactly the queued candidates that have an sdpMid or an
    sdpMLineIndex, in the order they arrived, the queue is empty
    afterwards, and one answer is sent. *)
Theorem early_candidates_flushed_in_order (cs : list Candidate) (offer : SessionDescription)
    (text : string) (x : WebRTCReceiver.t) (p : RTCPeerConnection) :
  WebRTCReceiver.peerConnection x = Some p ->
  remoteDescription p = None ->
  signalingState p = SsStable ->
  sdpType offer = SdpOffer ->
  let x1 := receive cs x in
  let x2 := snd (WebRTCReceiver.handleOffer offer (Normal text) x1) in
  WebRTCReceiver.pendingICECandidates x1 = WebRTCReceiver.pendingICECandidates x ++ kept cs /\
  WebRTCReceiver.pendingICECandidates x2 = [] /\
  remoteCandidates <$> WebRTCReceiver.peerConnection x2 =
    Some (remoteCandidates p ++
          List.filter wellFormed (WebRTCReceiver.pendingICECandidates x ++ kept cs)) /\
  WebRTCReceiver.answers x2 =
    WebRTCReceiver.answers x ++ [{| sdpType := SdpAnswer; sdp := text |}].
Proof.
  intros Hp Hr Hs Ht.
  destruct (receive_queues cs x p Hp Hr) as (K1 & K2 & K3).
  destruct (handleOffer_success offer text (receive cs x) p K1 Hs Ht)
    as (p' & L1 & L2 & _ & _ & _ & L6 & L7).
  cbv zeta. rewrite L1, L6, L7, K3. cbn. rewrite L2, K2. repeat split.
Qed.

Lemma early_candidates_flushed_in_order_witness :
  let host := {| candidate := Some "candidate:1 1 udp 2122260223 192.168.1.7 50000 typ host";
                 sdpMid := Some "0"; sdpMLineIndex := Some 0%N |} in
  let relay := {| candidate := Some "candidate:2 1 udp 41885439 203.0.113.5 3478 typ relay";
                  sdpMid := None; sdpMLineIndex := Some 0%N |} in
  let bare := {| candidate := Some "candidate:3 1 udp 1 198.51.100.1 9 typ host";
                 sdpMid := None; sdpMLineIndex := None |} in
  let x := snd (WebRTCReceiver.initialize WebRTCReceiver.constructor) in
  let x2 := snd (WebRTCReceiver.handleOffer {| sdpType := SdpOffer; sdp := "offer" |}
                   (Normal "answer") (receive [Some host; None; Some bare; Some relay] x)) in
  remoteCandidates <$> WebRTCReceiver.peerConnection x2 = Some [host; relay] /\
  WebRTCReceiver.pendingICECandidates x2 = [].
Proof.
  intros host relay bare x x2.
  destruct (early_candidates_flushed_in_order [Some host; None; Some bare; Some relay]
              {| sdpType := SdpOffer; sdp := "offer" |} "answer" x
              (new_RTCPeerConnection WEBRTC_CONFIG) eq_refl eq_refl eq_refl eq_refl)
    as (_ & H2 & H3 & _).
  split; [exact H3 | exact H2].
Defined.

(** [handleOffer] of the Electron receiver never throws.  It either sends
    no answer and logs the failure, or sends exactly one answer, and then
    the peer connection holds the offer as remote and that answer as local
    description, is back in the stable state, and the queue is empty. *)
Theorem handleOffer_answers_or_logs (offer : SessionDescription)
    (createAnswer : Completion string) (x : WebRTCReceiver.t) :
  let x' := snd (WebRTCReceiver.handleOffer offer createAnswer x) in
  fst (WebRTCReceiver.handleOffer offer createAnswer x) = Normal tt /\
  ((WebRTCReceiver.answers x' = WebRTCReceiver.answers x /\
    last (WebRTCReceiver.console x') =
      Some {| level := LogError; message := "Failed to handle offer:" |}) \/
   (exists text p',
      createAnswer = Normal text /\
      WebRTCReceiver.answers x' =
        WebRTCReceiver.answers x ++ [{| sdpType := SdpAnswer; sdp := text |}] /\
      WebRTCReceiver.peerConnection x' = Some p' /\
      remoteDescription p' = Some offer /\
      localDescription p' = Some {| sdpType := SdpAnswer; sdp := text |} /\
      signalingState p' = SsStable /\
      WebRTCReceiver.pendingICECandidates x' = [])).
Proof.
  unfold WebRTCReceiver.handleOffer, WebRTCReceiver.on_pc.
  rjs. destruct (WebRTCReceiver.peerConnection x) as [p|] eqn:Hp;
    [|cbn; split; [reflexivity|]; left; split; [reflexivity | apply last_snoc]].
  destruct (pc_setRemoteDescription offer p) as [p1|e] eqn:Hset;
    [|cbn; split; [reflexivity|]; left; split; [reflexivity | apply last_snoc]].
  assert (remoteDescription p1 = Some offer /\ signalingState p1 <> SsClosed) as [Hrd1 Hs1].
  { unfold pc_setRemoteDescription in Hset.
    destruct (signalingState p), (sdpType offer); simplify_eq; cbn; split;
      first [reflexivity | discriminate]. }
  clear Hset. cbn -[WebRTCReceiver.flush].
  match goal with
  | |- context [match WebRTCReceiver.pendingICECandidates x with _ => _ end ?y] =>
      assert (exists x2 p2,
                match WebRTCReceiver.pendingICECandidates x with
                | [] => ret tt
                | _ :: _ =>
                    WebRTCReceiver.log LogInfo "Flushing pending ICE candidates" ;;;
                    WebRTCReceiver.flush (WebRTCReceiver.pendingICECandidates x) ;;;
                    modify (WebRTCReceiver.set_pending (fun _ => []))
                end y = (Normal tt, x2) /\
                WebRTCReceiver.peerConnection x2 = Some p2 /\
                remoteDescription p2 = Some offer /\
                signalingState p2 = signalingState p1 /\
                WebRTCReceiver.answers x2 = WebRTCReceiver.answers x /\
                WebRTCReceiver.pendingICECandidates x2 = [])
        as (x2 & p2 & E & K1 & K2 & K3 & K4 & K5)
  end.
  { destruct (WebRTCReceiver.pendingICECandidates x) as [|c l] eqn:Hq.
    - do 2 eexists. split; [reflexivity|]. cbn. rewrite Hq. eauto.
    - unfold WebRTCReceiver.log, bind, modify. cbn -[WebRTCReceiver.flush].
      match goal with
      | |- context [WebRTCReceiver.flush (c :: l) ?y] =>
          destruct (flush_applies (c :: l) y p1 eq_refl) as (L1 & (p2 & L2 & _ & L4 & L5 & _) & _ & L8);
            [rewrite Hrd1; eauto | exact Hs1 |];
            destruct (WebRTCReceiver.flush (c :: l) y) as [[[]|e] x2]; [|discriminate L1]
      end.
      cbn [fst snd] in *. do 2 eexists. split; [reflexivity|]. cbn.
      rewrite L2, L8. split; [reflexivity|]. rewrite L5, L4. auto. }
  unfold WebRTCReceiver.log, ret, bind, modify in E.
  cbn -[WebRTCReceiver.flush] in E |- *.
  match type of E with
  | ?t = _ => match goal with |- context [t] => rewrite E end
  end.
  cbn. destruct createAnswer as [text|e];
    [|cbn; split; [reflexivity|]; left; rewrite K4; split; [reflexivity | apply last_snoc]].
  cbn. rewrite K1. unfold pc_setLocalDescription. cbn.
  destruct (signalingState p2) eqn:Hs2; cbn;
    try (split; [reflexivity|]; left; rewrite K4; split; [reflexivity | apply last_snoc]).
  split; [reflexivity|]. right. exists text. eexists. split; [reflexivity|].
  rewrite K4. cbn. repeat split; assumption.
Qed.

(** The browser receiver has no queue: a candidate that reaches it before
    the offer is handed to [addIceCandidate], which rejects it, and is
    lost; the peer connection is unchanged, the failure is logged, the
    handler returns normally. *)
Theorem SocketReceiver_loses_early_candidates (i : IceCandidateInit)
    (x : SocketReceiver.t) (p : RTCPeerConnection) :
  SocketReceiver.peerConnection x = Some p ->
  remoteDescription p = None ->
  emptyCandidate (Some i) = false ->
  SocketReceiver.handleIceCandidate (Some i) x =
    (Normal tt,
     SocketReceiver.set_console
       (fun c => c ++ [{| level := LogError; message := "Failed to add ICE candidate:" |}]) x).
Proof.
  intros Hp Hr He. unfold SocketReceiver.handleIceCandidate, SocketReceiver.on_pc.
  unfold bind, get, tryCatch. rewrite Hp, He. rewrite Hp. unfold pc_addIceCandidate. rewrite Hr.
  destruct (sdpMid i), (sdpMLineIndex i), (signalingState p); reflexivity.
Qed.

Lemma SocketReceiver_loses_early_candidates_witness :
  let i := {| candidate := Some "candidate:1 1 udp 2122260223 192.168.1.7 50000 typ host";
              sdpMid := Some "0"; sdpMLineIndex := Some 0%N |} in
  let x := snd (SocketReceiver.initialize SocketReceiver.constructor) in
  remoteCandidates <$>
    SocketReceiver.peerConnection (snd (SocketReceiver.handleIceCandidate (Some i) x)) = Some [].
Proof.
  intros i x.
  rewrite (SocketReceiver_loses_early_candidates i x (new_RTCPeerConnection WEBRTC_CONFIG)
             eq_refl eq_refl eq_refl).
  reflexivity.
Defined.

(** The handshake goes through: the dashboard creates a connection and
    sends its offer on the adapter of the id, a receiver with a fresh peer
    connection answers it, and [handleAnswer] applies that answer.  Both
    ends are then in the stable signaling state and each holds the offer
    and the answer, as local and remote description crosswise. *)
Theorem handshake_completes (w : WindowId) (offerText answerText : string)
    (d : Dashboard) (x : WebRTCReceiver.t) (p : RTCPeerConnection) :
  WebRTCReceiver.peerConnection x = Some p ->
  signalingState p = SsStable ->
  let offer := {| sdpType := SdpOffer; sdp := offerText |} in
  let answer := {| sdpType := SdpAnswer; sdp := answerText |} in
  let d1 := snd (createConnection w (Normal offerText) d) in
  let x1 := snd (WebRTCReceiver.handleOffer offer (Normal answerText) x) in
  let d2 := snd (handleAnswer w answer d1) in
  last (electronAPI d1) =
    Some (if isBrowserClient w then sendOfferToBrowserClient w offer else sendOffer w offer) /\
  last (WebRTCReceiver.answers x1) = Some answer /\
  exists k p',
    connections d2 !! w = Some (nextPc d) /\ heap d2 !! nextPc d = Some k /\
    signalingState (pc k) = SsStable /\
    localDescription (pc k) = Some offer /\ remoteDescription (pc k) = Some answer /\
    WebRTCReceiver.peerConnection x1 = Some p' /\
    signalingState p' = SsStable /\
    localDescription p' = Some answer /\ remoteDescription p' = Some offer.
Proof.
  intros Hp Hs offer answer d1 x1 d2.
  destruct (handleOffer_success offer answerText x p Hp Hs eq_refl)
    as (p' & L1 & _ & L3 & L4 & L5 & _ & L7).
  fold x1 in L1, L7. fold answer in L5, L7.
  split; [|split; [rewrite L7; apply last_snoc|]].
  - subst d1. unfold createConnection, on_pc. js. rewrite lookup_insert_eq. cbn.
    destruct (isBrowserClient w); cbn; apply last_snoc.
  - assert (exists k, connections d1 !! w = Some (nextPc d) /\ heap d1 !! nextPc d = Some k /\
                      signalingState (pc k) = SsHaveLocalOffer /\
                      localDescription (pc k) = Some offer) as (k & K1 & K2 & K3 & K4).
    { subst d1. unfold createConnection, on_pc. js. rewrite lookup_insert_eq. cbn.
      destruct (isBrowserClient w); cbn; eexists; rewrite !lookup_insert_eq; repeat split. }
    subst d2. unfold handleAnswer, on_pc. js. rewrite K1. cbn. rewrite K2.
    unfold pc_setRemoteDescription. rewrite K3. cbn.
    eexists. exists p'. rewrite K1, lookup_insert_eq. cbn. rewrite K4. repeat split; assumption.
Qed.

Lemma handshake_completes_witness :
  let d := webrtcController in
  let x := snd (WebRTCReceiver.initialize WebRTCReceiver.constructor) in
  let x1 := snd (WebRTCReceiver.handleOffer {| sdpType := SdpOffer; sdp := "o" |} (Normal "a") x) in
  last (WebRTCReceiver.answers x1) = Some {| sdpType := SdpAnswer; sdp := "a" |}.
Proof.
  intros d x x1.
  destruct (handshake_completes (NumId 1) "o" "a" d x (new_RTCPeerConnection WEBRTC_CONFIG)
              eq_refl eq_refl) as (_ & H & _).
  exact H.
Defined.

(** ** The preset controller of the dashboard *)

Lemma findIndex_from_bounds {A} (f : A -> bool) (l : list A) (i : Z) :
  VisualizationController.findIndex_from i f l = -1 \/ i <= VisualizationController.findIndex_from i f l < i + Z.of_nat (length l).
Proof.
  revert i. induction l as [|a l IH]; intros i; cbn [VisualizationController.findIndex_from length].
  - left. reflexivity.
  - destruct (f a); [right; lia|]. destruct (IH (i + 1)) as [H|H]; [left; exact H | right; lia].
Qed.

Lemma findIndex_bounds {A} (f : A -> bool) (l : list A) :
  -1 <= VisualizationController.findIndex f l < Z.of_nat (length l).
Proof. unfold VisualizationController.findIndex. destruct (findIndex_from_bounds f l 0) as [H|H]; lia. Qed.

Lemma item_in_range {A} (l : list A) (i : Z) :
  0 <= i < Z.of_nat (length l) -> exists a, VisualizationController.item l i = Some a /\ In a l.
Proof.
  intros H. unfold VisualizationController.item. destruct (Z.ltb_spec i 0) as [Hneg|_]; [lia|].
  destruct (lookup_lt_is_Some_2 l (Z.to_nat i)) as [a Ha]; [lia|].
  exists a. split; [exact Ha|]. apply list_elem_of_In. eapply list_elem_of_lookup_2, Ha.
Qed.

Lemma enabledPresets_enabled (x : VisualizationController.t) (r : option VisualizationController.Preset) :
  (exists p, r = Some p /\ In p (VisualizationController.enabledPresets x)) -> enabledPreset x r.
Proof.
  intros (p & -> & Hin). apply filter_In in Hin as [Hin Hen].
  exists p. split; [reflexivity|]. split; [exact Hin|].
  unfold VisualizationController.isPresetDisabled. destruct (VisualizationController.includes _ _); [discriminate Hen | reflexivity].
Qed.

Lemma rem_next (i n : Z) : 0 < n -> -1 <= i < n -> 0 <= Z.rem (i + 1) n < n.
Proof. intros Hn H. apply Z.rem_bound_pos; lia. Qed.

Lemma rem_previous (i n : Z) : 0 < n -> -1 <= i < n -> 0 <= Z.rem (i - 1 + n) n < n.
Proof.
  intros Hn0 H. destruct (Z.eq_dec n 1) as [->|Hn].
  - rewrite Z.rem_1_r. lia.
  - apply Z.rem_bound_pos; lia.
Qed.

Lemma floor_random (random : Q) (n : nat) :
  (0 <= random)%Q -> (random < 1)%Q -> (0 < n)%nat ->
  0 <= Qfloor (random * inject_Z (Z.of_nat n)) < Z.of_nat n.
Proof.
  intros H0 H1 Hn.
  assert (0 < inject_Z (Z.of_nat n))%Q as Hpos.
  { change 0%Q with (inject_Z 0). rewrite <- Zlt_Qlt. lia. }
  split.
  - change 0 with (Qfloor 0). apply Qfloor_resp_le.
    apply Qmult_le_0_compat; [exact H0 | apply Qlt_le_weak, Hpos].
  - rewrite Zlt_Qlt. eapply Qle_lt_trans; [apply Qfloor_le|].
    rewrite <- (Qmult_1_l (inject_Z (Z.of_nat n))) at 2.
    apply Qmult_lt_compat_r; assumption.
Qed.

(** Stepping forward, stepping back and drawing at random never yield a
    disabled preset while at least one preset is enabled: each returns a
    preset of the list that is not disabled, whether or not the window has
    a tracked preset and whether or not that preset is itself enabled. *)
Theorem cycling_skips_disabled (w : WindowId) (random : Q) (x : VisualizationController.t) :
  VisualizationController.enabledPresets x <> [] ->
  (0 <= random)%Q -> (random < 1)%Q ->
  enabledPreset x (VisualizationController.getNextPreset w x) /\
  enabledPreset x (VisualizationController.getPreviousPreset w x) /\
  enabledPreset x (VisualizationController.getRandomPreset random x).
Proof.
  intros Hne H0 H1.
  assert (0 < length (VisualizationController.enabledPresets x))%nat as Hlen.
  { destruct (VisualizationController.enabledPresets x); [congruence | cbn; lia]. }
  unfold VisualizationController.getNextPreset, VisualizationController.getPreviousPreset, VisualizationController.getRandomPreset.
  destruct (Nat.eqb_spec (length (VisualizationController.enabledPresets x)) 0) as [Hz|_]; [lia|].
  pose proof (findIndex_bounds (VisualizationController.isCurrent (VisualizationController.getCurrentPreset w x)) (VisualizationController.enabledPresets x))
    as Hi.
  repeat split; apply enabledPresets_enabled, item_in_range.
  - apply rem_next; lia.
  - apply rem_previous; lia.
  - apply floor_random; assumption.
Qed.

Lemma cycling_skips_disabled_witness :
  let preset n := {| VisualizationController.name := n; VisualizationController.displayName := n; VisualizationController.author := EmptyString;
                     VisualizationController.category := "other"; VisualizationController.thumbnailPath := VisualizationController.sanitizeFilename n |} in
  let x := {| VisualizationController.webrtcController := true;
              VisualizationController.presets := [preset "a"; preset "b"; preset "c"];
              VisualizationController.presetNames := ["a"; "b"; "c"];
              VisualizationController.currentPresets := {[ NumId 1 := "a" ]};
              VisualizationController.disabledPresets := ["b"];
              VisualizationController.initialized := true |} in
  VisualizationController.getNextPreset (NumId 1) x = Some (preset "c") /\
  enabledPreset x (VisualizationController.getPreviousPreset (NumId 2) x).
Proof.
  intros preset x. split; [reflexivity|].
  apply (cycling_skips_disabled (NumId 2) 0 x); [discriminate | discriminate | reflexivity].
Defined.

Lemma findIndex_from_unique (l : list VisualizationController.Preset) (j : nat) (p : VisualizationController.Preset) (i : Z) :
  NoDup (map VisualizationController.name l) ->
  l !! j = Some p ->
  VisualizationController.findIndex_from i (VisualizationController.isCurrent (Some (VisualizationController.name p))) l = i + Z.of_nat j.
Proof.
  revert j i. induction l as [|a l IH]; intros j i Hnd Hj; [discriminate Hj|].
  cbn [VisualizationController.findIndex_from VisualizationController.isCurrent]. cbn in Hnd. apply NoDup_cons in Hnd as [Hnotin Hnd].
  destruct j as [|j]; cbn in Hj.
  - injection Hj as ->. rewrite String.eqb_refl. lia.
  - destruct (String.eqb_spec (VisualizationController.name a) (VisualizationController.name p)) as [Heq|_].
    + exfalso. apply Hnotin. rewrite Heq. apply list_elem_of_In, in_map, list_elem_of_In.
      eapply list_elem_of_lookup_2, Hj.
    + rewrite (IH j (i + 1) Hnd Hj). lia.
Qed.

(** Stepping forward and then back returns to where the window was, and
    so does stepping back and then forward: if the tracked preset of the
    window is enabled and the enabled presets have distinct names, the
    preset that [getPreviousPreset] returns after the window has moved to
    the one [getNextPreset] returned is the tracked one again. *)
Theorem next_then_previous_returns (w : WindowId) (n : string) (x : VisualizationController.t) :
  NoDup (map VisualizationController.name (VisualizationController.enabledPresets x)) ->
  VisualizationController.getCurrentPreset w x = Some n ->
  In n (map VisualizationController.name (VisualizationController.enabledPresets x)) ->
  (exists p q, VisualizationController.getNextPreset w x = Some p /\
               VisualizationController.getPreviousPreset w (VisualizationController.trackWindowPreset w (VisualizationController.name p) x) = Some q /\
               VisualizationController.name q = n) /\
  (exists p q, VisualizationController.getPreviousPreset w x = Some p /\
               VisualizationController.getNextPreset w (VisualizationController.trackWindowPreset w (VisualizationController.name p) x) = Some q /\
               VisualizationController.name q = n).
Proof.
  intros Hnd Hcur Hin.
  apply in_map_iff in Hin as (p0 & Hname & Hin0).
  apply list_elem_of_In, list_elem_of_lookup_1 in Hin0 as [j Hj].
  pose proof (lookup_lt_Some _ _ _ Hj) as Hlt.
  set (l := VisualizationController.enabledPresets x) in *.
  assert (forall y, VisualizationController.enabledPresets (VisualizationController.trackWindowPreset w y x) = l) as Hsame by reflexivity.
  assert (forall y, VisualizationController.getCurrentPreset w (VisualizationController.trackWindowPreset w y x) = Some y) as Htrack.
  { intros y. unfold VisualizationController.getCurrentPreset. cbn. apply lookup_insert_eq. }
  assert (forall k p, l !! k = Some p -> VisualizationController.findIndex (VisualizationController.isCurrent (Some (VisualizationController.name p))) l = Z.of_nat k)
    as Hfind.
  { intros k p Hk. unfold VisualizationController.findIndex. rewrite (findIndex_from_unique l k p 0 Hnd Hk). lia. }
  assert (forall k, (k < length l)%nat -> exists p, l !! k = Some p /\ VisualizationController.item l (Z.of_nat k) = Some p)
    as Hitem.
  { intros k Hk. destruct (lookup_lt_is_Some_2 l k Hk) as [p Hp]. exists p. split; [exact Hp|].
    unfold VisualizationController.item. destruct (Z.ltb_spec (Z.of_nat k) 0); [lia|]. rewrite Nat2Z.id. exact Hp. }
  unfold VisualizationController.getNextPreset, VisualizationController.getPreviousPreset.
  rewrite !Hcur. fold l.
  destruct (Nat.eqb_spec (length l) 0) as [Hz|_]; [lia|].
  rewrite <- Hname, (Hfind j p0 Hj).
  split.
  - destruct (Nat.eq_dec (S j) (length l)) as [Hlast|Hmid].
    + replace (Z.rem (Z.of_nat j + 1) (Z.of_nat (length l))) with (Z.of_nat 0)
        by (rewrite <- Hlast, Nat2Z.inj_succ, <- Z.add_1_r, Z.rem_same; lia).
      destruct (Hitem 0%nat) as (p & Hp & Hip); [lia|].
      exists p, p0. split; [exact Hip|]. rewrite Hsame, Htrack.
      destruct (Nat.eqb_spec (length l) 0) as [Hz|_]; [lia|].
      rewrite (Hfind 0%nat p Hp).
      replace (Z.rem (Z.of_nat 0 - 1 + Z.of_nat (length l)) (Z.of_nat (length l)))
        with (Z.of_nat j) by (rewrite Z.rem_small; lia).
      destruct (Hitem j Hlt) as (p' & Hp' & Hip'). rewrite Hip'. split; congruence.
    + replace (Z.rem (Z.of_nat j + 1) (Z.of_nat (length l))) with (Z.of_nat (S j))
        by (rewrite Z.rem_small; lia).
      destruct (Hitem (S j)) as (p & Hp & Hip); [lia|].
      exists p, p0. split; [exact Hip|]. rewrite Hsame, Htrack.
      destruct (Nat.eqb_spec (length l) 0) as [Hz|_]; [lia|].
      rewrite (Hfind (S j) p Hp).
      replace (Z.rem (Z.of_nat (S j) - 1 + Z.of_nat (length l)) (Z.of_nat (length l)))
        with (Z.of_nat j).
      2:{ replace (Z.of_nat (S j) - 1 + Z.of_nat (length l))
            with (Z.of_nat j + 1 * Z.of_nat (length l)) by lia.
          rewrite Z.rem_add by lia. rewrite Z.rem_small; lia. }
      destruct (Hitem j Hlt) as (p' & Hp' & Hip'). rewrite Hip'. split; congruence.
  - destruct j as [|j'].
    + replace (Z.rem (Z.of_nat 0 - 1 + Z.of_nat (length l)) (Z.of_nat (length l)))
        with (Z.of_nat (length l - 1)) by (rewrite Z.rem_small; lia).
      destruct (Hitem (length l - 1)%nat) as (p & Hp & Hip); [lia|].
      exists p, p0. split; [exact Hip|]. rewrite Hsame, Htrack.
      destruct (Nat.eqb_spec (length l) 0) as [Hz|_]; [lia|].
      rewrite (Hfind _ p Hp).
      replace (Z.rem (Z.of_nat (length l - 1) + 1) (Z.of_nat (length l))) with (Z.of_nat 0)
        by (replace (Z.of_nat (length l - 1) + 1) with (Z.of_nat (length l)) by lia;
            rewrite Z.rem_same; lia).
      destruct (Hitem 0%nat) as (p' & Hp' & Hip'); [lia|]. rewrite Hip'. split; congruence.
    + replace (Z.rem (Z.of_nat (S j') - 1 + Z.of_nat (length l)) (Z.of_nat (length l)))
        with (Z.of_nat j').
      2:{ replace (Z.of_nat (S j') - 1 + Z.of_nat (length l))
            with (Z.of_nat j' + 1 * Z.of_nat (length l)) by lia.
          rewrite Z.rem_add by lia. rewrite Z.rem_small; lia. }
      destruct (Hitem j') as (p & Hp & Hip); [lia|].
      exists p, p0. split; [exact Hip|]. rewrite Hsame, Htrack.
      destruct (Nat.eqb_spec (length l) 0) as [Hz|_]; [lia|].
      rewrite (Hfind j' p Hp).
      replace (Z.rem (Z.of_nat j' + 1) (Z.of_nat (length l))) with (Z.of_nat (S j'))
        by (rewrite Z.rem_small; lia).
      destruct (Hitem (S j') Hlt) as (p' & Hp' & Hip'). rewrite Hip'. split; congruence.
Qed.

Lemma next_then_previous_returns_witness :
  let preset n := {| VisualizationController.name := n; VisualizationController.displayName := n; VisualizationController.author := EmptyString;
                     VisualizationController.category := "other"; VisualizationController.thumbnailPath := VisualizationController.sanitizeFilename n |} in
  let x := {| VisualizationController.webrtcController := true;
              VisualizationController.presets := [preset "a"; preset "b"; preset "c"];
              VisualizationController.presetNames := ["a"; "b"; "c"];
              VisualizationController.currentPresets := {[ NumId 1 := "c" ]};
              VisualizationController.disabledPresets := ["b"];
              VisualizationController.initialized := true |} in
  exists p q, VisualizationController.getNextPreset (NumId 1) x = Some p /\
              VisualizationController.getPreviousPreset (NumId 1) (VisualizationController.trackWindowPreset (NumId 1) (VisualizationController.name p) x)
                = Some q /\
              VisualizationController.name q = "c".
Proof.
  intros preset x.
  apply (next_then_previous_returns (NumId 1) "c" x).
  - cbn. apply NoDup_cons. split; [|apply NoDup_singleton].
    intros H. apply list_elem_of_singleton in H. discriminate H.
  - reflexivity.
  - cbn. auto.
Defined.

(** A window without a tracked preset, or with a disabled one, starts the
    cycle at the first enabled preset when stepping forward; stepping back
    it lands on the last but one, not on the last (the index is
    [(-1 - 1 + n) % n]), and on the only preset when there is one. *)
Theorem untracked_window_cycle (w : WindowId) (x : VisualizationController.t) :
  VisualizationController.enabledPresets x <> [] ->
  (forall p, In p (VisualizationController.enabledPresets x) -> VisualizationController.isCurrent (VisualizationController.getCurrentPreset w x) p = false) ->
  let n := length (VisualizationController.enabledPresets x) in
  VisualizationController.getNextPreset w x = head (VisualizationController.enabledPresets x) /\
  VisualizationController.getPreviousPreset w x = VisualizationController.enabledPresets x !! (if (n =? 1)%nat then 0 else n - 2)%nat.
Proof.
  intros Hne Hcur n.
  assert (0 < n)%nat as Hlen.
  { subst n. destruct (VisualizationController.enabledPresets x); [congruence | cbn; lia]. }
  assert (forall i, VisualizationController.findIndex_from i (VisualizationController.isCurrent (VisualizationController.getCurrentPreset w x))
                      (VisualizationController.enabledPresets x) = -1) as Hfind.
  { revert Hcur. generalize (VisualizationController.enabledPresets x). intros l. induction l as [|a l IH]; intros H i.
    - reflexivity.
    - cbn [VisualizationController.findIndex_from]. rewrite (H a) by (left; reflexivity).
      apply IH. intros p Hp. apply H. right. exact Hp. }
  unfold VisualizationController.getNextPreset, VisualizationController.getPreviousPreset, VisualizationController.findIndex. rewrite Hfind. fold n.
  destruct (Nat.eqb_spec n 0) as [Hz|_]; [lia|]. split.
  - rewrite Z.rem_0_l by lia. unfold VisualizationController.item. cbn.
    destruct (VisualizationController.enabledPresets x); reflexivity.
  - destruct (Nat.eqb_spec n 1) as [H1|H1].
    + rewrite H1. reflexivity.
    + rewrite Z.rem_small by lia. unfold VisualizationController.item.
      destruct (Z.ltb_spec (-1 - 1 + Z.of_nat n) 0); [lia|].
      f_equal. lia.
Qed.

Lemma untracked_window_cycle_witness :
  let preset n := {| VisualizationController.name := n; VisualizationController.displayName := n; VisualizationController.author := EmptyString;
                     VisualizationController.category := "other"; VisualizationController.thumbnailPath := VisualizationController.sanitizeFilename n |} in
  let x := {| VisualizationController.webrtcController := true;
              VisualizationController.presets := [preset "a"; preset "b"; preset "c"];
              VisualizationController.presetNames := ["a"; "b"; "c"];
              VisualizationController.currentPresets := ∅;
              VisualizationController.disabledPresets := [];
              VisualizationController.initialized := true |} in
  VisualizationController.getNextPreset (NumId 1) x = Some (preset "a") /\
  VisualizationController.getPreviousPreset (NumId 1) x = Some (preset "b").
Proof.
  intros preset x.
  apply (untracked_window_cycle (NumId 1) x); [discriminate|].
  intros p _. reflexivity.
Defined.

Lemma replace_length (s : string) : String.length (VisualizationController.replace s) = String.length s.
Proof. induction s as [|c s IH]; cbn; [reflexivity | rewrite IH; reflexivity]. Qed.

Lemma append_length (a b : string) :
  String.length (a ++ b)%string = (String.length a + String.length b)%nat.
Proof.
  induction a as [|c a IH]; [reflexivity|].
  change (S (String.length (a ++ b)%string) = S (String.length a + String.length b)%nat).
  f_equal. exact IH.
Qed.

Lemma replace_append (a b : string) :
  VisualizationController.replace (a ++ b)%string = (VisualizationController.replace a ++ VisualizationController.replace b)%string.
Proof.
  induction a as [|c a IH]; [reflexivity|].
  change (String (if VisualizationController.allowed c then c else "_"%char) (VisualizationController.replace (a ++ b)%string) =
          String (if VisualizationController.allowed c then c else "_"%char) (VisualizationController.replace a ++ VisualizationController.replace b)%string).
  f_equal. exact IH.
Qed.

Lemma replace_allowed (s : string) :
  Forall (fun c => VisualizationController.allowed c = true) (list_ascii_of_string (VisualizationController.replace s)).
Proof.
  induction s as [|c s IH]; cbn; constructor; [|exact IH].
  destruct (VisualizationController.allowed c) eqn:Hc; [exact Hc | reflexivity].
Qed.

Lemma replace_fixed (s : string) :
  Forall (fun c => VisualizationController.allowed c = true) (list_ascii_of_string s) -> VisualizationController.replace s = s.
Proof.
  induction s as [|c s IH]; cbn; intros H; [reflexivity|].
  apply Forall_cons in H as [Hc Hs]. rewrite Hc, (IH Hs). reflexivity.
Qed.

(** The thumbnail file name of a preset is as long as the preset name
    plus four, ends in [.png], and keeps letters, digits, hyphen,
    underscore and white space where they are; every other character has
    become an underscore.  So a name of allowed characters only is kept as
    it is, and two names that differ only in characters outside the class
    get the same file name. *)
Theorem sanitizeFilename_shape (name : string) :
  String.length (VisualizationController.sanitizeFilename name) = (String.length name + 4)%nat /\
  (exists stem, VisualizationController.sanitizeFilename name = (stem ++ ".png")%string /\
                String.length stem = String.length name /\
                Forall (fun c => VisualizationController.allowed c = true) (list_ascii_of_string stem) /\
                forall i c, String.get i name = Some c ->
                            String.get i stem = Some (if VisualizationController.allowed c then c else "_"%char)) /\
  (Forall (fun c => VisualizationController.allowed c = true) (list_ascii_of_string name) ->
   VisualizationController.sanitizeFilename name = (name ++ ".png")%string) /\
  (forall a b c1 c2,
     name = (a ++ String c1 b)%string -> VisualizationController.allowed c1 = false -> VisualizationController.allowed c2 = false ->
     VisualizationController.sanitizeFilename (a ++ String c2 b)%string = VisualizationController.sanitizeFilename name).
Proof.
  unfold VisualizationController.sanitizeFilename. split; [|split; [|split]].
  - rewrite append_length, replace_length. reflexivity.
  - exists (VisualizationController.replace name). split; [reflexivity|]. split; [apply replace_length|].
    split; [apply replace_allowed|].
    induction name as [|c0 s IH]; intros i c Hi; [discriminate Hi|].
    destruct i as [|i]; cbn in Hi |- *.
    + injection Hi as ->. reflexivity.
    + apply IH, Hi.
  - intros H. rewrite (replace_fixed name H). reflexivity.
  - intros a b c1 c2 -> H1 H2. rewrite !replace_append. cbn [VisualizationController.replace].
    rewrite H1, H2. reflexivity.
Qed.

Lemma sanitizeFilename_shape_witness :
  VisualizationController.sanitizeFilename "Geiss - Dust 2" = "Geiss - Dust 2.png" /\
  VisualizationController.sanitizeFilename "a/b" = VisualizationController.sanitizeFilename "a?b".
Proof.
  destruct (sanitizeFilename_shape "Geiss - Dust 2") as (_ & _ & H & _).
  destruct (sanitizeFilename_shape "a?b") as (_ & _ & _ & H').
  split.
  - apply H. cbn [list_ascii_of_string].
    repeat (apply Forall_cons; split; [reflexivity|]). apply Forall_nil. exact I.
  - apply (H' "a" "b" "?"%char "/"%char); reflexivity.
Defined.

Lemma sendControlMessage_never_throws (w : WindowId) (m : JsonValue) (f : option Exn)
    (d : Dashboard) :
  exists b, fst (sendControlMessage w m f d) = Normal b.
Proof.
  unfold sendControlMessage, controlChannel_send, dc_send. js_unfold. cbn -[JSON_stringify].
  destruct (connections d !! w) as [r|]; [|eexists; reflexivity]. cbn -[JSON_stringify].
  destruct (heap d !! r) as [k|] eqn:Hr; [|eexists; reflexivity].
  destruct (negb (pc_controlChannel k) ||
            negb (bool_decide (readyState (controlChannel k) = RsOpen)));
    [eexists; reflexivity|].
  cbn -[JSON_stringify]. rewrite Hr.
  destruct (readyState (controlChannel k)); try (eexists; reflexivity).
  destruct f; eexists; reflexivity.
Qed.

(** [setWindowPreset] never throws.  It records the preset for the window
    before it asks the main process, so the record stays even when that
    call fails; in that case the failure is logged and nothing goes out
    on the control channel.  When the call succeeds and the control
    channel of the window is ready, the JSON text of the preset-change
    command is appended to what the channel has sent. *)
Theorem setWindowPreset_tracks_then_sends (w : WindowId) (presetName : string)
    (ipc : Completion unit) (fault : option Exn) (s : VisualizationController.Store) :
  let s' := snd (VisualizationController.setWindowPreset w presetName ipc fault s) in
  fst (VisualizationController.setWindowPreset w presetName ipc fault s) = Normal tt /\
  VisualizationController.currentPresets (VisualizationController.this s') = <[w := presetName]> (VisualizationController.currentPresets (VisualizationController.this s)) /\
  VisualizationController.electronAPI s' = VisualizationController.electronAPI s ++ [VisualizationController.setPreset w presetName] /\
  (forall e, ipc = Abrupt e ->
     heap (VisualizationController.controller s') = heap (VisualizationController.controller s) /\
     last (console (VisualizationController.controller s')) =
       Some {| level := LogError; message := "Failed to set preset:" |}) /\
  (forall r k,
     ipc = Normal tt -> VisualizationController.webrtcController (VisualizationController.this s) = true -> fault = None ->
     controlReady (VisualizationController.controller s) w r k ->
     exists k', heap (VisualizationController.controller s') !! r = Some k' /\
                sent (controlChannel k') =
                  sent (controlChannel k) ++ [Text (JSON_stringify (presetChange presetName))]).
Proof.
  unfold VisualizationController.setWindowPreset, VisualizationController.invoke, VisualizationController.on_controller, discard.
  unfold tryCatch, bind, modify, await, get, ret, log.
  cbn -[sendControlMessage JSON_stringify presetChange].
  destruct ipc as [[]|e]; cbn -[sendControlMessage JSON_stringify presetChange].
  - destruct (VisualizationController.webrtcController (VisualizationController.this s)) eqn:Hlinked;
      cbn -[sendControlMessage JSON_stringify presetChange].
    + destruct (sendControlMessage w (presetChange presetName) fault (VisualizationController.controller s))
        as [[b|e] d'] eqn:Hsend; cbn -[JSON_stringify presetChange].
      * repeat split; try discriminate.
        intros r k _ _ -> Hready.
        rewrite (sendControlMessage_ready w _ None _ r k Hready) in Hsend.
        injection Hsend as _ <-. cbn -[JSON_stringify presetChange].
        eexists. rewrite lookup_insert_eq. split; reflexivity.
      * exfalso.
        destruct (sendControlMessage_never_throws w (presetChange presetName) fault
                    (VisualizationController.controller s)) as [b Hb].
        rewrite Hsend in Hb. discriminate Hb.
    + repeat split; try discriminate.
  - split; [reflexivity|]. split; [reflexivity|]. split; [reflexivity|]. split.
    + intros e' _. split; [reflexivity | apply last_snoc].
    + intros r k H. discriminate H.
Qed.

Lemma setWindowPreset_tracks_then_sends_witness :
  let d := run [CreateConnection (StrId "abc-123") (Normal "offer");
                ControlChannelOpens 0%nat] webrtcController in
  let s := {| VisualizationController.this := VisualizationController.constructor true; VisualizationController.controller := d; VisualizationController.electronAPI := [] |} in
  let s' := snd (VisualizationController.setWindowPreset (StrId "abc-123") "Geiss - Reaction Diffusion 2"
                   (Normal tt) None s) in
  exists k', heap (VisualizationController.controller s') !! 0%nat = Some k' /\
             sent (controlChannel k') =
               [Text (JSON_stringify (presetChange "Geiss - Reaction Diffusion 2"))].
Proof.
  intros d s s'.
  destruct (setWindowPreset_tracks_then_sends (StrId "abc-123") "Geiss - Reaction Diffusion 2"
              (Normal tt) None s) as (_ & _ & _ & _ & H).
  apply (H 0%nat
           {| pc := {| iceServers := []; connectionState := CsNew;
                       signalingState := SsHaveLocalOffer;
                       localDescription := Some {| sdpType := SdpOffer; sdp := "offer" |};
                       remoteDescription := None;
                       remoteCandidates := [] |};
              audioChannel := createDataChannel "audioData" false (Some 0%N);
              controlChannel := with_readyState RsOpen (createDataChannel "control" true None);
              pc_controlChannel := true;
              audioChannelInterval := None |}); try reflexivity.
  repeat split; vm_compute; reflexivity.
Defined.

(** [setAllWindowsPreset] never throws and asks the main process once.
    When that call succeeds, every tracked window is retargeted to the
    preset and no window is added or dropped; when it fails, the tracking
    is as before.  In neither case does anything go out on a control
    channel: the peer connections of the controller are untouched. *)
Theorem setAllWindowsPreset_retargets (presetName : string) (ipc : Completion unit)
    (s : VisualizationController.Store) :
  let s' := snd (VisualizationController.setAllWindowsPreset presetName ipc s) in
  fst (VisualizationController.setAllWindowsPreset presetName ipc s) = Normal tt /\
  VisualizationController.electronAPI s' = VisualizationController.electronAPI s ++ [VisualizationController.setAllPresets presetName] /\
  dom (VisualizationController.currentPresets (VisualizationController.this s')) = dom (VisualizationController.currentPresets (VisualizationController.this s)) /\
  heap (VisualizationController.controller s') = heap (VisualizationController.controller s) /\
  (ipc = Normal tt ->
   forall w, VisualizationController.currentPresets (VisualizationController.this s') !! w =
             (fun _ => presetName) <$> VisualizationController.currentPresets (VisualizationController.this s) !! w) /\
  (forall e, ipc = Abrupt e ->
     VisualizationController.currentPresets (VisualizationController.this s') = VisualizationController.currentPresets (VisualizationController.this s)).
Proof.
  unfold VisualizationController.setAllWindowsPreset, VisualizationController.invoke, VisualizationController.on_controller.
  unfold tryCatch, bind, modify, await, get, ret, log. cbn.
  destruct ipc as [[]|e]; cbn.
  - split; [reflexivity|]. split; [reflexivity|]. split; [apply dom_fmap_L|].
    split; [reflexivity|]. split; [|discriminate].
    intros _ w. apply lookup_fmap.
  - split; [reflexivity|]. split; [reflexivity|]. split; [reflexivity|].
    split; [reflexivity|]. split; [discriminate|]. reflexivity.
Qed.

Lemma bucket_push (c c' : string) (p : VisualizationController.Preset) (m : list (string * list VisualizationController.Preset)) :
  bucket c' (VisualizationController.push c p m) =
  if String.eqb c c' then Some (default [] (bucket c' m) ++ [p]) else bucket c' m.
Proof.
  unfold bucket. induction m as [|[k l] m IH]; cbn [VisualizationController.push find fst].
  - cbn. destruct (String.eqb_spec c c'); reflexivity.
  - destruct (String.eqb_spec k c) as [->|Hkc]; cbn [find fst].
    + destruct (String.eqb_spec c c'); reflexivity.
    + destruct (String.eqb_spec k c') as [->|Hkc'].
      * destruct (String.eqb_spec c c'); [congruence | reflexivity].
      * exact IH.
Qed.

Lemma keys_push (c : string) (p : VisualizationController.Preset) (m : list (string * list VisualizationController.Preset)) :
  map fst (VisualizationController.push c p m) = if bool_decide (c ∈ map fst m) then map fst m else map fst m ++ [c].
Proof.
  induction m as [|[k l] m IH]; cbn [VisualizationController.push map fst].
  - rewrite bool_decide_eq_false_2 by apply not_elem_of_nil. reflexivity.
  - destruct (String.eqb_spec k c) as [->|Hkc]; cbn [map fst].
    + rewrite bool_decide_eq_true_2 by apply list_elem_of_here. reflexivity.
    + rewrite IH. destruct (decide (c ∈ map fst m)) as [Hin|Hnin].
      * rewrite !bool_decide_eq_true_2; auto. apply list_elem_of_further, Hin.
      * rewrite !bool_decide_eq_false_2; auto.
        intros Hin. apply elem_of_cons in Hin as [->|Hin]; [congruence | auto].
Qed.

Lemma categories_fold (ps done : list VisualizationController.Preset) (m : list (string * list VisualizationController.Preset)) :
  NoDup (map fst m) ->
  (forall c, bucket c m =
             match List.filter (fun preset => String.eqb (VisualizationController.category preset) c) done with
             | [] => None
             | l => Some l
             end) ->
  let m' := fold_left (fun categories preset => VisualizationController.push (VisualizationController.category preset) preset categories)
              ps m in
  NoDup (map fst m') /\
  forall c, bucket c m' =
            match List.filter (fun preset => String.eqb (VisualizationController.category preset) c) (done ++ ps) with
            | [] => None
            | l => Some l
            end.
Proof.
  revert done m. induction ps as [|p ps IH]; intros done m Hnd Hb; cbn [fold_left].
  - rewrite app_nil_r. auto.
  - replace (done ++ p :: ps) with ((done ++ [p]) ++ ps) by (rewrite <- app_assoc; reflexivity).
    apply IH.
    + rewrite keys_push. destruct (decide (VisualizationController.category p ∈ map fst m)) as [Hin|Hnin].
      * rewrite bool_decide_eq_true_2 by exact Hin. exact Hnd.
      * rewrite bool_decide_eq_false_2 by exact Hnin.
        apply NoDup_app. split; [exact Hnd|]. split; [|apply NoDup_singleton].
        intros k Hk Hk'. apply list_elem_of_singleton in Hk'. subst k. auto.
    + intros c. rewrite bucket_push, List.filter_app, Hb. cbn [List.filter].
      destruct (String.eqb_spec (VisualizationController.category p) c) as [Heq|Hne].
      * destruct (List.filter _ done) as [|q l]; cbn; reflexivity.
      * rewrite app_nil_r. reflexivity.
Qed.

(** [getCategories] and [getPresetsByCategory] agree on every category
    but the name "all": the map has one entry for each category that
    occurs, its bucket is never empty and holds the presets of that
    category in list order, which is what [getPresetsByCategory] returns
    for it; a category without presets has no entry.  For the name "all"
    they differ: [getPresetsByCategory] returns every preset, whereas the
    map treats "all" like any category, with a bucket of the presets whose
    category is "all", if there are any. *)
Theorem getCategories_partitions (x : VisualizationController.t) :
  NoDup (map fst (VisualizationController.getCategories x)) /\
  (forall c, c <> "all" ->
     match bucket c (VisualizationController.getCategories x) with
     | Some l => l = VisualizationController.getPresetsByCategory c x /\ l <> []
     | None => VisualizationController.getPresetsByCategory c x = []
     end) /\
  VisualizationController.getPresetsByCategory "all" x = VisualizationController.presets x /\
  match bucket "all" (VisualizationController.getCategories x) with
  | Some l =>
      l = List.filter (fun preset => String.eqb (VisualizationController.category preset) "all")
            (VisualizationController.presets x) /\ l <> []
  | None =>
      List.filter (fun preset => String.eqb (VisualizationController.category preset) "all")
        (VisualizationController.presets x) = []
  end.
Proof.
  destruct (categories_fold (VisualizationController.presets x) [] []) as [Hnd Hb];
    [apply NoDup_nil_2 | reflexivity |].
  split; [exact Hnd|]. split; [|split; [reflexivity|]].
  - intros c Hc. unfold VisualizationController.getCategories. rewrite (Hb c). cbn [app].
    unfold VisualizationController.getPresetsByCategory.
    destruct (String.eqb_spec c "all") as [Heq|_]; [congruence|].
    destruct (List.filter _ (VisualizationController.presets x));
      [reflexivity | split; [reflexivity | discriminate]].
  - unfold VisualizationController.getCategories. rewrite (Hb "all"). cbn [app].
    destruct (List.filter _ (VisualizationController.presets x));
      [reflexivity | split; [reflexivity | discriminate]].
Qed.

Lemma getCategories_partitions_witness :
  let preset n c := {| VisualizationController.name := n; VisualizationController.displayName := n; VisualizationController.author := c;
                       VisualizationController.category := c; VisualizationController.thumbnailPath := VisualizationController.sanitizeFilename n |} in
  let x := {| VisualizationController.webrtcController := true;
              VisualizationController.presets := [preset "a" "geiss"; preset "b" "other"; preset "c" "geiss"];
              VisualizationController.presetNames := ["a"; "b"; "c"];
              VisualizationController.currentPresets := ∅;
              VisualizationController.disabledPresets := [];
              VisualizationController.initialized := true |} in
  bucket "geiss" (VisualizationController.getCategories x) = Some [preset "a" "geiss"; preset "c" "geiss"] /\
  VisualizationController.getPresetsByCategory "martin" x = [] /\
  bucket "all" (VisualizationController.getCategories x) = None /\
  length (VisualizationController.getPresetsByCategory "all" x) = 3%nat.
Proof.
  intros preset x. split; [reflexivity|].
  destruct (getCategories_partitions x) as (_ & H & Hall & _).
  split; [|split; [reflexivity | rewrite Hall; reflexivity]].
  specialize (H "martin"). cbn in H. apply H. discriminate.
Defined.

(** ** The signaling relay of the main process *)

Lemma Map_get_set (k k' : string) (v : ExpressServer.Socket)
    (m : list (string * ExpressServer.Socket)) :
  ExpressServer.Map_get k' (ExpressServer.Map_set k v m) =
  if String.eqb k k' then Some v else ExpressServer.Map_get k' m.
Proof.
  induction m as [|[k0 v0] m IH]; cbn [ExpressServer.Map_set ExpressServer.Map_get].
  - destruct (String.eqb_spec k k'); reflexivity.
  - destruct (String.eqb_spec k0 k) as [->|Hne]; cbn [ExpressServer.Map_get].
    + destruct (String.eqb_spec k k'); reflexivity.
    + destruct (String.eqb_spec k0 k') as [->|Hne'].
      * destruct (String.eqb_spec k k'); [congruence | reflexivity].
      * exact IH.
Qed.

Lemma Map_get_delete_ne (k k' : string) (m : list (string * ExpressServer.Socket)) :
  k <> k' ->
  ExpressServer.Map_get k' (ExpressServer.Map_delete k m) = ExpressServer.Map_get k' m.
Proof.
  intros Hne. induction m as [|[k0 v0] m IH]; cbn [ExpressServer.Map_delete ExpressServer.Map_get].
  - reflexivity.
  - destruct (String.eqb_spec k0 k) as [->|Hk].
    + destruct (String.eqb_spec k k'); [congruence | reflexivity].
    + cbn [ExpressServer.Map_get]. destruct (String.eqb_spec k0 k'); [reflexivity | exact IH].
Qed.

Lemma keys_Map_set (k : string) (v : ExpressServer.Socket)
    (m : list (string * ExpressServer.Socket)) :
  map fst (ExpressServer.Map_set k v m) =
  if bool_decide (k ∈ map fst m) then map fst m else map fst m ++ [k].
Proof.
  induction m as [|[k0 v0] m IH]; cbn [ExpressServer.Map_set map fst].
  - rewrite bool_decide_eq_false_2 by apply not_elem_of_nil. reflexivity.
  - destruct (String.eqb_spec k0 k) as [->|Hne]; cbn [map fst].
    + rewrite bool_decide_eq_true_2 by apply list_elem_of_here. reflexivity.
    + rewrite IH. destruct (decide (k ∈ map fst m)) as [Hin|Hnin].
      * rewrite !bool_decide_eq_true_2; auto. apply list_elem_of_further, Hin.
      * rewrite !bool_decide_eq_false_2; auto.
        intros Hin. apply elem_of_cons in Hin as [->|Hin]; [congruence | auto].
Qed.

Lemma keys_Map_delete (k : string) (m : list (string * ExpressServer.Socket)) :
  NoDup (map fst m) ->
  map fst (ExpressServer.Map_delete k m) = List.filter (fun c => negb (String.eqb c k)) (map fst m).
Proof.
  induction m as [|[k0 v0] m IH]; cbn [ExpressServer.Map_delete map fst List.filter]; intros Hnd.
  - reflexivity.
  - apply NoDup_cons in Hnd as [Hnotin Hnd].
    destruct (String.eqb_spec k0 k) as [->|Hne]; cbn [negb map fst].
    + clear IH. induction m as [|[k1 v1] m IH]; [reflexivity|]. cbn [map fst List.filter].
      cbn [map fst] in Hnotin, Hnd. apply NoDup_cons in Hnd as [H1 Hnd].
      destruct (String.eqb_spec k1 k) as [->|_].
      * exfalso. apply Hnotin, list_elem_of_here.
      * cbn [negb]. f_equal. apply IH; [|exact Hnd].
        intros Hin. apply Hnotin, list_elem_of_further, Hin.
    + f_equal. apply IH, Hnd.
Qed.

Ltac case_find c s Hf :=
  match goal with
  | |- context [List.find ?f ?l] => destruct (List.find f l) as [[c s]|] eqn:Hf
  end.

Lemma keys_step (x : ExpressServer.t) (e : ExpressServer.Event) :
  NoDup (map fst (ExpressServer.audioDataClients x)) ->
  NoDup (map fst (ExpressServer.audioDataClients (ExpressServer.step x e))).
Proof.
  intros Hnd. destruct e; cbn [ExpressServer.step]; try exact Hnd.
  - cbn. rewrite keys_Map_set.
    destruct (decide (clientId ∈ map fst (ExpressServer.audioDataClients x))) as [Hin|Hnin].
    + rewrite bool_decide_eq_true_2 by exact Hin. exact Hnd.
    + rewrite bool_decide_eq_false_2 by exact Hnin.
      apply NoDup_app. split; [exact Hnd|]. split; [|apply NoDup_singleton].
      intros k Hk Hk'. apply list_elem_of_singleton in Hk'. subst k. auto.
  - unfold ExpressServer.disconnect. cbn -[find].
    case_find c s Hf; cbn; [|exact Hnd].
    rewrite keys_Map_delete by exact Hnd.
    apply NoDup_ListNoDup, List.NoDup_filter, NoDup_ListNoDup, Hnd.
  - unfold ExpressServer.sendOfferToBrowserClient.
    destruct (ExpressServer.Map_get _ _); exact Hnd.
  - unfold ExpressServer.sendIceCandidateToBrowserClient.
    destruct (ExpressServer.Map_get _ _); exact Hnd.
Qed.

Lemma keys_run (es : list ExpressServer.Event) :
  NoDup (map fst (ExpressServer.audioDataClients (ExpressServer.run es ExpressServer.constructor))).
Proof.
  assert (NoDup (map fst (ExpressServer.audioDataClients ExpressServer.constructor))) as H0
    by apply NoDup_nil_2.
  revert H0. generalize ExpressServer.constructor.
  induction es as [|e es IH]; intros x H; [exact H|]. apply IH, keys_step, H.
Qed.

Lemma find_socket_key (socket : ExpressServer.Socket) (c : string) (s : ExpressServer.Socket)
    (m : list (string * ExpressServer.Socket)) :
  NoDup (map fst m) ->
  find (fun e => Nat.eqb (snd e) socket) m = Some (c, s) ->
  s = socket /\ ExpressServer.Map_get c m = Some socket.
Proof.
  induction m as [|[k0 v0] m IH]; cbn [find snd ExpressServer.Map_get map fst]; intros Hnd Hf.
  - discriminate Hf.
  - apply NoDup_cons in Hnd as [Hnotin Hnd].
    destruct (Nat.eqb_spec v0 socket) as [->|Hne].
    + injection Hf as -> ->. rewrite String.eqb_refl. auto.
    + destruct (IH Hnd Hf) as [-> Hget]. split; [reflexivity|].
      destruct (String.eqb_spec k0 c) as [->|_]; [|exact Hget].
      exfalso. apply Hnotin.
      clear -Hf. induction m as [|[k1 v1] m IH]; [discriminate Hf|]. cbn in Hf |- *.
      destruct (Nat.eqb v1 socket); [injection Hf as -> _; apply list_elem_of_here|].
      apply list_elem_of_further, IH, Hf.
Qed.

Lemma find_socket_some (socket : ExpressServer.Socket) (c : string)
    (m : list (string * ExpressServer.Socket)) :
  ExpressServer.Map_get c m = Some socket ->
  exists c' s, List.find (fun e => Nat.eqb (snd e) socket) m = Some (c', s).
Proof.
  induction m as [|[k0 v0] m IH]; cbn [List.find snd ExpressServer.Map_get]; intros H.
  - discriminate H.
  - destruct (Nat.eqb_spec v0 socket) as [->|Hne]; [eauto|].
    destruct (String.eqb k0 c); [congruence | apply IH, H].
Qed.

(** An offer or a candidate for a browser client goes to the socket that
    announced the client id last, and to no other; the disconnect of any
    other socket does not change that.  For a client id that no socket
    has announced the offer is only logged as an error, and the candidate
    is dropped without a trace. *)
Theorem offer_reaches_registered_socket (es : list ExpressServer.Event) (clientId : string)
    (socket other : ExpressServer.Socket) (offer : SessionDescription)
    (candidate : IceCandidateInit) :
  other <> socket ->
  let x := ExpressServer.run es ExpressServer.constructor in
  let x1 := ExpressServer.disconnect other
              (ExpressServer.visualization_ready socket clientId x) in
  ExpressServer.sent (ExpressServer.sendOfferToBrowserClient clientId offer x1) =
    ExpressServer.sent x1 ++ [(socket, ExpressServer.webrtc_offer offer)] /\
  ExpressServer.sent (ExpressServer.sendIceCandidateToBrowserClient clientId candidate x1) =
    ExpressServer.sent x1 ++ [(socket, ExpressServer.webrtc_ice_candidate candidate)] /\
  (forall c, ExpressServer.Map_get c (ExpressServer.audioDataClients x1) = None ->
     ExpressServer.sent (ExpressServer.sendOfferToBrowserClient c offer x1) =
       ExpressServer.sent x1 /\
     last (ExpressServer.console (ExpressServer.sendOfferToBrowserClient c offer x1)) =
       Some {| level := LogError; message := "Browser client not found" |} /\
     ExpressServer.sendIceCandidateToBrowserClient c candidate x1 = x1).
Proof.
  intros Hne x x1.
  assert (ExpressServer.Map_get clientId (ExpressServer.audioDataClients x1) = Some socket) as Hget.
  { pose proof (keys_step x (ExpressServer.VisualizationReady socket clientId) (keys_run es))
      as Hnd.
    cbn [ExpressServer.step] in Hnd.
    assert (ExpressServer.Map_get clientId
              (ExpressServer.audioDataClients
                 (ExpressServer.visualization_ready socket clientId x)) = Some socket) as Hget0.
    { cbn. rewrite Map_get_set, String.eqb_refl. reflexivity. }
    subst x1. revert Hnd Hget0.
    generalize (ExpressServer.visualization_ready socket clientId x). intros y Hnd Hget0.
    unfold ExpressServer.disconnect. cbn -[List.find].
    case_find c s Hf;
      cbn; [|exact Hget0].
    destruct (find_socket_key other c s _ Hnd Hf) as [-> Hc].
    rewrite Map_get_delete_ne; [exact Hget0|].
    intros ->. rewrite Hget0 in Hc. congruence. }
  unfold ExpressServer.sendOfferToBrowserClient, ExpressServer.sendIceCandidateToBrowserClient.
  rewrite Hget. split; [reflexivity|]. split; [reflexivity|].
  intros c Hc. rewrite Hc. split; [reflexivity|]. split; [apply last_snoc | reflexivity].
Qed.

Lemma offer_reaches_registered_socket_witness :
  let offer := {| sdpType := SdpOffer; sdp := "offer" |} in
  let x := ExpressServer.run [ExpressServer.Connection 1%nat JNull;
                              ExpressServer.VisualizationReady 1%nat "abc-1";
                              ExpressServer.Connection 2%nat JNull]
             ExpressServer.constructor in
  let x1 := ExpressServer.disconnect 1%nat
              (ExpressServer.visualization_ready 2%nat "abc-1" x) in
  ExpressServer.sent (ExpressServer.sendOfferToBrowserClient "abc-1" offer x1) =
    ExpressServer.sent x1 ++ [(2%nat, ExpressServer.webrtc_offer offer)].
Proof.
  intros offer x x1.
  apply (offer_reaches_registered_socket
           [ExpressServer.Connection 1%nat JNull;
            ExpressServer.VisualizationReady 1%nat "abc-1";
            ExpressServer.Connection 2%nat JNull] "abc-1" 2%nat 1%nat offer
           {| candidate := None; sdpMid := None; sdpMLineIndex := None |}).
  discriminate.
Defined.

(** When a socket disconnects, the server looks through the map of client
    ids in its iteration order (the order in which the ids were first
    inserted: an id that is announced again keeps its place) for the first
    id that is bound to the socket, forgets that id and tells it once to
    the main process (browser-client:closed) and once to the sockets
    (window:closed); when no id is bound to the socket, nothing is
    forgotten or told, and no other event of a run emits
    browser-client:closed.  Only that one id is handled: a socket that
    announced two client ids leaves one of them registered to the dead
    socket. *)
Theorem disconnect_forgets_one_client (es : list ExpressServer.Event)
    (socket : ExpressServer.Socket) :
  let x := ExpressServer.run es ExpressServer.constructor in
  let x' := ExpressServer.disconnect socket x in
  match List.find (fun e => Nat.eqb (snd e) socket) (ExpressServer.audioDataClients x) with
  | Some (c, _) =>
      ExpressServer.getBrowserClientIds x' =
        List.filter (fun k => negb (String.eqb k c)) (ExpressServer.getBrowserClientIds x) /\
      ExpressServer.emitted x' =
        ExpressServer.emitted x ++ [("browser-client:closed", ExpressServer.ofClient c)] /\
      ExpressServer.broadcast x' =
        ExpressServer.broadcast x ++ [ExpressServer.window_closed (StrId c)]
  | None =>
      ExpressServer.audioDataClients x' = ExpressServer.audioDataClients x /\
      ExpressServer.emitted x' = ExpressServer.emitted x /\
      ExpressServer.broadcast x' = ExpressServer.broadcast x
  end /\
  (forall e, (forall s, e <> ExpressServer.Disconnect s) ->
     forall data, In ("browser-client:closed", data)
                     (ExpressServer.emitted (ExpressServer.step x e)) ->
                  In ("browser-client:closed", data) (ExpressServer.emitted x)) /\
  (forall c1 c2, c1 <> c2 ->
     let y := ExpressServer.disconnect socket
                (ExpressServer.visualization_ready socket c2
                   (ExpressServer.visualization_ready socket c1 x)) in
     exists c, ExpressServer.Map_get c (ExpressServer.audioDataClients y) = Some socket).
Proof.
  intros x x'. pose proof (keys_run es) as Hnd. fold x in Hnd.
  split; [|split].
  - subst x'. unfold ExpressServer.disconnect, ExpressServer.getBrowserClientIds.
    cbn -[List.find].
    case_find c s Hf; cbn.
    + split; [apply keys_Map_delete, Hnd | split; reflexivity].
    + repeat split.
  - clearbody x. intros e He data.
    assert (forall name dat,
              name <> "browser-client:closed" ->
              In ("browser-client:closed", data) (ExpressServer.emitted x ++ [(name, dat)]) ->
              In ("browser-client:closed", data) (ExpressServer.emitted x)) as Hemit.
    { intros name dat Hname Hin. apply in_app_or in Hin as [Hin|[Hin|[]]]; [exact Hin|].
      injection Hin as -> _. congruence. }
    destruct e; cbn [ExpressServer.step];
      try (cbn; apply Hemit; discriminate);
      try (cbn; intros H; exact H).
    + exfalso. exact (He socket0 eq_refl).
    + unfold ExpressServer.sendOfferToBrowserClient.
      destruct (ExpressServer.Map_get _ _); cbn; intros H; exact H.
    + unfold ExpressServer.sendIceCandidateToBrowserClient.
      destruct (ExpressServer.Map_get _ _); cbn; intros H; exact H.
  - intros c1 c2 Hc y.
    set (x2 := ExpressServer.visualization_ready socket c2
                 (ExpressServer.visualization_ready socket c1 x)) in *.
    assert (NoDup (map fst (ExpressServer.audioDataClients x2))) as Hnd2.
    { apply (keys_step _ (ExpressServer.VisualizationReady socket c2)),
            (keys_step _ (ExpressServer.VisualizationReady socket c1)), Hnd. }
    assert (ExpressServer.Map_get c1 (ExpressServer.audioDataClients x2) = Some socket) as H1.
    { cbn. rewrite !Map_get_set, String.eqb_refl.
      destruct (String.eqb_spec c2 c1); [congruence | reflexivity]. }
    assert (ExpressServer.Map_get c2 (ExpressServer.audioDataClients x2) = Some socket) as H2.
    { cbn. rewrite Map_get_set, String.eqb_refl. reflexivity. }
    subst y. clearbody x2. unfold ExpressServer.disconnect. cbn -[List.find].
    destruct (find_socket_some socket c1 _ H1) as (c & s & Hf). rewrite Hf. cbn.
    destruct (String.eqb_spec c c1) as [->|Hne].
    + exists c2. rewrite Map_get_delete_ne by exact Hc. exact H2.
    + exists c1. rewrite Map_get_delete_ne by exact Hne. exact H1.
Qed.

(** Socket 2 announces c1, socket 1 announces c2 and then c1 as well: c1
    keeps its place at the head of the map and now belongs to socket 1, so
    the disconnect of socket 1 forgets c1, the id it announced last, and
    leaves c2 registered to it. *)
Lemma disconnect_forgets_one_client_witness :
  let es := [ExpressServer.Connection 1%nat JNull;
             ExpressServer.Connection 2%nat JNull;
             ExpressServer.VisualizationReady 2%nat "c1";
             ExpressServer.VisualizationReady 1%nat "c2";
             ExpressServer.VisualizationReady 1%nat "c1"] in
  let x := ExpressServer.run es ExpressServer.constructor in
  ExpressServer.getBrowserClientIds x = ["c1"; "c2"] /\
  ExpressServer.getBrowserClientIds (ExpressServer.disconnect 1%nat x) = ["c2"].
Proof.
  intros es x. split; [reflexivity|].
  destruct (disconnect_forgets_one_client es 1%nat) as [H _].
  fold x in H.
  assert (List.find (fun e => Nat.eqb (snd e) 1%nat) (ExpressServer.audioDataClients x)
          = Some ("c1", 1%nat)) as Hf by reflexivity.
  rewrite Hf in H. destruct H as [H _]. rewrite H. reflexivity.
Defined.

(** ** Client ids of the browser clients *)

Lemma replacement_digit (c : ascii) (random : Q) :
  (0 <= random)%Q -> (random < 1)%Q ->
  exists h, replacement c random = String h EmptyString /\
            In h ["0"; "1"; "2"; "3"; "4"; "5"; "6"; "7"; "8"; "9";
                  "a"; "b"; "c"; "d"; "e"; "f"]%char /\
            (Ascii.eqb c "x" = false -> In h ["8"; "9"; "a"; "b"]%char).
Proof.
  intros H0 H1. unfold replacement.
  pose proof (floor_random random 16 H0 H1 ltac:(lia)) as Hr.
  change (inject_Z (Z.of_nat 16)) with 16%Q in Hr. change (Z.of_nat 16) with 16 in Hr.
  set (r := Qfloor (random * 16)) in *. clearbody r.
  assert (r = 0 \/ r = 1 \/ r = 2 \/ r = 3 \/ r = 4 \/ r = 5 \/ r = 6 \/ r = 7 \/
          r = 8 \/ r = 9 \/ r = 10 \/ r = 11 \/ r = 12 \/ r = 13 \/ r = 14 \/ r = 15)
    as Hcases by lia.
  destruct (Ascii.eqb c "x");
    repeat (destruct Hcases as [->|Hcases]); try subst r;
    (eexists; split; [vm_compute; reflexivity|]; split; [cbn; tauto|]);
    first [discriminate | intros _; cbn; tauto].
Qed.

(** Without [crypto.randomUUID], the client id is built from the template:
    36 characters, hyphens at positions 8, 13, 18 and 23, the version
    digit 4 at position 14, one of 8, 9, a, b at position 19.  So the id
    has the separator in it, and the dashboard sends the offer for this
    client through the Socket.IO relay. *)
Theorem fallback_uuid_is_routed_to_relay (random : nat -> Q) :
  (forall i, (0 <= random i)%Q /\ (random i < 1)%Q) ->
  let uuid := generateUUID None random in
  String.length uuid = 36%nat /\
  String.get 8 uuid = Some "-"%char /\ String.get 13 uuid = Some "-"%char /\
  String.get 18 uuid = Some "-"%char /\ String.get 23 uuid = Some "-"%char /\
  String.get 14 uuid = Some "4"%char /\
  (exists h, String.get 19 uuid = Some h /\ In h ["8"; "9"; "a"; "b"]%char) /\
  isBrowserClient (StrId uuid) = true /\
  forall text d,
    last (electronAPI (snd (createConnection (StrId uuid) (Normal text) d))) =
      Some (sendOfferToBrowserClient (StrId uuid) {| sdpType := SdpOffer; sdp := text |}).
Proof.
  intros Hrandom uuid.
  assert (exists h0 h1 h2 h3 h4 h5 h6 h7 h8 h9 h10 h11 h12 h13 h14 h15 h16 h17 h18 h19
                 h20 h21 h22 h23 h24 h25 h26 h27 h28 h29 h30,
            uuid =
              String h0 (String h1 (String h2 (String h3 (String h4 (String h5 (String h6
              (String h7 (String "-" (String h8 (String h9 (String h10 (String h11
              (String "-" (String "4" (String h12 (String h13 (String h14 (String "-"
              (String h15 (String h16 (String h17 (String h18 (String "-" (String h19
              (String h20 (String h21 (String h22 (String h23 (String h24 (String h25
              (String h26 (String h27 (String h28 (String h29 (String h30 EmptyString
              ))))))))))))))))))))))))))))))))))) /\
            In h15 ["8"; "9"; "a"; "b"]%char) as Hshape.
  { subst uuid. unfold generateUUID. cbn [replace_xy Ascii.eqb Bool.eqb orb andb].
    repeat match goal with
           | |- context [replacement ?c (random ?k)] =>
               let h := fresh "h" in
               let Hh := fresh "Hh" in
               let Hy := fresh "Hy" in
               destruct (replacement_digit c (random k) (proj1 (Hrandom k)) (proj2 (Hrandom k)))
                 as (h & Hh & _ & Hy);
               rewrite Hh; clear Hh;
               first [ specialize (Hy eq_refl) | clear Hy ]
           end.
    cbv [String.append]. do 31 eexists. split; [reflexivity | assumption]. }
  destruct Hshape as (h0 & h1 & h2 & h3 & h4 & h5 & h6 & h7 & h8 & h9 & h10 & h11 & h12 &
                      h13 & h14 & h15 & h16 & h17 & h18 & h19 & h20 & h21 & h22 & h23 &
                      h24 & h25 & h26 & h27 & h28 & h29 & h30 & Huuid & Hy).
  assert (isBrowserClient (StrId uuid) = true) as Hbrowser.
  { apply isBrowserClient_spec.
    exists (String h0 (String h1 (String h2 (String h3 (String h4 (String h5 (String h6
            (String h7 EmptyString)))))))).
    eexists. rewrite Huuid. reflexivity. }
  clearbody uuid.
  split; [rewrite Huuid; reflexivity|].
  do 5 (split; [rewrite Huuid; reflexivity|]).
  split; [exists h15; split; [rewrite Huuid; reflexivity | exact Hy]|].
  split; [exact Hbrowser|].
  intros text d.
  destruct (createConnection_ok (StrId uuid) text d) as (_ & _ & _ & _ & Hcall & _).
  rewrite Hcall, Hbrowser. apply last_snoc.
Qed.

Lemma fallback_uuid_is_routed_to_relay_witness :
  generateUUID None (fun i => if Nat.even i then 0%Q else (15 # 16)%Q)
    = "0f0f0f0f-0f0f-40f0-b0f0-f0f0f0f0f0f0" /\
  isBrowserClient (StrId (generateUUID None (fun i => if Nat.even i then 0%Q else (15 # 16)%Q))) = true.
Proof.
  split; [vm_compute; reflexivity|].
  apply (fallback_uuid_is_routed_to_relay (fun i => if Nat.even i then 0%Q else (15 # 16)%Q)).
  intros i. destruct (Nat.even i); split; vm_compute; first [reflexivity | discriminate].
Defined.

(** ** The settings of the application *)

(** [load] never throws and falls back in two steps: the settings file if
    it parses, else the backup if that parses, else the defaults.  On a
    manager without unsaved changes it writes nothing: after a restore
    from the backup the settings file is as unreadable or absent as it
    was, because the [save] that is meant to rewrite it returns at once
    while nothing is marked dirty. *)
Theorem load_falls_back (disk : SettingsManager.Disk) (x : SettingsManager.t) :
  SettingsManager.isDirty x = false ->
  let x' := snd (SettingsManager.load disk x) in
  fst (SettingsManager.load disk x) = SettingsManager.settings x' /\
  SettingsManager.settings x' =
    match SettingsManager.settingsFile x, SettingsManager.backupFile x with
    | SettingsManager.Stored value, _ => value
    | _, SettingsManager.Stored value => value
    | _, _ => Some SettingsManager.defaults
    end /\
  SettingsManager.settingsFile x' = SettingsManager.settingsFile x /\
  SettingsManager.backupFile x' = SettingsManager.backupFile x /\
  SettingsManager.isDirty x' = false.
Proof.
  intros Hclean. unfold SettingsManager.load, SettingsManager.save.
  destruct (SettingsManager.settingsFile x) eqn:Hmain;
    destruct (SettingsManager.backupFile x) eqn:Hbackup;
    cbn; rewrite ?Hclean; cbn; rewrite ?Hmain, ?Hbackup; repeat split; assumption.
Qed.

Lemma load_falls_back_witness :
  let s : SettingsManager.Settings := {[ "microphoneGain" := JNumber 2 ]} in
  let x := SettingsManager.constructor SettingsManager.Corrupt
             (SettingsManager.Stored (Some s)) in
  let x' := snd (SettingsManager.load {| SettingsManager.copyFails := false;
                                         SettingsManager.writeFails := false |} x) in
  SettingsManager.settings x' = Some s /\
  SettingsManager.settingsFile x' = SettingsManager.Corrupt.
Proof.
  intros s x x'.
  destruct (load_falls_back {| SettingsManager.copyFails := false;
                               SettingsManager.writeFails := false |} x eq_refl)
    as (_ & H1 & H2 & _).
  split; [exact H1 | exact H2].
Defined.

Lemma set_loaded (key : string) (value : JsonValue) (s : SettingsManager.Settings)
    (x : SettingsManager.t) :
  SettingsManager.settings x = Some s ->
  (forall i, In i (SettingsManager.timeouts x) -> SettingsManager.saveTimeout x = Some i) ->
  let x' := snd (SettingsManager.set key value x) in
  fst (SettingsManager.set key value x) = SettingsManager.Return tt /\
  SettingsManager.settings x' = Some (<[key := value]> s) /\
  SettingsManager.saveTimeout x' = Some (SettingsManager.nextTimeout x) /\
  SettingsManager.timeouts x' = [SettingsManager.nextTimeout x] /\
  SettingsManager.isDirty x' = true /\
  SettingsManager.settingsFile x' = SettingsManager.settingsFile x /\
  SettingsManager.backupFile x' = SettingsManager.backupFile x.
Proof.
  intros Hs Hinv. unfold SettingsManager.set. rewrite Hs. cbn.
  destruct (SettingsManager.saveTimeout x) as [i|] eqn:Hi; cbn.
  - repeat split. f_equal.
    assert (forall j, In j (SettingsManager.timeouts x) -> j = i) as Hall.
    { intros j Hj. specialize (Hinv j Hj). congruence. }
    revert Hall. generalize (SettingsManager.timeouts x). intros l Hall.
    induction l as [|j l IH]; [reflexivity|]. cbn.
    rewrite (Hall j) by (left; reflexivity). rewrite Nat.eqb_refl. cbn.
    apply IH. intros k Hk. apply Hall. right. exact Hk.
  - repeat split. f_equal.
    destruct (SettingsManager.timeouts x) as [|j l]; [reflexivity|].
    specialize (Hinv j (or_introl eq_refl)). discriminate Hinv.
Qed.

(** The saves are debounced: however many [set] calls follow each other,
    one timeout is armed afterwards, the one of the last call, and
    nothing has been written yet.  When it comes due and the write
    succeeds, the settings file holds every change of the burst, the
    manager is clean, and the backup holds what the settings file held
    before, if there was one and the copy went through. *)
Theorem burst_of_sets_saves_once (kvs : list (string * JsonValue))
    (s : SettingsManager.Settings) (x : SettingsManager.t) (disk : SettingsManager.Disk) :
  SettingsManager.settings x = Some s ->
  (forall i, In i (SettingsManager.timeouts x) -> SettingsManager.saveTimeout x = Some i) ->
  kvs <> [] ->
  let x1 := sets kvs x in
  exists i,
    SettingsManager.saveTimeout x1 = Some i /\
    SettingsManager.timeouts x1 = [i] /\
    SettingsManager.isDirty x1 = true /\
    SettingsManager.settings x1 =
      Some (fold_left (fun s kv => <[fst kv := snd kv]> s) kvs s) /\
    SettingsManager.settingsFile x1 = SettingsManager.settingsFile x /\
    (SettingsManager.writeFails disk = false ->
     let x2 := SettingsManager.fire i disk x1 in
     SettingsManager.settingsFile x2 = SettingsManager.Stored (SettingsManager.settings x1) /\
     SettingsManager.isDirty x2 = false /\
     SettingsManager.timeouts x2 = [] /\
     (SettingsManager.copyFails disk = false ->
      SettingsManager.settingsFile x <> SettingsManager.Missing ->
      SettingsManager.backupFile x2 = SettingsManager.settingsFile x)).
Proof.
  intros Hs Hinv Hne.
  assert (forall kvs s x,
            SettingsManager.settings x = Some s ->
            (forall i, In i (SettingsManager.timeouts x) ->
                       SettingsManager.saveTimeout x = Some i) ->
            kvs <> [] ->
            exists i,
              SettingsManager.saveTimeout (sets kvs x) = Some i /\
              SettingsManager.timeouts (sets kvs x) = [i] /\
              SettingsManager.isDirty (sets kvs x) = true /\
              SettingsManager.settings (sets kvs x) =
                Some (fold_left (fun s kv => <[fst kv := snd kv]> s) kvs s) /\
              SettingsManager.settingsFile (sets kvs x) = SettingsManager.settingsFile x /\
              SettingsManager.backupFile (sets kvs x) = SettingsManager.backupFile x) as Hburst.
  { clear. intros kvs. induction kvs as [|[k v] kvs IH]; intros s x Hs Hinv Hne; [congruence|].
    destruct (set_loaded k v s x Hs Hinv) as (_ & K2 & K3 & K4 & K5 & K6 & K7).
    unfold sets. cbn [fold_left fst snd].
    change (fold_left (fun x kv => snd (SettingsManager.set (fst kv) (snd kv) x)) kvs ?y)
      with (sets kvs y).
    destruct kvs as [|kv kvs].
    - exists (SettingsManager.nextTimeout x). cbn [sets fold_left]. auto 10.
    - destruct (IH (<[k := v]> s) (snd (SettingsManager.set k v x)) K2) as (i & L); [|discriminate|].
      + intros i Hi. rewrite K4 in Hi. destruct Hi as [<-|[]]. exact K3.
      + exists i. destruct L as (L1 & L2 & L3 & L4 & L5 & L6).
        rewrite L5, L6, K6, K7. auto 10. }
  destruct (Hburst kvs s x Hs Hinv Hne) as (i & H1 & H2 & H3 & H4 & H5 & H6).
  intros x1. fold x1 in H1, H2, H3, H4, H5, H6. clearbody x1.
  exists i. repeat (split; [assumption|]).
  intros Hw x2. subst x2. unfold SettingsManager.fire. rewrite H2. cbn [existsb].
  rewrite Nat.eqb_refl. cbn [orb].
  unfold SettingsManager.save. cbn. rewrite H3, Hw, H5. cbn. rewrite ?Nat.eqb_refl. cbn.
  destruct (SettingsManager.settingsFile x) eqn:Hfile; cbn;
    destruct (SettingsManager.copyFails disk); cbn;
    repeat split; try reflexivity; try congruence;
    rewrite H2; cbn; rewrite Nat.eqb_refl; reflexivity.
Qed.

Lemma burst_of_sets_saves_once_witness :
  let disk := {| SettingsManager.copyFails := false; SettingsManager.writeFails := false |} in
  let x := snd (SettingsManager.load disk
                  (SettingsManager.constructor (SettingsManager.Stored (Some ∅))
                     SettingsManager.Missing)) in
  let x1 := sets [("microphoneGain", JNumber 2); ("microphoneDeviceId", JString "usb");
                  ("microphoneGain", JNumber 3)] x in
  exists i, SettingsManager.timeouts x1 = [i] /\
            SettingsManager.backupFile (SettingsManager.fire i disk x1) =
              SettingsManager.Stored (Some ∅).
Proof.
  intros disk x x1.
  destruct (burst_of_sets_saves_once
              [("microphoneGain", JNumber 2); ("microphoneDeviceId", JString "usb");
               ("microphoneGain", JNumber 3)] ∅ x disk eq_refl)
    as (i & _ & H2 & _ & _ & _ & H6); [intros i [] | discriminate |].
  exists i. split; [exact H2|].
  destruct (H6 eq_refl) as (_ & _ & _ & H). apply H; [reflexivity | discriminate].
Defined.

Lemma indexOf_None (l : list JsonValue) (s : string) :
  SettingsManager.indexOf l s = None <-> JString s ∉ l.
Proof.
  induction l as [|v l IH]; cbn [SettingsManager.indexOf].
  - split; [intros _; apply not_elem_of_nil | reflexivity].
  - rewrite not_elem_of_cons.
    destruct v as [| | |s'| |];
      try (destruct (SettingsManager.indexOf l s); cbn;
           [split; [discriminate | intros [_ H]; apply IH in H; discriminate H]
           |split; [intros _; split; [discriminate | apply IH; reflexivity] | reflexivity]]).
    destruct (String.eqb_spec s' s) as [->|Hne].
    + split; [discriminate | intros [H _]; congruence].
    + destruct (SettingsManager.indexOf l s); cbn.
      * split; [discriminate | intros [_ H]; apply IH in H; discriminate H].
      * split; [intros _; split; [congruence | apply IH; reflexivity] | reflexivity].
Qed.

Lemma indexOf_Some (l : list JsonValue) (s : string) (i : nat) :
  SettingsManager.indexOf l s = Some i -> l !! i = Some (JString s).
Proof.
  revert i. induction l as [|v l IH]; intros i; cbn [SettingsManager.indexOf]; [discriminate|].
  assert (S <$> SettingsManager.indexOf l s = Some i -> (v :: l) !! i = Some (JString s)) as Hrest.
  { destruct (SettingsManager.indexOf l s) as [j|]; cbn; [|discriminate].
    intros [= <-]. cbn. apply IH. reflexivity. }
  destruct v as [| | |s'| |]; try exact Hrest.
  destruct (String.eqb_spec s' s) as [->|Hne]; [|exact Hrest].
  intros [= <-]. reflexivity.
Qed.

Lemma splice1_NoDup (l : list JsonValue) (i : nat) (v : JsonValue) :
  NoDup l -> l !! i = Some v ->
  NoDup (SettingsManager.splice1 i l) /\
  forall u, u ∈ SettingsManager.splice1 i l <-> u ∈ l /\ u <> v.
Proof.
  intros Hnd Hi. unfold SettingsManager.splice1.
  pose proof (take_drop_middle l i v Hi) as Hl.
  rewrite <- Hl in Hnd. apply NoDup_app in Hnd as (H1 & H2 & H3).
  apply NoDup_cons in H3 as [H3 H4].
  split.
  - apply NoDup_app. split; [exact H1|]. split; [|exact H4].
    intros u Hu Hu'. apply (H2 u Hu). apply list_elem_of_further, Hu'.
  - intros u.
    assert (u ∈ l <-> u ∈ take i l ++ v :: drop (S i) l) as Hl' by (rewrite Hl; reflexivity).
    rewrite Hl', !elem_of_app, elem_of_cons. split.
    + intros [Hu|Hu].
      * split; [auto|]. intros ->. apply (H2 v Hu), list_elem_of_here.
      * split; [auto|]. intros ->. exact (H3 Hu).
    + intros [[Hu|[->|Hu]] Hne]; [auto | congruence | auto].
Qed.

(** [togglePresetEnabled] flips one preset and leaves the others: on
    loaded settings whose list of disabled presets has no duplicates, the
    preset is in the new list exactly when it was not in the old one,
    every other name is in the new list exactly when it was in the old
    one, the new list is what the call returns and what the settings
    hold, it has no duplicates either, and the settings are marked dirty. *)
Theorem togglePresetEnabled_flips (presetName : string) (s : SettingsManager.Settings)
    (x : SettingsManager.t) :
  SettingsManager.settings x = Some s ->
  (s !! "disabledPresets" = None \/ exists l, s !! "disabledPresets" = Some (JArray l)) ->
  NoDup (disabledList x) ->
  let x' := snd (SettingsManager.togglePresetEnabled presetName x) in
  fst (SettingsManager.togglePresetEnabled presetName x) =
    SettingsManager.Return (disabledList x') /\
  NoDup (disabledList x') /\
  (JString presetName ∈ disabledList x' <-> JString presetName ∉ disabledList x) /\
  (forall n, n <> presetName ->
             (JString n ∈ disabledList x' <-> JString n ∈ disabledList x)) /\
  (exists b, SettingsManager.isPresetDisabled presetName x = SettingsManager.Return b /\
             SettingsManager.isPresetDisabled presetName x' = SettingsManager.Return (negb b)) /\
  SettingsManager.isDirty x' = true.
Proof.
  intros Hs Harr Hnd.
  assert (exists l, SettingsManager.getDisabledPresets x = SettingsManager.Return (JArray l) /\
                    disabledList x = l) as (l & Hget & Hl).
  { unfold SettingsManager.getDisabledPresets, SettingsManager.get, disabledList. rewrite Hs.
    destruct Harr as [->|[l ->]]; eauto. }
  rewrite Hl in *. clear Hl.
  assert (forall l',
            NoDup l' ->
            (JString presetName ∈ l' <-> JString presetName ∉ l) ->
            (forall n, n <> presetName -> (JString n ∈ l' <-> JString n ∈ l)) ->
            SettingsManager.togglePresetEnabled presetName x =
              (SettingsManager.Return l',
               snd (SettingsManager.set "disabledPresets" (JArray l') x)) ->
            let x' := snd (SettingsManager.togglePresetEnabled presetName x) in
            fst (SettingsManager.togglePresetEnabled presetName x) =
              SettingsManager.Return (disabledList x') /\
            NoDup (disabledList x') /\
            (JString presetName ∈ disabledList x' <-> JString presetName ∉ l) /\
            (forall n, n <> presetName -> (JString n ∈ disabledList x' <-> JString n ∈ l)) /\
            (exists b,
               SettingsManager.isPresetDisabled presetName x = SettingsManager.Return b /\
               SettingsManager.isPresetDisabled presetName x' =
                 SettingsManager.Return (negb b)) /\
            SettingsManager.isDirty x' = true) as Hfinish.
  { intros l' Hnd' Hflip Hother Heq. rewrite Heq. cbn [fst snd].
    assert (disabledList (snd (SettingsManager.set "disabledPresets" (JArray l') x)) = l'
            /\ SettingsManager.isDirty
                 (snd (SettingsManager.set "disabledPresets" (JArray l') x)) = true
            /\ SettingsManager.getDisabledPresets
                 (snd (SettingsManager.set "disabledPresets" (JArray l') x)) =
               SettingsManager.Return (JArray l')) as (K1 & K2 & K3).
    { unfold SettingsManager.set, disabledList, SettingsManager.getDisabledPresets,
        SettingsManager.get. rewrite Hs.
      cbn. destruct (SettingsManager.saveTimeout x); cbn;
        rewrite (lookup_insert_eq (M := gmap string) s); auto. }
    rewrite K1. repeat (split; [assumption || reflexivity|]). split; [|exact K2].
    unfold SettingsManager.isPresetDisabled. rewrite K3, Hget. eexists. split; [reflexivity|].
    f_equal.
    destruct (SettingsManager.indexOf l presetName) as [j|] eqn:Hj.
    - rewrite (bool_decide_eq_true_2 (is_Some (Some j))) by eauto. cbn.
      apply bool_decide_eq_false_2.
      intros [i Hi]. apply indexOf_Some, list_elem_of_lookup_2 in Hi.
      apply Hflip in Hi. apply Hi. eapply list_elem_of_lookup_2, indexOf_Some, Hj.
    - rewrite (bool_decide_eq_false_2 (is_Some None)) by (intros [? H]; discriminate H). cbn.
      apply bool_decide_eq_true_2.
      destruct (SettingsManager.indexOf l' presetName) as [i|] eqn:Hi; [eauto|].
      apply indexOf_None in Hi. exfalso. apply Hi, Hflip, indexOf_None, Hj. }
  destruct (SettingsManager.indexOf l presetName) as [i|] eqn:Hi.
  - pose proof (indexOf_Some l presetName i Hi) as Hli.
    destruct (splice1_NoDup l i (JString presetName) Hnd Hli) as [Hnd' Hmem].
    apply (Hfinish (SettingsManager.splice1 i l) Hnd').
    + rewrite Hmem. split; [intros [_ H]; congruence|].
      intros H. exfalso. apply H. eapply list_elem_of_lookup_2, Hli.
    + intros n Hn. rewrite Hmem. split; [tauto|]. intros H. split; [exact H | congruence].
    + unfold SettingsManager.togglePresetEnabled, SettingsManager.setDisabledPresets.
      rewrite Hget, Hi. unfold SettingsManager.set. rewrite Hs. cbn.
      destruct (SettingsManager.saveTimeout x); reflexivity.
  - pose proof (proj1 (indexOf_None l presetName) Hi) as Hnin.
    apply (Hfinish (l ++ [JString presetName])).
    + apply NoDup_app. split; [exact Hnd|]. split; [|apply NoDup_singleton].
      intros u Hu Hu'. apply list_elem_of_singleton in Hu'. subst u. exact (Hnin Hu).
    + rewrite elem_of_app, list_elem_of_singleton. tauto.
    + intros n Hn. rewrite elem_of_app, list_elem_of_singleton. split; [|tauto].
      intros [H|H]; [exact H | congruence].
    + unfold SettingsManager.togglePresetEnabled, SettingsManager.setDisabledPresets.
      rewrite Hget, Hi. unfold SettingsManager.set. rewrite Hs. cbn.
      destruct (SettingsManager.saveTimeout x); reflexivity.
Qed.

Lemma togglePresetEnabled_flips_witness :
  let x := snd (SettingsManager.load
                  {| SettingsManager.copyFails := false; SettingsManager.writeFails := false |}
                  (SettingsManager.constructor SettingsManager.Missing SettingsManager.Missing)) in
  let x1 := snd (SettingsManager.togglePresetEnabled "Geiss - Swirl" x) in
  let x2 := snd (SettingsManager.togglePresetEnabled "Geiss - Swirl" x1) in
  disabledList x1 = [JString "Geiss - Swirl"] /\
  JString "Geiss - Swirl" ∉ disabledList x2.
Proof.
  intros x x1 x2. split; [reflexivity|].
  assert (exists s, SettingsManager.settings x1 = Some s /\
                    s !! "disabledPresets" = Some (JArray [JString "Geiss - Swirl"]))
    as (s & Hs & Hl).
  { eexists. split; [reflexivity|]. apply lookup_insert_eq. }
  assert (disabledList x1 = [JString "Geiss - Swirl"]) as Hd by reflexivity.
  destruct (togglePresetEnabled_flips "Geiss - Swirl" s x1 Hs) as (_ & _ & H & _).
  - right. eauto.
  - rewrite Hd. apply NoDup_singleton.
  - fold x2 in H. intros Hin. apply H in Hin. apply Hin. rewrite Hd. apply list_elem_of_here.
Defined.

(** ** From the analyser of the dashboard to the visualizer *)

(** One tick on an open audio channel, end to end: the frame that the
    dashboard sends has 2048 bytes, and once the renderer has received it,
    each patched analyser of the visualizer copies its first bytes into
    the array it is given, as many as fit, and leaves the rest of the
    array; the array keeps its length.  An array of 2048 bytes receives
    the whole frame: silence at level 128 while the dashboard has no
    analyser, the window of the analyser otherwise.  Only the latest frame
    counts; an earlier one that was not read is gone. *)
Theorem frame_reaches_visualizer (r : PcRef) (k : Connection) (d : Dashboard)
    (x : ButterchurnRenderer.t) (originalTime : list byte -> list byte) :
  wire d ->
  heap d !! r = Some k ->
  readyState (audioChannel k) = RsOpen ->
  exists frame k',
    heap (snd (sendAnalysisData r None d)) !! r = Some k' /\
    sent (audioChannel k') = sent (audioChannel k) ++ [Binary frame] /\
    length frame = 2048%nat /\
    (analyser (microphoneManager d) = None -> frame = repeat x80 2048) /\
    (forall a, analyser (microphoneManager d) = Some a ->
               length (timeDomainData a) = 2048%nat -> frame = timeDomainData a) /\
    forall earlier array,
      let x' := ButterchurnRenderer.onmessage frame (ButterchurnRenderer.onmessage earlier x) in
      let seen := ButterchurnRenderer.getByteTimeDomainData originalTime x' array in
      length seen = length array /\
      seen = take (length array) frame ++ drop 2048 array /\
      (length array = 2048%nat -> seen = frame).
Proof.
  intros [Hfft _] Hr Hrs.
  pose proof (sendAnalysisData_open r d k Hr Hrs) as Hsend. cbv zeta in Hsend.
  set (frame := match analyser (microphoneManager d) with
                | Some a => getByteTimeDomainData a (Uint8Array (fftSize a))
                | None => repeat x80 2048
                end) in *.
  assert (length frame = 2048%nat) as Hlen.
  { subst frame. destruct (analyser (microphoneManager d)) as [a|] eqn:Ha.
    - rewrite getByteTimeDomainData_length, Uint8Array_length, (Hfft a eq_refl). reflexivity.
    - apply repeat_length. }
  exists frame. eexists. rewrite Hsend. cbn [snd set_heap heap].
  split; [apply lookup_insert_eq|]. split; [reflexivity|]. split; [exact Hlen|].
  split; [|split].
  - intros Ha. subst frame. rewrite Ha. reflexivity.
  - intros a Ha Hdata. subst frame. rewrite Ha. unfold getByteTimeDomainData.
    rewrite Uint8Array_length, (Hfft a Ha), Hdata.
    change (N.to_nat 2048) with 2048%nat.
    rewrite take_ge by lia. rewrite drop_ge by (rewrite Uint8Array_length; lia).
    apply app_nil_r.
  - intros earlier array. cbn zeta.
    unfold ButterchurnRenderer.getByteTimeDomainData, ButterchurnRenderer.onmessage,
      ButterchurnRenderer.array_set.
    cbn [ButterchurnRenderer.latestTimeData]. rewrite Hlen.
    assert (take (Nat.min (length array) 2048) frame = take (length array) frame) as Htake.
    { destruct (Nat.le_ge_cases (length array) 2048) as [H|H].
      - rewrite Nat.min_l by exact H. reflexivity.
      - rewrite Nat.min_r by exact H. rewrite !take_ge by lia. reflexivity. }
    rewrite Htake. clear Htake.
    assert (drop (length (take (length array) frame)) array = drop 2048 array) as Hdrop.
    { rewrite length_take, Hlen. destruct (Nat.le_ge_cases (length array) 2048) as [H|H].
      - rewrite Nat.min_l by exact H. rewrite !drop_ge by lia. reflexivity.
      - rewrite Nat.min_r by exact H. reflexivity. }
    rewrite Hdrop. split; [|split; [reflexivity|]].
    + rewrite length_app, length_take, length_drop, Hlen. lia.
    + intros Harr. rewrite take_ge by lia. rewrite drop_ge by lia. apply app_nil_r.
Qed.

Lemma frame_reaches_visualizer_witness :
  let env := {| getUserMedia := Normal {| streamId := "mic"; trackIds := ["track 0"] |};
                startsSuspended := false;
                new_AudioContext := None; resume := None;
                createMediaStreamSource := None |} in
  let d := run [CreateConnection (NumId 1) (Normal "offer");
                AudioChannelOpens 0%nat (NumId 1);
                Start "default" env;
                AudioProcess (repeat x7f 2048)] webrtcController in
  exists frame,
    frame = repeat x7f 2048 /\
    ButterchurnRenderer.getByteTimeDomainData (fun a => a)
      (ButterchurnRenderer.onmessage frame
         (ButterchurnRenderer.onmessage [] ButterchurnRenderer.constructor))
      (repeat x00 1024) = repeat x7f 1024.
Proof.
  intros env d.
  assert (wire d) as Hwire.
  { assert (wire webrtcController) as H0.
    { split; [intros a Ha; discriminate Ha | intros r' k' Hk'; discriminate Hk']. }
    unfold d, run. cbn [fold_left]. repeat apply wire_step. exact H0. }
  pose (k := {| pc := {| iceServers := []; connectionState := CsNew;
                         signalingState := SsHaveLocalOffer;
                         localDescription := Some {| sdpType := SdpOffer; sdp := "offer" |};
                         remoteDescription := None;
                         remoteCandidates := [] |};
                audioChannel :=
                  {| label := "audioData"; ordered := false; maxRetransmits := Some 0%N;
                     readyState := RsOpen; sent := [] |};
                controlChannel := createDataChannel "control" true None;
                pc_controlChannel := false;
                audioChannelInterval := Some 0%nat |}).
  assert (heap d !! 0%nat = Some k) as Hk by (vm_compute; reflexivity).
  destruct (frame_reaches_visualizer 0%nat k d ButterchurnRenderer.constructor (fun a => a)
              Hwire Hk eq_refl) as (frame & k' & _ & _ & Hlen & _ & Hlive & Hseen).
  assert (frame = repeat x7f 2048) as Hframe.
  { apply (Hlive {| fftSize := 2048; smoothingTimeConstant := 3 # 10;
                    timeDomainData := repeat x7f 2048 |}); vm_compute; reflexivity. }
  exists frame. split; [exact Hframe|].
  destruct (Hseen [] (repeat x00 1024)) as (_ & H & _).
  rewrite H, Hframe. vm_compute. reflexivity.
Defined.
